(** * Attack evaluation and deploy-location choice of [algo_strategy.py]

    A shallow embedding of the attack-planning part of
    [src/python-algo/algo_strategy.py]: [total_target_health],
    [gain_of_attack], [filter_blocked_locations], [attempt_to_attack] and
    [least_damage_spawn_location].

    Numbers.  The unit statistics come from the game configuration as
    Python numbers; they are modelled as exact rationals ([Q]), with
    Python's true division, floor division and [int] written out.
    Equalities between computed numbers are therefore stated with [==].

    Exceptions.  Python code that can raise is a computation in the
    [outcome] monad below; a function that falls off its end returns
    Python's [None], modelled as [option].

    The [gamelib] package is not part of the sources: every query the
    strategy makes on [game_state] is a field of the record [GameState]. *)

From Stdlib Require Import ZArith QArith Qround Qminmax List Bool Lia Lqa.
Import ListNotations.
Open Scope Q_scope.

(** ** Python values and control flow *)

Module Py.

Inductive exn : Type :=
| ZeroDivisionError
| TypeError
| UnboundLocalError
| ValueError
| IndexError.

Inductive outcome (A : Type) : Type :=
| Return (a : A)
| Raise (e : exn).
Arguments Return {A} a.
Arguments Raise {A} e.

Definition bind {A B : Type} (c : outcome A) (k : A -> outcome B) : outcome B :=
  match c with
  | Return a => k a
  | Raise e => Raise e
  end.

(** What the body of a [for] loop leaves behind: the updated local
    variables, or the value of a [return] statement it executed. *)
Inductive flow (S R : Type) : Type :=
| Next (s : S)
| Returned (r : R).
Arguments Next {S R} s.
Arguments Returned {S R} r.

(** [for x in xs: body], the local variables threaded as [s]. *)
Fixpoint for_in {A S R : Type} (xs : list A)
    (body : A -> S -> outcome (flow S R)) (s : S) : outcome (flow S R) :=
  match xs with
  | [] => Return (Next s)
  | x :: xs' =>
      bind (body x s) (fun r =>
        match r with
        | Next s' => for_in xs' body s'
        | Returned v => Return (Returned v)
        end)
  end.

Definition ltb (a b : Q) : bool := negb (Qle_bool b a).
Definition leb (a b : Q) : bool := Qle_bool a b.
Definition eqb (a b : Q) : bool := Qeq_bool a b.

(** [a / b] *)
Definition truediv (a b : Q) : outcome Q :=
  if eqb b 0 then Raise ZeroDivisionError else Return (a / b).

(** [a // b] *)
Definition floordiv (a b : Q) : outcome Q :=
  if eqb b 0 then Raise ZeroDivisionError
  else Return (inject_Z (Qfloor (a / b))).

(** [int(q)]: truncation towards zero. *)
Definition int (q : Q) : Z := Z.quot (Qnum q) (Zpos (Qden q)).

(** [range(n)] *)
Definition range (n : Z) : list Z := map Z.of_nat (seq 0 (Z.to_nat n)).

(** [min(a, b)]: the first argument unless the second is smaller. *)
Definition min (a b : Q) : Q := if ltb b a then b else a.

(** [min(xs)] on a list: [ValueError] on the empty list, otherwise the
    first of the smallest elements. *)
Definition min_list (xs : list Q) : outcome Q :=
  match xs with
  | [] => Raise ValueError
  | x :: xs' => Return (fold_left (fun m y => if ltb y m then y else m) xs' x)
  end.

(** [xs.index(v)]: position of the first element equal to [v]. *)
Fixpoint index (xs : list Q) (v : Q) : outcome nat :=
  match xs with
  | [] => Raise ValueError
  | x :: xs' =>
      if eqb x v then Return O
      else bind (index xs' v) (fun i => Return (S i))
  end.

(** [xs[i]] for a non-negative [i]. *)
Definition getitem {A : Type} (xs : list A) (i : nat) : outcome A :=
  match nth_error xs i with
  | Some x => Return x
  | None => Raise IndexError
  end.

(** An operand of [<], [>], [>=] against a number: [None] is not
    orderable and the comparison raises [TypeError]. *)
Definition ordered (v : option Q) : outcome Q :=
  match v with
  | Some q => Return q
  | None => Raise TypeError
  end.

(** Reading a local variable that may not have been assigned yet. *)
Definition bound {A : Type} (v : option A) : outcome A :=
  match v with
  | Some a => Return a
  | None => Raise UnboundLocalError
  end.

End Py.

Import Py.

Declare Scope py_scope.
Delimit Scope py_scope with py.
Notation "x <- c ;; k" := (bind c (fun x => k))
  (at level 61, c at next level, right associativity) : py_scope.
Open Scope py_scope.

(** ** The game state, as the strategy sees it *)

(** A grid cell [[x, y]]. *)
Definition cell : Type := (Z * Z)%type.

Definition location_eqb (a b : cell) : bool :=
  (fst a =? fst b)%Z && (snd a =? snd b)%Z.

(** The unit shorthands read from the configuration in [on_game_start]. *)
Inductive unit_type : Type :=
| WALL | FACTORY | TURRET | SCOUT | DEMOLISHER | INTERCEPTOR.

(** The two resources, [SP = 0] and [MP = 1]. *)
Inductive resource : Type := SP | MP.

Inductive edge : Type := TOP_RIGHT | TOP_LEFT | BOTTOM_LEFT | BOTTOM_RIGHT.

(** The attributes of a [gamelib.GameUnit] that the strategy reads. *)
Record GameUnit : Type := {
  player_index : Z;
  health : Q;
  damage_f : Q;
  damage_i : Q;
  attackRange : Q;
  speed : Q
}.

(** The queries made on [game_state] and [game_state.game_map];
    [new_GameUnit gs t] is [gamelib.GameUnit(t, game_state.config)] and
    [game_map gs l] is [game_state.game_map[l]]. *)
Record GameState : Type := {
  new_GameUnit : unit_type -> GameUnit;
  find_path_to_edge : cell -> list cell;
  get_attackers : cell -> Z -> list GameUnit;
  get_locations_in_range : cell -> Q -> list cell;
  game_map : cell -> list GameUnit;
  get_edge_locations : edge -> list cell;
  contains_stationary_unit : cell -> bool;
  number_affordable : unit_type -> Z;
  type_cost : unit_type -> resource -> Q
}.

(** One call [game_state.attempt_spawn(unit, location, num)]. *)
Record spawn : Type := {
  spawn_unit : unit_type;
  spawn_location : cell;
  spawn_num : Z
}.

(** ** The strategy *)

(** The constants set in [on_game_start]. *)
Definition minGainPerSPSpent : Q := 10.
Definition weight_damage_enemy : Q := 1.
Definition weight_score : Q := 12.

Definition len {A : Type} (xs : list A) : Q := inject_Z (Z.of_nat (length xs)).

Definition total_target_health (game_state : GameState) (location : cell)
    (unit_range : Q) : Q :=
  let possible_locations := get_locations_in_range game_state location unit_range in
  fold_left (fun total_health location =>
    fold_left (fun total_health enemy_unit =>
      if (player_index enemy_unit =? 0)%Z then total_health
      else total_health + health enemy_unit)
      (game_map game_state location) total_health)
    possible_locations 0.

(** The local variables of [gain_of_attack] that its loops update. *)
Record squad : Type := {
  damage_dealt : Q;
  remaining_units : Q;
  total_heath : Q
}.

(** The body of the inner loop [for frame_index in range(...)]. *)
Definition frame (game_state : GameState) (unit_class : GameUnit)
    (turret_damage : Q) (path_location : cell) (num_turrets : Q)
    (frame_index : Z) (s : squad) : outcome (flow squad (option Q)) :=
  let unit_health := health unit_class in
  let total_damage := damage_f unit_class * remaining_units s in
  let damage_dealt' :=
    damage_dealt s
    + Py.min total_damage
        (total_target_health game_state path_location (attackRange unit_class)) in
  let total_heath' := total_heath s - num_turrets * turret_damage in
  q <- floordiv total_heath' unit_health ;;
  Return (Next {| damage_dealt := damage_dealt';
                  remaining_units := q + 1;
                  total_heath := total_heath' |}).

(** The body of the outer loop [for path_location in path], which ends in
    a [return]. *)
Definition path_step (game_state : GameState) (unit_class : GameUnit)
    (turret_damage : Q) (path_location : cell) (s : squad)
    : outcome (flow squad (option Q)) :=
  let num_turrets := len (get_attackers game_state path_location 0) in
  frames <- truediv 1 (speed unit_class) ;;
  r <- for_in (range (int frames))
         (frame game_state unit_class turret_damage path_location num_turrets) s ;;
  match r with
  | Next s' =>
      Return (Returned
        (Some (damage_dealt s' * weight_damage_enemy
               + remaining_units s' * weight_score)))
  | Returned v => Return (Returned v)
  end.

Definition gain_of_attack (game_state : GameState) (number_units : Z)
    (unit_type : unit_type) (location : cell) : outcome (option Q) :=
  let path := find_path_to_edge game_state location in
  let turret_damage := damage_i (new_GameUnit game_state TURRET) in
  let unit_class := new_GameUnit game_state unit_type in
  let unit_health := health unit_class in
  let s := {| damage_dealt := 0;
              remaining_units := inject_Z number_units;
              total_heath := unit_health * inject_Z number_units |} in
  r <- for_in path (path_step game_state unit_class turret_damage) s ;;
  match r with
  | Next _ => Return None
  | Returned v => Return v
  end.

Definition filter_blocked_locations (locations : list cell)
    (game_state : GameState) : list cell :=
  fold_left (fun filtered location =>
    if negb (contains_stationary_unit game_state location)
    then filtered ++ [location] else filtered)
    locations [].

(** The local variables of [attempt_to_attack] that its loop updates.
    [scout_deploy_location] and [demolisher_deploy_location] are first
    assigned inside the loop: [None] is the unassigned variable. *)
Record plan : Type := {
  scout_gain : Q;
  demolisher_gain : Q;
  interceptor_gains : Q * Q;
  interceptor_deploy_locations : cell * cell;
  scout_deploy_location : option cell;
  demolisher_deploy_location : option cell
}.

Definition initial_plan : plan :=
  {| scout_gain := - (999);
     demolisher_gain := - (999);
     interceptor_gains := (- (999), - (999));
     interceptor_deploy_locations := ((0, 0)%Z, (0, 0)%Z);
     scout_deploy_location := None;
     demolisher_deploy_location := None |}.

(** [xs[i]] on a two-element list, for [i = int(b)]. *)
Definition item {A : Type} (xs : A * A) (i : bool) : A :=
  if i then snd xs else fst xs.

Definition rank_scout (location : cell) (g : Q) (p : plan) : plan :=
  if ltb (scout_gain p) g then
    {| scout_gain := g;
       demolisher_gain := demolisher_gain p;
       interceptor_gains := interceptor_gains p;
       interceptor_deploy_locations := interceptor_deploy_locations p;
       scout_deploy_location := Some location;
       demolisher_deploy_location := demolisher_deploy_location p |}
  else p.

Definition rank_demolisher (location : cell) (g : Q) (p : plan) : plan :=
  if ltb (demolisher_gain p) g then
    {| scout_gain := scout_gain p;
       demolisher_gain := g;
       interceptor_gains := interceptor_gains p;
       interceptor_deploy_locations := interceptor_deploy_locations p;
       scout_deploy_location := scout_deploy_location p;
       demolisher_deploy_location := Some location |}
  else p.

(** The [if ... elif ...] on the interceptor gain, on the two lists it
    updates. *)
Definition rank_slots (location : cell) (g : Q)
    (t : (Q * Q) * (cell * cell)) : (Q * Q) * (cell * cell) :=
  let '(gains, locations) := t in
  if ltb (fst gains) g then
    ((g, fst gains), (location, fst locations))
  else if ltb (snd gains) g then
    ((fst gains, g), (fst locations, location))
  else t.

Definition rank_interceptor (location : cell) (g : Q) (p : plan) : plan :=
  let t := rank_slots location g
             (interceptor_gains p, interceptor_deploy_locations p) in
  {| scout_gain := scout_gain p;
     demolisher_gain := demolisher_gain p;
     interceptor_gains := fst t;
     interceptor_deploy_locations := snd t;
     scout_deploy_location := scout_deploy_location p;
     demolisher_deploy_location := demolisher_deploy_location p |}.

(** The body of [for location in deploy_locations]. *)
Definition consider (game_state : GameState)
    (max_scout_spawn max_demolisher_spawn max_interceptor_spawn : Z)
    (location : cell) (p : plan) : outcome (flow plan unit) :=
  gain_location_scout <-
    gain_of_attack game_state max_scout_spawn SCOUT location ;;
  gain_location_demolisher <-
    gain_of_attack game_state max_demolisher_spawn DEMOLISHER location ;;
  gain_location_interceptor <-
    gain_of_attack game_state max_interceptor_spawn INTERCEPTOR location ;;
  gs <- ordered gain_location_scout ;;
  let p := rank_scout location gs p in
  gd <- ordered gain_location_demolisher ;;
  let p := rank_demolisher location gd p in
  gi <- ordered gain_location_interceptor ;;
  Return (Next (rank_interceptor location gi p)).

(** The candidate cells and the loop over them. *)
Definition deploy_locations (game_state : GameState) : list cell :=
  let friendly_edges :=
    get_edge_locations game_state BOTTOM_LEFT
    ++ get_edge_locations game_state BOTTOM_RIGHT in
  filter_blocked_locations friendly_edges game_state.

Definition max_scout_spawn (game_state : GameState) : Z :=
  number_affordable game_state SCOUT.
Definition max_interceptor_spawn (game_state : GameState) : Z :=
  (number_affordable game_state INTERCEPTOR / 2)%Z.
Definition max_demolisher_spawn (game_state : GameState) : Z :=
  (number_affordable game_state DEMOLISHER / 2)%Z.

Definition ranking (game_state : GameState) (locations : list cell)
    (p : plan) : outcome (flow plan unit) :=
  for_in locations
    (consider game_state (max_scout_spawn game_state)
       (max_demolisher_spawn game_state) (max_interceptor_spawn game_state))
    p.

(** What [attempt_to_attack] knows when it reaches its final [if]. *)
Record scores : Type := {
  ranked : plan;
  opt1_gain : Q;
  location_index : bool;
  opt2_gain : Q
}.

Definition normalise (game_state : GameState) (p : plan) : outcome scores :=
  opt1_gain <-
    truediv (scout_gain p)
      (type_cost game_state SCOUT MP * inject_Z (max_scout_spawn game_state)) ;;
  demolisher_deploy_location <- bound (demolisher_deploy_location p) ;;
  let location_index :=
    location_eqb (fst (interceptor_deploy_locations p))
      demolisher_deploy_location in
  opt2_gain <-
    truediv (demolisher_gain p + item (interceptor_gains p) location_index)
      (type_cost game_state DEMOLISHER MP
         * inject_Z (max_demolisher_spawn game_state)
       + type_cost game_state INTERCEPTOR MP
         * inject_Z (max_interceptor_spawn game_state)) ;;
  Return {| ranked := p; opt1_gain := opt1_gain;
            location_index := location_index; opt2_gain := opt2_gain |}.

Definition spawn_scouts (game_state : GameState) (p : plan)
    : outcome (list spawn) :=
  scout_deploy_location <- bound (scout_deploy_location p) ;;
  Return [ {| spawn_unit := SCOUT; spawn_location := scout_deploy_location;
              spawn_num := max_scout_spawn game_state |} ].

Definition spawn_combo (game_state : GameState) (p : plan)
    (location_index : bool) : outcome (list spawn) :=
  demolisher_deploy_location <- bound (demolisher_deploy_location p) ;;
  Return [ {| spawn_unit := DEMOLISHER;
              spawn_location := demolisher_deploy_location;
              spawn_num := max_demolisher_spawn game_state |};
           {| spawn_unit := INTERCEPTOR;
              spawn_location :=
                item (interceptor_deploy_locations p) location_index;
              spawn_num := max_interceptor_spawn game_state |} ].

(** The final [if ... elif ... elif ...]. *)
Definition decide (game_state : GameState) (s : scores) : outcome (list spawn) :=
  if leb minGainPerSPSpent (opt1_gain s) && leb minGainPerSPSpent (opt2_gain s)
  then
    if leb (opt2_gain s) (opt1_gain s)
    then spawn_scouts game_state (ranked s)
    else spawn_combo game_state (ranked s) (location_index s)
  else if leb minGainPerSPSpent (opt1_gain s)
  then spawn_scouts game_state (ranked s)
  else if leb minGainPerSPSpent (opt2_gain s)
  then spawn_combo game_state (ranked s) (location_index s)
  else Return [].

(** [attempt_to_attack], returning the [attempt_spawn] calls it made, in
    order. *)
Definition attempt_to_attack (game_state : GameState) : outcome (list spawn) :=
  r <- ranking game_state (deploy_locations game_state) initial_plan ;;
  match r with
  | Returned _ => Return []
  | Next p =>
      s <- normalise game_state p ;;
      decide game_state s
  end.

(** The damage estimate of one candidate in
    [least_damage_spawn_location]. *)
Definition path_damage (game_state : GameState) (location : cell) : Q :=
  let path := find_path_to_edge game_state location in
  fold_left (fun damage path_location =>
    damage + len (get_attackers game_state path_location 0)
             * damage_i (new_GameUnit game_state TURRET))
    path 0.

Definition least_damage_spawn_location (game_state : GameState)
    (location_options : list cell) : outcome cell :=
  let damages :=
    fold_left (fun damages location =>
      damages ++ [path_damage game_state location]) location_options [] in
  m <- min_list damages ;;
  i <- index damages m ;;
  getitem location_options i.

(** ** The single-step description of the simulator

    The combat step as the design document words it, to be compared with
    [gain_of_attack]: on the first path cell only, [floor (1 / speed)]
    sub-frames, each adding the damage dealt (capped by the opposing health
    in range), subtracting the defenders' fire from the health pool and
    recomputing the surviving count. *)

(** The turret damage and the defender count [gain_of_attack] reads. *)
Definition turret_damage (game_state : GameState) : Q :=
  damage_i (new_GameUnit game_state TURRET).

Definition num_turrets (game_state : GameState) (path_location : cell) : Q :=
  len (get_attackers game_state path_location 0).

(** The fire a squad has taken after [k] sub-frames on [path_location]. *)
Definition incoming_damage (game_state : GameState) (path_location : cell)
    (k : nat) : Q :=
  inject_Z (Z.of_nat k)
  * (num_turrets game_state path_location * turret_damage game_state).

Fixpoint times {A : Type} (k : nat) (f : A -> A) (x : A) : A :=
  match k with
  | O => x
  | S k' => times k' f (f x)
  end.

(** The squad a simulation starts from. *)
Definition fresh_squad (unit_health : Q) (number_units : Z) : squad :=
  {| damage_dealt := 0;
     remaining_units := inject_Z number_units;
     total_heath := unit_health * inject_Z number_units |}.

Definition sub_frame (attackDamageMoving target_health defenders shot
    unit_health : Q) (s : squad) : squad :=
  let total_health := total_heath s - defenders * shot in
  {| damage_dealt :=
       damage_dealt s + Qmin (attackDamageMoving * remaining_units s) target_health;
     remaining_units := inject_Z (Qfloor (total_health / unit_health)) + 1;
     total_heath := total_health |}.

Definition sub_frames_per_cell (unit_speed : Q) : nat :=
  Z.to_nat (Qfloor (1 / unit_speed)).

(** The squad after [k] sub-frames on [first_cell]. *)
Definition squad_after (game_state : GameState) (number_units : Z)
    (unit_type : unit_type) (first_cell : cell) (k : nat) : squad :=
  let unit_class := new_GameUnit game_state unit_type in
  times k
    (sub_frame (damage_f unit_class)
       (total_target_health game_state first_cell (attackRange unit_class))
       (len (get_attackers game_state first_cell 0))
       (damage_i (new_GameUnit game_state TURRET))
       (health unit_class))
    (fresh_squad (health unit_class) number_units).

Definition first_cell_gain (game_state : GameState) (number_units : Z)
    (unit_type : unit_type) (first_cell : cell) : Q :=
  let s := squad_after game_state number_units unit_type first_cell
             (sub_frames_per_cell (speed (new_GameUnit game_state unit_type))) in
  damage_dealt s * weight_damage_enemy + remaining_units s * weight_score.

(** ** The ranking of the interceptor candidates

    A candidate cell with its interceptor gain; the two slots start from
    the placeholder [[0, 0]] with gain [-999]. *)
Definition entry : Type := (Q * cell)%type.

Definition placeholder : entry := (- (999), (0, 0)%Z).

(** [best] is the first entry of [es] that has the largest gain, and
    [others] is [es] without that occurrence, in the same order. *)
Definition first_best (es : list entry) (best : entry) (others : list entry)
    : Prop :=
  exists before after : list entry,
    es = before ++ best :: after
    /\ others = before ++ after
    /\ Forall (fun e => fst e < fst best) before
    /\ Forall (fun e => fst e <= fst best) after.

(** The two slots of a plan, as entries. *)
Definition slot (p : plan) (i : bool) : entry :=
  (item (interceptor_gains p) i, item (interceptor_deploy_locations p) i).

(** The two lists of a plan, and one round of the loop on them. *)
Definition slots_of (p : plan) : (Q * Q) * (cell * cell) :=
  (interceptor_gains p, interceptor_deploy_locations p).

Definition rank_entry (t : (Q * Q) * (cell * cell)) (e : entry)
    : (Q * Q) * (cell * cell) :=
  rank_slots (snd e) (fst e) t.

(** A plan whose scout location is still unassigned has the initial scout
    gain. *)
Definition scout_tracked (p : plan) : Prop :=
  scout_deploy_location p = None -> scout_gain p = - (999).

(** ** The path damage, cell by cell

    What one path cell contributes to the damage estimate, and the sum of
    a list of contributions. *)
Definition cell_damage (game_state : GameState) (path_location : cell) : Q :=
  num_turrets game_state path_location * turret_damage game_state.

Definition total (xs : list Q) : Q := fold_right Qplus 0 xs.

(** The game state [game_state] with another answer of the pathfinder. *)
Definition with_path (game_state : GameState) (path : cell -> list cell)
    : GameState :=
  {| new_GameUnit := new_GameUnit game_state;
     find_path_to_edge := path;
     get_attackers := get_attackers game_state;
     get_locations_in_range := get_locations_in_range game_state;
     game_map := game_map game_state;
     get_edge_locations := get_edge_locations game_state;
     contains_stationary_unit := contains_stationary_unit game_state;
     number_affordable := number_affordable game_state;
     type_cost := type_cost game_state |}.

(** ** Sample game states *)

Module Sample.

Definition unit (owner : Z) (h df di r sp : Q) : GameUnit :=
  {| player_index := owner; health := h; damage_f := df; damage_i := di;
     attackRange := r; speed := sp |}.

(** A unit table: scouts of health 15 moving one cell per frame,
    demolishers two and interceptors four frames per cell, turrets of
    5 damage per shot. *)
Definition units (t : unit_type) : GameUnit :=
  match t with
  | SCOUT => unit 0 15 2 2 (7 # 2) 1
  | DEMOLISHER => unit 0 5 8 8 (9 # 2) (1 # 2)
  | INTERCEPTOR => unit 0 40 0 20 (9 # 2) (1 # 4)
  | TURRET => unit 0 75 0 5 (5 # 2) 0
  | WALL => unit 0 60 0 0 0 0
  | FACTORY => unit 0 30 0 0 0 0
  end.

(** The same table with scouts crossing two cells per frame. *)
Definition fast_units (t : unit_type) : GameUnit :=
  match t with
  | SCOUT => unit 0 15 2 2 (7 # 2) 2
  | _ => units t
  end.

Definition costs (t : unit_type) (r : resource) : Q :=
  match t, r with
  | SCOUT, MP => 1
  | DEMOLISHER, MP => 3
  | INTERCEPTOR, MP => 1
  | WALL, SP => 1
  | FACTORY, SP => 4
  | TURRET, SP => 2
  | _, _ => 0
  end.

(** A board described by its unit table, the path from each cell, the
    number of turrets covering each cell, the opposing structures seen
    from each cell, the free cells of the bottom-left edge and the
    number of units of each type that can be paid for. *)
Definition board (table : unit_type -> GameUnit)
    (path : cell -> list cell) (turrets : cell -> nat)
    (targets : cell -> list GameUnit) (free_edge : list cell)
    (affordable : unit_type -> Z) : GameState :=
  {| new_GameUnit := table;
     find_path_to_edge := path;
     get_attackers := fun l _ => repeat (unit 1 75 0 5 (5 # 2) 0) (turrets l);
     get_locations_in_range := fun l _ => [l];
     game_map := targets;
     get_edge_locations :=
       fun e => match e with BOTTOM_LEFT => free_edge | _ => [] end;
     contains_stationary_unit := fun _ => false;
     number_affordable := affordable;
     type_cost := costs |}.

Definition straight (l : cell) : list cell :=
  [l; (fst l, snd l + 1)%Z; (fst l, snd l + 2)%Z].

(** Nothing opposing on the board, five of everything affordable. *)
Definition quiet : GameState :=
  board units straight (fun _ => O) (fun _ => [])
    [(13, 0)%Z; (12, 1)%Z] (fun _ => 5%Z).

(** Nothing affordable. *)
Definition penniless : GameState :=
  board units straight (fun _ => O) (fun _ => [])
    [(13, 0)%Z; (12, 1)%Z] (fun _ => 0%Z).

(** Every cell of the friendly edges is taken. *)
Definition walled_in : GameState :=
  board units straight (fun _ => O) (fun _ => []) [] (fun _ => 5%Z).

(** No route from [(13, 0)]. *)
Definition dead_end : GameState :=
  board units
    (fun l => if location_eqb l (13, 0)%Z then [] else straight l)
    (fun _ => O) (fun _ => []) [(12, 1)%Z; (13, 0)%Z] (fun _ => 5%Z).

(** Seven turrets cover every cell. *)
Definition gauntlet : GameState :=
  board units straight (fun _ => 7%nat) (fun _ => [])
    [(13, 0)%Z] (fun _ => 5%Z).

(** An opposing wall of health 60 in range of every cell. *)
Definition one_wall : GameState :=
  board units straight (fun _ => O) (fun _ => [unit 1 60 0 0 0 0])
    [(13, 0)%Z] (fun _ => 1%Z).

(** Scouts that cross two cells per frame on a quiet board. *)
Definition fast : GameState :=
  board fast_units straight (fun _ => O) (fun _ => [])
    [(13, 0)%Z] (fun _ => 0%Z).

(** Turrets cover the cells left of column 12 only. *)
Definition left_guarded : GameState :=
  board units (fun l => [l])
    (fun l => if (fst l <? 12)%Z then 2%nat else O) (fun _ => [])
    [(10, 3)%Z; (12, 1)%Z; (11, 2)%Z; (13, 0)%Z] (fun _ => 5%Z).

(** Two free cells, an opposing wall in range, twenty scouts or two
    demolishers or two interceptors affordable. *)
Definition wall_ahead : GameState :=
  board units straight (fun _ => O) (fun _ => [unit 1 60 0 0 0 0])
    [(13, 0)%Z; (12, 1)%Z]
    (fun t => match t with SCOUT => 20%Z | _ => 2%Z end).

(** The plan and the scores [attempt_to_attack] reaches on [quiet]. *)
Definition quiet_plan : plan :=
  Eval vm_compute in
    match ranking quiet (deploy_locations quiet) initial_plan with
    | Return (Next p) => p
    | _ => initial_plan
    end.

Definition quiet_scores : scores :=
  Eval vm_compute in
    match normalise quiet quiet_plan with
    | Return s => s
    | Raise _ => {| ranked := quiet_plan; opt1_gain := 0;
                    location_index := false; opt2_gain := 0 |}
    end.

(** The plan on [quiet] after the first candidate only. *)
Definition quiet_first : plan :=
  Eval vm_compute in
    match ranking quiet [(13, 0)%Z] initial_plan with
    | Return (Next p) => p
    | _ => initial_plan
    end.

(** One movement point on a quiet board: one scout or one interceptor
    can be paid for and no demolisher, so [max_scout_spawn] is 1 and the
    two halved counts of the combo are 0. *)
Definition one_mp : GameState :=
  board units straight (fun _ => O) (fun _ => [])
    [(13, 0)%Z; (12, 1)%Z]
    (fun t => match t with DEMOLISHER => 0%Z | _ => 1%Z end).

(** The plan [attempt_to_attack] reaches on [one_mp]. *)
Definition one_mp_plan : plan :=
  Eval vm_compute in
    match ranking one_mp (deploy_locations one_mp) initial_plan with
    | Return (Next p) => p
    | _ => initial_plan
    end.

End Sample.

(** * The rest of the strategy

    The routines around the attack planner: [detect_enemy_unit],
    [on_action_frame], [build_defences], [build_reactive_defense],
    [stall_with_interceptors], [demolisher_line_strategy] and
    [my_strategy].  They change the game state through
    [game_state.attempt_spawn] and [game_state.attempt_upgrade], read
    [game_state.turn_number], [game_state.get_resource] and the cost of a
    unit, iterate over [game_state.game_map] and draw random numbers; what
    [gamelib] and [random] do there is a field of the record [Engine] or
    a sequence of raw draws. *)

(** ** More of Python *)

(** [range(start, stop, step)] *)
Definition range3 (start stop step : Z) : outcome (list Z) :=
  if (step =? 0)%Z then Raise ValueError
  else
    let n := if (0 <? step)%Z then ((stop - start + step - 1) / step)%Z
             else ((start - stop - step - 1) / (- step))%Z in
    Return (map (fun i => (start + Z.of_nat i * step)%Z) (seq 0 (Z.to_nat n))).

(** [x in xs] on a list of integers. *)
Definition contains (x : Z) (xs : list Z) : bool := existsb (Z.eqb x) xs.

(** [random.randint(a, b)]: some integer of [a .. b], fixed here by the
    raw draw [draw]; an empty interval raises [ValueError]. *)
Definition randint (draw : nat) (a b : Z) : outcome Z :=
  if (b <? a)%Z then Raise ValueError
  else Return (a + Z.of_nat draw mod (b - a + 1))%Z.

(** [xs[i]] for an integer [i]; a negative [i] counts from the end. *)
Definition getitem_int {A : Type} (xs : list A) (i : Z) : outcome A :=
  let n := Z.of_nat (length xs) in
  if (i <? 0)%Z then
    if (i + n <? 0)%Z then Raise IndexError
    else getitem xs (Z.to_nat (i + n))
  else getitem xs (Z.to_nat i).

Definition unit_type_eqb (a b : unit_type) : bool :=
  match a, b with
  | WALL, WALL | FACTORY, FACTORY | TURRET, TURRET
  | SCOUT, SCOUT | DEMOLISHER, DEMOLISHER | INTERCEPTOR, INTERCEPTOR => true
  | _, _ => false
  end.

(** ** The engine *)

(** [map_cells gs] is the sequence [for location in game_state.game_map],
    [unit_type_of u] the attribute [u.unit_type],
    [unit_cost gs t r] is [gamelib.GameUnit(t, game_state.config).cost[r]],
    and [attempt_spawn], [attempt_upgrade] give the game state after the
    call. *)
Record Engine : Type := {
  map_cells : GameState -> list cell;
  unit_type_of : GameUnit -> unit_type;
  unit_cost : GameState -> unit_type -> resource -> Q;
  turn_number : GameState -> Z;
  get_resource : GameState -> resource -> Q;
  attempt_spawn : GameState -> unit_type -> list cell -> Z -> GameState;
  attempt_upgrade : GameState -> list cell -> GameState
}.

(** A call made on the game state: [attempt_spawn(unit, locations, num)],
    where [locations] is one location or a list of them and [num] is 1
    when left out, or [attempt_upgrade(locations)]. *)
Inductive call : Type :=
| Spawn (unit : unit_type) (locations : list cell) (num : Z)
| Upgrade (locations : list cell).

(** The game state in the course of a turn, with the calls made so far. *)
Record turn : Type := {
  board : GameState;
  calls : list call
}.

Definition spawn_call (E : Engine) (t : turn) (unit : unit_type)
    (locations : list cell) (num : Z) : turn :=
  {| board := attempt_spawn E (board t) unit locations num;
     calls := calls t ++ [Spawn unit locations num] |}.

Definition upgrade_call (E : Engine) (t : turn) (locations : list cell) : turn :=
  {| board := attempt_upgrade E (board t) locations;
     calls := calls t ++ [Upgrade locations] |}.

(** A computation that may raise or, on a loop, use up its fuel. *)
Inductive run (A : Type) : Type :=
| Finished (a : A)
| Raised (e : exn)
| Unfinished.
Arguments Finished {A} a.
Arguments Raised {A} e.
Arguments Unfinished {A}.

Definition lift {A : Type} (c : outcome A) : run A :=
  match c with
  | Return a => Finished a
  | Raise e => Raised e
  end.

(** ** The strategy object *)

(** [self.scored_on_locations] *)
Record AlgoStrategy : Type := {
  scored_on_locations : list cell
}.

(** A breach event [[location, damage, unit type, unit id, owner]] of an
    action frame: the entries [breach[0]] and [breach[4]]. *)
Record breach : Type := {
  breach_location : cell;
  breach_owner : Z
}.

(** [on_action_frame], on the list [state["events"]["breach"]] of the
    decoded frame. *)
Definition on_action_frame (self : AlgoStrategy) (breaches : list breach)
    : AlgoStrategy :=
  fold_left (fun self breach =>
    let location := breach_location breach in
    let unit_owner_self := (breach_owner breach =? 1)%Z in
    if negb unit_owner_self
    then {| scored_on_locations := scored_on_locations self ++ [location] |}
    else self)
    breaches self.

Definition detect_enemy_unit (E : Engine) (game_state : GameState)
    (unit_type : option unit_type) (valid_x valid_y : option (list Z)) : Z :=
  fold_left (fun total_units location =>
    if contains_stationary_unit game_state location then
      fold_left (fun total_units unit =>
        if (player_index unit =? 1)%Z
           && match unit_type with
              | None => true
              | Some t => unit_type_eqb (unit_type_of E unit) t
              end
           && match valid_x with
              | None => true
              | Some xs => contains (fst location) xs
              end
           && match valid_y with
              | None => true
              | Some ys => contains (snd location) ys
              end
        then (total_units + 1)%Z else total_units)
        (game_map game_state location) total_units
    else total_units)
    (map_cells E game_state) 0%Z.

Definition build_defences (E : Engine) (t : turn) : turn :=
  let turret_locations :=
    [(0, 13); (27, 13); (8, 11); (19, 11); (13, 11); (14, 11)]%Z in
  let t := spawn_call E t TURRET turret_locations 1 in
  let wall_locations := [(8, 12); (19, 12)]%Z in
  let t := spawn_call E t WALL wall_locations 1 in
  upgrade_call E t wall_locations.

Definition build_reactive_defense (E : Engine) (self : AlgoStrategy)
    (t : turn) : turn :=
  fold_left (fun t location =>
    let build_location := (fst location, (snd location + 1)%Z) in
    spawn_call E t TURRET [build_location] 1)
    (scored_on_locations self) t.

(** The [while] loop of [stall_with_interceptors]; [draws k] is the raw
    draw behind the [k]-th call of [random.randint]. *)
Fixpoint stall_loop (E : Engine) (deploy_locations : list cell)
    (draws : nat -> nat) (fuel k : nat) (t : turn) : run turn :=
  match fuel with
  | O => Unfinished
  | S fuel' =>
      if leb (type_cost (board t) INTERCEPTOR MP) (get_resource E (board t) MP)
         && (0 <? Z.of_nat (length deploy_locations))%Z
      then
        match randint (draws k) 0 (Z.of_nat (length deploy_locations) - 1) with
        | Raise e => Raised e
        | Return deploy_index =>
            match getitem_int deploy_locations deploy_index with
            | Raise e => Raised e
            | Return deploy_location =>
                stall_loop E deploy_locations draws fuel' (S k)
                  (spawn_call E t INTERCEPTOR [deploy_location] 1)
            end
        end
      else Finished t
  end.

Definition stall_with_interceptors (E : Engine) (draws : nat -> nat)
    (fuel : nat) (t : turn) : run turn :=
  let friendly_edges :=
    get_edge_locations (board t) BOTTOM_LEFT
    ++ get_edge_locations (board t) BOTTOM_RIGHT in
  let deploy_locations := filter_blocked_locations friendly_edges (board t) in
  stall_loop E deploy_locations draws fuel 0 t.

Definition stationary_units : list unit_type := [WALL; TURRET; FACTORY].

(** The unit [demolisher_line_strategy] builds its line of. *)
Definition cheapest_unit (E : Engine) (game_state : GameState)
    : outcome unit_type :=
  let unit_costs :=
    map (fun unit => unit_cost E game_state unit MP) stationary_units in
  m <- min_list unit_costs ;;
  i <- index unit_costs m ;;
  getitem stationary_units i.

Definition demolisher_line_strategy (E : Engine) (t : turn) : outcome turn :=
  cheapest_unit <- cheapest_unit E (board t) ;;
  xs <- range3 27 5 (-1) ;;
  let t := fold_left (fun t x => spawn_call E t cheapest_unit [(x, 11%Z)] 1)
             xs t in
  Return (spawn_call E t DEMOLISHER [(24, 10)%Z] 1000).

(** The calls of [attempt_to_attack], made on the game state. *)
Definition make_spawns (E : Engine) (t : turn) (spawns : list spawn) : turn :=
  fold_left (fun t s =>
    spawn_call E t (spawn_unit s) [spawn_location s] (spawn_num s))
    spawns t.

Definition my_strategy (E : Engine) (self : AlgoStrategy)
    (draws : nat -> nat) (fuel : nat) (t : turn) : run turn :=
  let t := build_defences E t in
  let t := build_reactive_defense E self t in
  let factory_locations := [(13, 2); (14, 2); (13, 3); (14, 3)]%Z in
  let t := spawn_call E t FACTORY factory_locations 1 in
  if (turn_number E (board t) <? 3)%Z then
    stall_with_interceptors E draws fuel t
  else if (10 <? detect_enemy_unit E (board t) None None (Some [14; 15]%Z))%Z
  then lift (demolisher_line_strategy E t)
  else
    match attempt_to_attack (board t) with
    | Return spawns => Finished (make_spawns E t spawns)
    | Raise e => Raised e
    end.

(** [game_state] with other answers of [get_attackers]. *)
Definition with_attackers (game_state : GameState)
    (attackers : cell -> Z -> list GameUnit) : GameState :=
  {| new_GameUnit := new_GameUnit game_state;
     find_path_to_edge := find_path_to_edge game_state;
     get_attackers := attackers;
     get_locations_in_range := get_locations_in_range game_state;
     game_map := game_map game_state;
     get_edge_locations := get_edge_locations game_state;
     contains_stationary_unit := contains_stationary_unit game_state;
     number_affordable := number_affordable game_state;
     type_cost := type_cost game_state |}.

(** The best gain of a plan and its location, for the scouts and for the
    demolishers; an unassigned location reads as the placeholder cell. *)
Definition rank_best (t : Q * option cell) (e : entry) : Q * option cell :=
  if ltb (fst t) (fst e) then (fst e, Some (snd e)) else t.

Definition scout_of (p : plan) : Q * option cell :=
  (scout_gain p, scout_deploy_location p).

Definition demolisher_of (p : plan) : Q * option cell :=
  (demolisher_gain p, demolisher_deploy_location p).

Definition best_entry (t : Q * option cell) : entry :=
  (fst t, match snd t with Some l => l | None => (0, 0)%Z end).

(** The units [total_target_health] adds up: every player index but 0. *)
Definition opposing (u : GameUnit) : bool := negb (player_index u =? 0)%Z.

(** The units [detect_enemy_unit] looks at, each with its cell: those of
    the cells of the map that hold a stationary unit. *)
Definition units_on_structures (E : Engine) (game_state : GameState)
    : list (cell * GameUnit) :=
  flat_map (fun location =>
    if contains_stationary_unit game_state location
    then map (pair location) (game_map game_state location)
    else [])
    (map_cells E game_state).

(** The test [detect_enemy_unit] makes on a unit and its cell. *)
Definition accepted (E : Engine) (unit_type : option unit_type)
    (valid_x valid_y : option (list Z)) (lu : cell * GameUnit) : bool :=
  (player_index (snd lu) =? 1)%Z
  && match unit_type with
     | None => true
     | Some t => unit_type_eqb (unit_type_of E (snd lu)) t
     end
  && match valid_x with
     | None => true
     | Some xs => contains (fst (fst lu)) xs
     end
  && match valid_y with
     | None => true
     | Some ys => contains (snd (fst lu)) ys
     end.

Definition count {A : Type} (f : A -> bool) (xs : list A) : Z :=
  Z.of_nat (length (filter f xs)).

Definition unit_types : list unit_type :=
  [WALL; FACTORY; TURRET; SCOUT; DEMOLISHER; INTERCEPTOR].

Definition sum_Z (xs : list Z) : Z := fold_right Z.add 0%Z xs.

(** The breaches [on_action_frame] records: every owner but 1. *)
Definition scored_on_us (b : breach) : bool := negb (breach_owner b =? 1)%Z.

(** The call [build_reactive_defense] makes for a recorded location. *)
Definition turret_above (location : cell) : call :=
  Spawn TURRET [(fst location, (snd location + 1)%Z)] 1.

(** ** Sample engines and boards *)

Module Scenario.

(** The game state after [k] more movement points are spent, the points
    left being counted in affordable units of cost 1. *)
Definition spend (game_state : GameState) (k : Z) : GameState :=
  {| new_GameUnit := new_GameUnit game_state;
     find_path_to_edge := find_path_to_edge game_state;
     get_attackers := get_attackers game_state;
     get_locations_in_range := get_locations_in_range game_state;
     game_map := game_map game_state;
     get_edge_locations := get_edge_locations game_state;
     contains_stationary_unit := contains_stationary_unit game_state;
     number_affordable := fun t => (number_affordable game_state t - k)%Z;
     type_cost := type_cost game_state |}.

(** The game state after structures are placed on [cells]. *)
Definition place (game_state : GameState) (cells : list cell) : GameState :=
  {| new_GameUnit := new_GameUnit game_state;
     find_path_to_edge := find_path_to_edge game_state;
     get_attackers := get_attackers game_state;
     get_locations_in_range := get_locations_in_range game_state;
     game_map := game_map game_state;
     get_edge_locations := get_edge_locations game_state;
     contains_stationary_unit :=
       fun l => existsb (location_eqb l) cells
                || contains_stationary_unit game_state l;
     number_affordable := number_affordable game_state;
     type_cost := type_cost game_state |}.

(** An engine for the boards of [Sample]: the movement points are the
    number of affordable scouts, a mobile unit is paid for on every cell
    it is spawned on, structures are placed and cost no movement point. *)
Definition engine (turn : Z) (cells : list cell) : Engine :=
  {| map_cells := fun _ => cells;
     unit_type_of :=
       fun u => if Qeq_bool (health u) 75 then TURRET
                else if Qeq_bool (health u) 30 then FACTORY else WALL;
     unit_cost := fun _ t r => Sample.costs t r;
     turn_number := fun _ => turn;
     get_resource :=
       fun game_state r =>
         match r with
         | MP => inject_Z (number_affordable game_state SCOUT)
         | SP => 40
         end;
     attempt_spawn :=
       fun game_state t ls n =>
         match t with
         | SCOUT | INTERCEPTOR =>
             spend game_state (n * Z.of_nat (length ls))
         | DEMOLISHER => spend game_state (3 * n * Z.of_nat (length ls))
         | _ => place game_state ls
         end;
     attempt_upgrade := fun game_state _ => game_state |}.

(** An engine that never charges a spawn. *)
Definition free_engine (turn : Z) (cells : list cell) : Engine :=
  {| map_cells := fun _ => cells;
     unit_type_of := unit_type_of (engine turn cells);
     unit_cost := unit_cost (engine turn cells);
     turn_number := fun _ => turn;
     get_resource := get_resource (engine turn cells);
     attempt_spawn := fun game_state _ _ _ => game_state;
     attempt_upgrade := fun game_state _ => game_state |}.

(** The engine of [engine], except that a spawn the movement points do
    not pay for does nothing. *)
Definition strict_engine (turn : Z) (cells : list cell) : Engine :=
  {| map_cells := fun _ => cells;
     unit_type_of := unit_type_of (engine turn cells);
     unit_cost := unit_cost (engine turn cells);
     turn_number := fun _ => turn;
     get_resource := get_resource (engine turn cells);
     attempt_spawn :=
       fun game_state t ls n =>
         let paid := attempt_spawn (engine turn cells) game_state t ls n in
         if (0 <=? number_affordable paid SCOUT)%Z then paid else game_state;
     attempt_upgrade := fun game_state _ => game_state |}.

Definition row (y : Z) (xs : list Z) : list cell := map (fun x => (x, y)) xs.

(** The cells of the two front rows of the opponent between columns 8
    and 13, a wall of the opponent on each, and one of its turrets behind
    at [(10, 16)]. *)
Definition front_cells : list cell :=
  row 14 [8; 9; 10; 11; 12; 13]%Z ++ row 15 [8; 9; 10; 11; 12; 13]%Z
  ++ [(10, 16)%Z].

Definition front_line : GameState :=
  {| new_GameUnit := Sample.units;
     find_path_to_edge := Sample.straight;
     get_attackers := fun _ _ => [];
     get_locations_in_range := fun l _ => [l];
     game_map :=
       fun l => if (snd l =? 16)%Z then [Sample.unit 1 75 0 5 (5 # 2) 0]
                else if (14 <=? snd l)%Z then [Sample.unit 1 60 0 0 0 0]
                else [];
     get_edge_locations :=
       fun e => match e with
                | BOTTOM_LEFT => [(13, 0)%Z; (12, 1)%Z]
                | _ => []
                end;
     contains_stationary_unit := fun l => (14 <=? snd l)%Z;
     number_affordable := fun _ => 5%Z;
     type_cost := Sample.costs |}.

Definition start (game_state : GameState) : turn :=
  {| board := game_state; calls := [] |}.

End Scenario.

(** The call [stall_with_interceptors] makes for a picked location. *)
Definition interceptor_on (location : cell) : call :=
  Spawn INTERCEPTOR [location] 1.

(** The turn after the three steps every call of [my_strategy] starts
    with: the basic defences, the reactive defence and the factories. *)
Definition prepared (E : Engine) (self : AlgoStrategy) (t : turn) : turn :=
  spawn_call E (build_reactive_defense E self (build_defences E t)) FACTORY
    [(13, 2); (14, 2); (13, 3); (14, 3)]%Z 1.

(** A spawn of [attempt_to_attack] as a call on the game state. *)
Definition call_of (s : spawn) : call :=
  Spawn (spawn_unit s) [spawn_location s] (spawn_num s).

(** The movement points spent on the scouts and on the combo: the two
    divisors of [attempt_to_attack]. *)
Definition scout_spend (game_state : GameState) : Q :=
  type_cost game_state SCOUT MP * inject_Z (max_scout_spawn game_state).

Definition combo_spend (game_state : GameState) : Q :=
  type_cost game_state DEMOLISHER MP
    * inject_Z (max_demolisher_spawn game_state)
  + type_cost game_state INTERCEPTOR MP
    * inject_Z (max_interceptor_spawn game_state).

(** The game state after one interceptor has been spawned on each cell of
    [picks] in turn: the states the loop of [stall_with_interceptors]
    goes through. *)
Definition after_interceptors (E : Engine) (game_state : GameState)
    (picks : list cell) : GameState :=
  fold_left (fun game_state l => attempt_spawn E game_state INTERCEPTOR [l] 1)
    picks game_state.

(** * Properties *)

(** ** Comparisons, division and loops *)

Lemma ltb_lt (a b : Q) : ltb a b = true <-> a < b.
Proof.
  unfold ltb. rewrite negb_true_iff.
  split; intro H.
  - apply Qnot_le_lt. intro Hle. apply Qle_bool_iff in Hle. congruence.
  - destruct (Qle_bool b a) eqn:E; [|reflexivity].
    apply Qle_bool_iff in E. exfalso. lra.
Qed.

Lemma ltb_ge (a b : Q) : ltb a b = false <-> b <= a.
Proof.
  unfold ltb. rewrite negb_false_iff. apply Qle_bool_iff.
Qed.

Lemma leb_le (a b : Q) : leb a b = true <-> a <= b.
Proof. apply Qle_bool_iff. Qed.

Lemma leb_gt (a b : Q) : leb a b = false <-> b < a.
Proof.
  unfold leb. split; intro H.
  - apply Qnot_le_lt. intro Hle. apply Qle_bool_iff in Hle. congruence.
  - destruct (Qle_bool a b) eqn:E; [|reflexivity].
    apply Qle_bool_iff in E. exfalso. lra.
Qed.

Lemma eqb_eq (a b : Q) : eqb a b = true <-> a == b.
Proof. apply Qeq_bool_iff. Qed.

Lemma eqb_neq (a b : Q) : eqb a b = false <-> ~ a == b.
Proof.
  split.
  - apply Qeq_bool_neq.
  - intro H. destruct (eqb a b) eqn:E; [|reflexivity].
    apply eqb_eq in E. contradiction.
Qed.

Lemma min_Qmin (a b : Q) : Py.min a b = Qmin a b.
Proof.
  unfold Py.min, Qmin, GenericMinMax.gmin.
  destruct (ltb b a) eqn:E.
  - apply ltb_lt in E.
    destruct (a ?= b) eqn:C; try reflexivity.
    + apply Qeq_alt in C. lra.
    + apply Qlt_alt in C. lra.
  - apply ltb_ge in E.
    destruct (a ?= b) eqn:C; try reflexivity.
    apply Qgt_alt in C. lra.
Qed.

Lemma length_range (n : Z) : length (range n) = Z.to_nat n.
Proof. unfold range. now rewrite length_map, length_seq. Qed.

(** [int] and the floor count the same number of loop rounds. *)
Lemma to_nat_int (q : Q) : Z.to_nat (int q) = Z.to_nat (Qfloor q).
Proof.
  destruct q as [n d]. unfold int. simpl.
  destruct (Z_le_gt_dec 0 n) as [Hn | Hn].
  - now rewrite Z.quot_div_nonneg by lia.
  - assert (H1 : (n / Z.pos d < 0)%Z)
      by (apply Z.div_lt_upper_bound; lia).
    assert (H2 : (n ÷ Z.pos d <= 0)%Z).
    { replace n with (- (- n))%Z by lia.
      rewrite Z.quot_opp_l by lia.
      assert (0 <= - n ÷ Z.pos d)%Z by (apply Z.quot_pos; lia).
      lia. }
    lia.
Qed.

Lemma times_succ_r {A : Type} (k : nat) (f : A -> A) (x : A) :
  times (S k) f x = f (times k f x).
Proof.
  revert x. induction k as [|k IH]; intro x.
  - reflexivity.
  - change (times (S (S k)) f x) with (times (S k) f (f x)).
    rewrite IH. reflexivity.
Qed.

(** ** The frame loop of [gain_of_attack] *)

Section FirstCell.

Variable game_state : GameState.
Variable unit_class : GameUnit.
Variable shot : Q.
Variable path_location : cell.

Let target_health : Q :=
  total_target_health game_state path_location (attackRange unit_class).
Let one_frame : squad -> squad :=
  sub_frame (damage_f unit_class) target_health
    (num_turrets game_state path_location) shot (health unit_class).

Lemma frame_sub_frame (frame_index : Z) (s : squad) :
  ~ health unit_class == 0 ->
  frame game_state unit_class shot path_location
    (num_turrets game_state path_location) frame_index s
  = Return (Next (one_frame s)).
Proof.
  intro Hh. unfold frame, floordiv.
  apply eqb_neq in Hh. rewrite Hh. simpl.
  unfold one_frame, sub_frame. rewrite min_Qmin. reflexivity.
Qed.

Lemma frames_times (indices : list Z) (s : squad) :
  ~ health unit_class == 0 ->
  for_in indices
    (frame game_state unit_class shot path_location
       (num_turrets game_state path_location)) s
  = Return (Next (times (length indices) one_frame s)).
Proof.
  intro Hh. revert s.
  induction indices as [|i indices IH]; intro s; simpl.
  - reflexivity.
  - rewrite frame_sub_frame by assumption. simpl. apply IH.
Qed.

(** The body of the loop over the path always leaves through its
    [return]. *)
Lemma path_step_returns (s : squad) (r : flow squad (option Q)) :
  path_step game_state unit_class shot path_location s = Return r ->
  exists v, r = Returned v.
Proof.
  unfold path_step.
  destruct (truediv 1 (speed unit_class)) as [d|e]; simpl; [|discriminate].
  destruct (for_in _ _ s) as [[s'|v]|e]; simpl; intro H; inversion H; eauto.
Qed.

Lemma path_step_gain (s : squad) :
  ~ speed unit_class == 0 ->
  ~ health unit_class == 0 ->
  path_step game_state unit_class shot path_location s
  = let s' := times (sub_frames_per_cell (speed unit_class)) one_frame s in
    Return (Returned
      (Some (damage_dealt s' * weight_damage_enemy
             + remaining_units s' * weight_score))).
Proof.
  intros Hs Hh. unfold path_step, truediv.
  apply eqb_neq in Hs. rewrite Hs. simpl.
  fold (num_turrets game_state path_location).
  rewrite frames_times by assumption. simpl.
  rewrite length_range, to_nat_int. reflexivity.
Qed.

End FirstCell.

Lemma gain_of_attack_no_path (game_state : GameState) (number_units : Z)
    (unit_type : unit_type) (location : cell) :
  find_path_to_edge game_state location = [] ->
  gain_of_attack game_state number_units unit_type location = Return None.
Proof.
  intro H. unfold gain_of_attack. rewrite H. reflexivity.
Qed.

Lemma gain_of_attack_head (game_state : GameState) (number_units : Z)
    (unit_type : unit_type) (location first_cell : cell) (rest : list cell) :
  find_path_to_edge game_state location = first_cell :: rest ->
  gain_of_attack game_state number_units unit_type location
  = bind (path_step game_state (new_GameUnit game_state unit_type)
            (damage_i (new_GameUnit game_state TURRET)) first_cell
            (fresh_squad (health (new_GameUnit game_state unit_type))
               number_units))
      (fun r => match r with
                | Next _ => Return None
                | Returned v => Return v
                end).
Proof.
  intro H. unfold gain_of_attack. rewrite H. simpl.
  fold (fresh_squad (health (new_GameUnit game_state unit_type)) number_units).
  destruct (path_step _ _ _ first_cell _) as [r|e] eqn:E; simpl.
  - destruct (path_step_returns _ _ _ _ _ _ E) as [v ->]. reflexivity.
  - reflexivity.
Qed.

Lemma gain_of_attack_first_cell (game_state : GameState) (number_units : Z)
    (unit_type : unit_type) (location first_cell : cell) (rest : list cell) :
  find_path_to_edge game_state location = first_cell :: rest ->
  ~ speed (new_GameUnit game_state unit_type) == 0 ->
  ~ health (new_GameUnit game_state unit_type) == 0 ->
  gain_of_attack game_state number_units unit_type location
  = Return (Some (first_cell_gain game_state number_units unit_type first_cell)).
Proof.
  intros Hp Hs Hh.
  rewrite (gain_of_attack_head _ _ _ _ _ _ Hp).
  rewrite path_step_gain by assumption. reflexivity.
Qed.

(** C6. On a non-empty path [gain_of_attack] looks at the first cell only:
    replacing the rest of the path leaves its result unchanged, and (for a
    unit whose speed and health are not zero, so that the divisions are
    defined) the result is the gain [first_cell_gain] of the single-step
    description: [floor (1 / speed)] sub-frames on the first cell, each
    adding [min (damage_f * remaining_units) target_health] to the damage
    dealt, subtracting defenders times turret damage from the health pool
    and resetting the surviving count to [floor (total_health / health) + 1],
    the value being
    [damage_dealt * weight_damage_enemy + remaining_units * weight_score]. *)
Theorem gain_of_attack_first_cell_only (game_state : GameState)
    (number_units : Z) (unit_type : unit_type) (location first_cell : cell)
    (rest : list cell) :
  find_path_to_edge game_state location = first_cell :: rest ->
  (forall rest' : list cell,
     gain_of_attack (with_path game_state (fun _ => first_cell :: rest'))
       number_units unit_type location
     = gain_of_attack game_state number_units unit_type location)
  /\ (~ speed (new_GameUnit game_state unit_type) == 0 ->
      ~ health (new_GameUnit game_state unit_type) == 0 ->
      gain_of_attack game_state number_units unit_type location
      = Return (Some (first_cell_gain game_state number_units unit_type
                        first_cell))).
Proof.
  intro Hp. split.
  - intro rest'.
    rewrite (gain_of_attack_head game_state _ _ _ _ _ Hp).
    rewrite (gain_of_attack_head (with_path game_state _) _ _ _
               first_cell rest' eq_refl).
    reflexivity.
  - intros Hs Hh. eapply gain_of_attack_first_cell; eassumption.
Qed.

Lemma gain_of_attack_first_cell_only_witness :
  (forall rest' : list cell,
     gain_of_attack
       (with_path Sample.gauntlet (fun _ => (13, 0)%Z :: rest')) 5 SCOUT
       (13, 0)%Z
     = gain_of_attack Sample.gauntlet 5 SCOUT (13, 0)%Z)
  /\ gain_of_attack Sample.gauntlet 5 SCOUT (13, 0)%Z
     = Return (Some (first_cell_gain Sample.gauntlet 5 SCOUT (13, 0)%Z)).
Proof.
  destruct (gain_of_attack_first_cell_only Sample.gauntlet 5 SCOUT
              (13, 0)%Z (13, 0)%Z [(13, 1)%Z; (13, 2)%Z] eq_refl)
    as [Hrest Hgain].
  split.
  - exact Hrest.
  - apply Hgain; simpl; lra.
Defined.

(** ** Arithmetic of the surviving count *)

Lemma Qfloor_of_Z (q : Q) (z : Z) : q == inject_Z z -> Qfloor q = z.
Proof. intro H. rewrite H. apply Qfloor_Z. Qed.

Lemma inject_Z_succ (k : nat) :
  inject_Z (Z.of_nat (S k)) == inject_Z (Z.of_nat k) + 1.
Proof.
  rewrite Nat2Z.inj_succ. unfold Z.succ. rewrite inject_Z_plus. reflexivity.
Qed.

(** [floor (t / h) + 1] is negative exactly when the pool [t] is below
    [- h]. *)
Lemma survivors_sign (t h : Q) :
  0 < h -> (0 <= inject_Z (Qfloor (t / h)) + 1 <-> - h <= t).
Proof.
  intro Hh. split; intro H.
  - assert (Hf := Qfloor_le (t / h)).
    assert (Hq : -1 <= t / h) by lra.
    assert (Ht : t == h * (t / h)) by (field; lra).
    rewrite Ht. 
    setoid_replace (- h) with (h * -1) by ring.
    apply Qmult_le_l; assumption.
  - assert (Hq : inject_Z (-1) <= t / h).
    { apply Qle_shift_div_l; [assumption|].
      change (inject_Z (-1)) with (-1). lra. }
    apply Qfloor_resp_le in Hq. rewrite Qfloor_Z in Hq.
    rewrite Zle_Qle in Hq. change (inject_Z (-1)) with (-1) in Hq. lra.
Qed.

(** The number of sub-frames, by the speed of the unit. *)
Lemma sub_frames_slow (v : Q) :
  0 < v -> v <= 1 -> (1 <= sub_frames_per_cell v)%nat.
Proof.
  intros H0 H1. unfold sub_frames_per_cell.
  assert (Hq : inject_Z 1 <= 1 / v).
  { apply Qle_shift_div_l; [assumption|]. change (inject_Z 1) with 1. lra. }
  apply Qfloor_resp_le in Hq. rewrite Qfloor_Z in Hq. lia.
Qed.

Lemma sub_frames_fast (v : Q) : 1 < v -> sub_frames_per_cell v = O.
Proof.
  intro H1. unfold sub_frames_per_cell.
  assert (Hq : 1 / v < inject_Z 1).
  { apply Qlt_shift_div_r; [lra|]. change (inject_Z 1) with 1. lra. }
  assert (Hf := Qfloor_le (1 / v)).
  assert (Hz : (Qfloor (1 / v) < 1)%Z).
  { rewrite Zlt_Qlt. eapply Qle_lt_trans; eassumption. }
  lia.
Qed.

Section Pool.

Variables attack target defenders shot unit_health : Q.

Let one_frame : squad -> squad :=
  sub_frame attack target defenders shot unit_health.

(** The health pool after [k] sub-frames is the current one: the start
    value less all the fire taken so far. *)
Lemma pool_after (k : nat) (s : squad) :
  total_heath (times k one_frame s)
  == total_heath s - inject_Z (Z.of_nat k) * (defenders * shot).
Proof.
  induction k as [|k IH].
  - simpl. ring.
  - rewrite times_succ_r. unfold one_frame at 1, sub_frame. simpl total_heath.
    rewrite IH, inject_Z_succ. ring.
Qed.

Lemma survivors_after (k : nat) (s : squad) :
  remaining_units (times (S k) one_frame s)
  = inject_Z (Qfloor (total_heath (times (S k) one_frame s) / unit_health))
    + 1.
Proof.
  rewrite times_succ_r. reflexivity.
Qed.

End Pool.

(** Nothing fires at the squad and it has nothing to fire at. *)
Lemma unopposed_frames (attack shot unit_health : Q) (number_units : Z)
    (k : nat) :
  0 < unit_health -> 0 <= attack -> (0 <= number_units)%Z ->
  let s := times k (sub_frame attack 0 0 shot unit_health)
             (fresh_squad unit_health number_units) in
  damage_dealt s == 0
  /\ total_heath s == unit_health * inject_Z number_units
  /\ remaining_units s
     == inject_Z (match k with O => number_units | S _ => number_units + 1 end).
Proof.
  intros Hh Ha Hn. cbv zeta.
  induction k as [|k (Hd & Ht & Hr)].
  - simpl. repeat split; reflexivity.
  - rewrite times_succ_r.
    set (s := times k _ _) in *.
    assert (Hpos : 0 <= remaining_units s).
    { rewrite Hr. rewrite <- (Zle_Qle 0). destruct k; lia. }
    assert (Ht' : total_heath s - 0 * shot
                  == unit_health * inject_Z number_units)
      by (rewrite Ht; ring).
    unfold sub_frame; cbn [damage_dealt total_heath remaining_units].
    repeat split.
    + rewrite Hd, Q.min_r; [ring|].
      apply Qmult_le_0_compat; assumption.
    + exact Ht'.
    + rewrite (Qfloor_of_Z _ number_units).
      * rewrite inject_Z_plus. reflexivity.
      * rewrite Ht'. field. lra.
Qed.

(** An empty squad under no fire: one survivor is counted after every
    sub-frame, and from the second sub-frame on it deals damage. *)
Lemma empty_squad_frames (attack target shot unit_health : Q) (k : nat) :
  0 < unit_health -> 0 <= target ->
  let s := times (S k) (sub_frame attack target 0 shot unit_health)
             (fresh_squad unit_health 0) in
  damage_dealt s == inject_Z (Z.of_nat k) * Qmin attack target
  /\ total_heath s == 0
  /\ remaining_units s == 1.
Proof.
  intros Hh HT. cbv zeta.
  induction k as [|k (Hd & Ht & Hr)].
  - cbn [times]. unfold sub_frame, fresh_squad.
    cbn [damage_dealt total_heath remaining_units]. repeat split.
    + rewrite Q.min_l; [ring|].
      setoid_replace (attack * inject_Z 0) with 0 by ring. assumption.
    + ring.
    + rewrite (Qfloor_of_Z _ 0); [reflexivity|].
      change (inject_Z 0) with 0. field. lra.
  - rewrite times_succ_r.
    set (s := times (S k) _ _) in *.
    unfold sub_frame; cbn [damage_dealt total_heath remaining_units].
    repeat split.
    + rewrite Hd, inject_Z_succ.
      setoid_replace (attack * remaining_units s) with attack
        by (rewrite Hr; ring).
      ring.
    + rewrite Ht. ring.
    + rewrite (Qfloor_of_Z _ 0); [reflexivity|].
      rewrite Ht. change (inject_Z 0) with 0. field. lra.
Qed.

(** ** The surviving count under fire *)

(** C5. The surviving count is recomputed from the current health pool,
    which after [k + 1] sub-frames is [health * number_units] less all the
    fire taken; nothing clamps it.  For a unit of positive health it is
    non-negative exactly as long as the fire taken does not exceed
    [(number_units + 1) * health], and negative beyond. *)
Theorem remaining_units_sign (game_state : GameState) (number_units : Z)
    (unit_type : unit_type) (path_location : cell) (k : nat) :
  0 < health (new_GameUnit game_state unit_type) ->
  exists s : squad,
    for_in (range (Z.of_nat (S k)))
      (frame game_state (new_GameUnit game_state unit_type)
         (turret_damage game_state) path_location
         (num_turrets game_state path_location))
      (fresh_squad (health (new_GameUnit game_state unit_type)) number_units)
    = Return (Next s)
    /\ total_heath s
       == health (new_GameUnit game_state unit_type) * inject_Z number_units
          - incoming_damage game_state path_location (S k)
    /\ remaining_units s
       = inject_Z
           (Qfloor (total_heath s / health (new_GameUnit game_state unit_type)))
         + 1
    /\ (0 <= remaining_units s
        <-> incoming_damage game_state path_location (S k)
            <= health (new_GameUnit game_state unit_type)
               * inject_Z (number_units + 1)).
Proof.
  intro Hh.
  set (h := health (new_GameUnit game_state unit_type)) in *.
  eexists. split.
  { unfold num_turrets. rewrite frames_times by (fold h; lra).
    rewrite length_range, Nat2Z.id. reflexivity. }
  fold h. fold (num_turrets game_state path_location).
  set (one := sub_frame _ _ _ _ _).
  assert (Hpool : total_heath (times (S k) one (fresh_squad h number_units))
                  == h * inject_Z number_units
                     - incoming_damage game_state path_location (S k)).
  { unfold one. rewrite pool_after. reflexivity. }
  split; [exact Hpool|].
  split; [apply survivors_after|].
  unfold one. rewrite survivors_after. fold one.
  rewrite survivors_sign by assumption.
  rewrite Hpool, inject_Z_plus.
  change (inject_Z 1) with 1.
  split; intro H; lra.
Qed.

Lemma remaining_units_sign_witness :
  0 < health (new_GameUnit Sample.gauntlet SCOUT)
  /\ exists s : squad,
       for_in (range (Z.of_nat 1))
         (frame Sample.gauntlet (new_GameUnit Sample.gauntlet SCOUT)
            (turret_damage Sample.gauntlet) (13, 0)%Z
            (num_turrets Sample.gauntlet (13, 0)%Z))
         (fresh_squad (health (new_GameUnit Sample.gauntlet SCOUT)) 1)
       = Return (Next s)
       /\ total_heath s
          == health (new_GameUnit Sample.gauntlet SCOUT) * inject_Z 1
             - incoming_damage Sample.gauntlet (13, 0)%Z 1
       /\ remaining_units s
          = inject_Z
              (Qfloor (total_heath s
                       / health (new_GameUnit Sample.gauntlet SCOUT)))
            + 1
       /\ (0 <= remaining_units s
           <-> incoming_damage Sample.gauntlet (13, 0)%Z 1
               <= health (new_GameUnit Sample.gauntlet SCOUT)
                  * inject_Z (1 + 1)).
Proof.
  split.
  - simpl. lra.
  - apply (remaining_units_sign Sample.gauntlet 1 SCOUT (13, 0)%Z 0).
    simpl. lra.
Defined.

(** Seven turrets of damage 5 on the first cell leave one scout of health
    15 with a pool of -20 and a surviving count of -1, which the returned
    gain carries. *)
Lemma remaining_units_negative :
  0 < health (new_GameUnit Sample.gauntlet SCOUT)
  /\ (exists s : squad,
        for_in (range (int 1))
          (frame Sample.gauntlet (new_GameUnit Sample.gauntlet SCOUT)
             (turret_damage Sample.gauntlet) (13, 0)%Z
             (num_turrets Sample.gauntlet (13, 0)%Z))
          (fresh_squad (health (new_GameUnit Sample.gauntlet SCOUT)) 1)
        = Return (Next s)
        /\ remaining_units s < 0)
  /\ gain_of_attack Sample.gauntlet 1 SCOUT (13, 0)%Z = Return (Some (- (12))).
Proof.
  split; [simpl; lra|]. split.
  - eexists. split; [vm_compute; reflexivity|]. vm_compute. reflexivity.
  - vm_compute. reflexivity.
Qed.

(** ** Gains on an undefended path *)

Lemma no_targets (game_state : GameState) (location : cell) (unit_range : Q) :
  (forall (l : cell) (u : GameUnit),
     In l (get_locations_in_range game_state location unit_range) ->
     In u (game_map game_state l) -> player_index u = 0%Z) ->
  total_target_health game_state location unit_range = 0.
Proof.
  unfold total_target_health.
  generalize (get_locations_in_range game_state location unit_range) as ls.
  generalize 0 as acc.
  intros acc ls. revert acc.
  induction ls as [|l ls IH]; intros acc H; simpl.
  - reflexivity.
  - assert (Hin : forall us a,
              (forall u, In u us -> player_index u = 0%Z) ->
              fold_left (fun total_health enemy_unit =>
                if (player_index enemy_unit =? 0)%Z then total_health
                else total_health + health enemy_unit) us a = a).
    { induction us as [|u us IHu]; intros a Hu; simpl.
      - reflexivity.
      - rewrite (Hu u (or_introl eq_refl)). simpl.
        apply IHu. intros u' Hu'. apply Hu. now right. }
    rewrite Hin.
    + apply IH. intros l' u Hl' Hu. apply (H l' u); [now right | assumption].
    + intros u Hu. apply (H l u); [now left | assumption].
Qed.

(** C1. On a non-empty path that no defender covers and that has no
    opposing unit in range, a squad of [number_units >= 1] units of positive
    health and speed and non-negative damage comes back with no damage
    dealt and a gain of [(number_units + 1) * weight_score] when the unit
    spends at least one sub-frame on a cell ([speed <= 1]): the surviving
    count is [floor (total_health / health) + 1 = number_units + 1].  The
    gain is [number_units * weight_score] only when no sub-frame is run
    ([speed > 1]). *)
Theorem gain_without_opposition (game_state : GameState) (number_units : Z)
    (unit_type : unit_type) (location : cell) :
  (1 <= number_units)%Z ->
  find_path_to_edge game_state location <> [] ->
  (forall c : cell,
     In c (find_path_to_edge game_state location) ->
     get_attackers game_state c 0 = []) ->
  (forall (c l : cell) (u : GameUnit),
     In c (find_path_to_edge game_state location) ->
     In l (get_locations_in_range game_state c
             (attackRange (new_GameUnit game_state unit_type))) ->
     In u (game_map game_state l) -> player_index u = 0%Z) ->
  0 < health (new_GameUnit game_state unit_type) ->
  0 <= damage_f (new_GameUnit game_state unit_type) ->
  0 < speed (new_GameUnit game_state unit_type) ->
  exists g : Q,
    gain_of_attack game_state number_units unit_type location = Return (Some g)
    /\ (speed (new_GameUnit game_state unit_type) <= 1 ->
        g == inject_Z (number_units + 1) * weight_score)
    /\ (1 < speed (new_GameUnit game_state unit_type) ->
        g == inject_Z number_units * weight_score).
Proof.
  intros Hn Hpath Hdef Hopp Hh Hd Hs.
  destruct (find_path_to_edge game_state location) as [|c rest] eqn:Ep;
    [contradiction|].
  eexists. split.
  { apply (gain_of_attack_first_cell _ _ _ _ c rest Ep); lra. }
  unfold first_cell_gain, squad_after.
  rewrite (Hdef c (or_introl eq_refl)).
  rewrite (no_targets game_state c _
             (fun l u => Hopp c l u (or_introl eq_refl))).
  change (len []) with 0.
  set (k := sub_frames_per_cell _).
  destruct (unopposed_frames (damage_f (new_GameUnit game_state unit_type))
              (damage_i (new_GameUnit game_state TURRET))
              (health (new_GameUnit game_state unit_type))
              number_units k Hh Hd ltac:(lia)) as (Hdd & _ & Hr).
  split; intro Hv.
  - assert (Hk := sub_frames_slow _ Hs Hv). fold k in Hk.
    destruct k as [|k']; [lia|].
    rewrite Hdd, Hr. unfold weight_damage_enemy. ring.
  - assert (Hk := sub_frames_fast _ Hv). fold k in Hk.
    rewrite Hk in *. rewrite Hdd, Hr. unfold weight_damage_enemy. ring.
Qed.

Lemma gain_without_opposition_witness :
  exists g : Q,
    gain_of_attack Sample.quiet 5 SCOUT (13, 0)%Z = Return (Some g)
    /\ (speed (new_GameUnit Sample.quiet SCOUT) <= 1 ->
        g == inject_Z (5 + 1) * weight_score)
    /\ (1 < speed (new_GameUnit Sample.quiet SCOUT) ->
        g == inject_Z 5 * weight_score).
Proof.
  apply (gain_without_opposition Sample.quiet 5 SCOUT (13, 0)%Z).
  - lia.
  - simpl. discriminate.
  - intros c _. reflexivity.
  - simpl. intros c l u _ _ Hu. destruct Hu.
  - simpl. lra.
  - simpl. lra.
  - simpl. lra.
Defined.

(** Five scouts of health 15 on a quiet board: the path is not empty, no
    cell of it is covered and nothing opposing is in range, yet the gain is
    [72 = (5 + 1) * 12], not [5 * 12]. *)
Lemma gain_without_opposition_not_start_count :
  (1 <= 5)%Z
  /\ find_path_to_edge Sample.quiet (13, 0)%Z <> []
  /\ (forall c : cell,
        In c (find_path_to_edge Sample.quiet (13, 0)%Z) ->
        get_attackers Sample.quiet c 0 = [])
  /\ (forall (c l : cell) (u : GameUnit),
        In c (find_path_to_edge Sample.quiet (13, 0)%Z) ->
        In l (get_locations_in_range Sample.quiet c
                (attackRange (new_GameUnit Sample.quiet SCOUT))) ->
        In u (game_map Sample.quiet l) -> player_index u = 0%Z)
  /\ gain_of_attack Sample.quiet 5 SCOUT (13, 0)%Z = Return (Some 72)
  /\ ~ 72 == inject_Z 5 * weight_score.
Proof.
  split; [lia|]. split; [simpl; discriminate|].
  split; [intros c _; reflexivity|].
  split; [simpl; intros c l u _ _ Hu; destruct Hu|].
  split; [vm_compute; reflexivity|].
  unfold weight_score. intro H. vm_compute in H. discriminate H.
Qed.

(** ** The gain of an empty squad *)

(** C10. With [number_units = 0], a non-empty path whose first cell no
    defender covers, a unit of positive health and opposing health
    [target >= 0] in range of that cell, one survivor is counted after
    every sub-frame, and that survivor deals damage from the second
    sub-frame on.  For a unit that spends [k >= 1] sub-frames on a cell
    ([0 < speed <= 1]) the gain is
    [weight_score + (k - 1) * min damage_f target]: exactly [weight_score]
    when [k = 1] or [min damage_f target] is zero.  For a unit with
    [speed > 1] no sub-frame is run and the gain is 0. *)
Theorem gain_of_empty_squad (game_state : GameState) (unit_type : unit_type)
    (location first_cell : cell) (rest : list cell) :
  find_path_to_edge game_state location = first_cell :: rest ->
  get_attackers game_state first_cell 0 = [] ->
  0 < health (new_GameUnit game_state unit_type) ->
  0 < speed (new_GameUnit game_state unit_type) ->
  0 <= total_target_health game_state first_cell
         (attackRange (new_GameUnit game_state unit_type)) ->
  exists g : Q,
    gain_of_attack game_state 0 unit_type location = Return (Some g)
    /\ (speed (new_GameUnit game_state unit_type) <= 1 ->
        g == weight_score
             + inject_Z
                 (Z.of_nat
                    (sub_frames_per_cell
                       (speed (new_GameUnit game_state unit_type))) - 1)
               * Qmin (damage_f (new_GameUnit game_state unit_type))
                   (total_target_health game_state first_cell
                      (attackRange (new_GameUnit game_state unit_type))))
    /\ (speed (new_GameUnit game_state unit_type) <= 1 ->
        sub_frames_per_cell (speed (new_GameUnit game_state unit_type)) = 1%nat
        \/ Qmin (damage_f (new_GameUnit game_state unit_type))
             (total_target_health game_state first_cell
                (attackRange (new_GameUnit game_state unit_type))) == 0 ->
        g == weight_score)
    /\ (1 < speed (new_GameUnit game_state unit_type) -> g == 0).
Proof.
  intros Ep Hdef Hh Hs HT.
  eexists. split.
  { apply (gain_of_attack_first_cell _ _ _ _ first_cell rest Ep); lra. }
  unfold first_cell_gain, squad_after.
  rewrite Hdef. change (len []) with 0.
  set (uc := new_GameUnit game_state unit_type) in *.
  set (T := total_target_health game_state first_cell (attackRange uc)) in *.
  set (k := sub_frames_per_cell (speed uc)).
  assert (Hslow : speed uc <= 1 ->
    damage_dealt
      (times k
         (sub_frame (damage_f uc) T 0
            (damage_i (new_GameUnit game_state TURRET)) (health uc))
         (fresh_squad (health uc) 0)) * weight_damage_enemy
    + remaining_units
        (times k
           (sub_frame (damage_f uc) T 0
              (damage_i (new_GameUnit game_state TURRET)) (health uc))
           (fresh_squad (health uc) 0)) * weight_score
    == weight_score + inject_Z (Z.of_nat k - 1) * Qmin (damage_f uc) T).
  { intro Hv.
    assert (Hk := sub_frames_slow _ Hs Hv). fold k in Hk.
    destruct k as [|k']; [lia|].
    destruct (empty_squad_frames (damage_f uc) T
                (damage_i (new_GameUnit game_state TURRET)) (health uc) k'
                Hh HT) as (Hdd & _ & Hr).
    rewrite Hdd, Hr.
    replace (Z.of_nat (S k') - 1)%Z with (Z.of_nat k') by lia.
    unfold weight_damage_enemy. ring. }
  split; [exact Hslow|]. split.
  - intros Hv [Hone | Hzero]; rewrite (Hslow Hv).
    + rewrite Hone. change (inject_Z (Z.of_nat 1 - 1)) with 0. ring.
    + rewrite Hzero. ring.
  - intro Hv. assert (Hk := sub_frames_fast _ Hv). fold k in Hk.
    rewrite Hk. simpl. unfold weight_damage_enemy. ring.
Qed.

Lemma gain_of_empty_squad_witness :
  exists g : Q,
    gain_of_attack Sample.one_wall 0 DEMOLISHER (13, 0)%Z = Return (Some g)
    /\ (speed (new_GameUnit Sample.one_wall DEMOLISHER) <= 1 ->
        g == weight_score
             + inject_Z
                 (Z.of_nat
                    (sub_frames_per_cell
                       (speed (new_GameUnit Sample.one_wall DEMOLISHER))) - 1)
               * Qmin (damage_f (new_GameUnit Sample.one_wall DEMOLISHER))
                   (total_target_health Sample.one_wall (13, 0)%Z
                      (attackRange (new_GameUnit Sample.one_wall DEMOLISHER))))
    /\ (speed (new_GameUnit Sample.one_wall DEMOLISHER) <= 1 ->
        sub_frames_per_cell (speed (new_GameUnit Sample.one_wall DEMOLISHER))
        = 1%nat
        \/ Qmin (damage_f (new_GameUnit Sample.one_wall DEMOLISHER))
             (total_target_health Sample.one_wall (13, 0)%Z
                (attackRange (new_GameUnit Sample.one_wall DEMOLISHER))) == 0 ->
        g == weight_score)
    /\ (1 < speed (new_GameUnit Sample.one_wall DEMOLISHER) -> g == 0).
Proof.
  apply (gain_of_empty_squad Sample.one_wall DEMOLISHER (13, 0)%Z (13, 0)%Z
           [(13, 1)%Z; (13, 2)%Z]).
  - reflexivity.
  - reflexivity.
  - simpl. lra.
  - simpl. lra.
  - vm_compute. discriminate.
Defined.

(** No demolisher sent from [(13, 0)], no defender on that cell, one
    opposing wall of health 60 in range: the two sub-frames of a demolisher
    give a gain of [8 + 12 = 20], not [weight_score = 12]. *)
Lemma gain_of_empty_squad_not_weight_score :
  find_path_to_edge Sample.one_wall (13, 0)%Z <> []
  /\ get_attackers Sample.one_wall (13, 0)%Z 0 = []
  /\ 0 < health (new_GameUnit Sample.one_wall DEMOLISHER)
  /\ gain_of_attack Sample.one_wall 0 DEMOLISHER (13, 0)%Z = Return (Some 20)
  /\ ~ 20 == weight_score.
Proof.
  split; [simpl; discriminate|].
  split; [reflexivity|].
  split; [simpl; lra|].
  split; [vm_compute; reflexivity|].
  unfold weight_score. lra.
Qed.

(** The same with a unit that crosses two cells per frame: no sub-frame is
    run and the gain of the empty squad is 0. *)
Example gain_of_empty_fast_squad :
  gain_of_attack Sample.fast 0 SCOUT (13, 0)%Z = Return (Some 0).
Proof. vm_compute. reflexivity. Qed.

(** ** Faults of [attempt_to_attack] *)

Lemma for_in_next {A S R : Type} (body : A -> S -> outcome (flow S R)) :
  (forall x s r, body x s = Return r -> exists s', r = Next s') ->
  forall xs s r, for_in xs body s = Return r -> exists s', r = Next s'.
Proof.
  intros Hbody xs.
  induction xs as [|x xs IH]; intros s r H; simpl in H.
  - inversion H. eauto.
  - destruct (body x s) as [r'|e] eqn:E; simpl in H; [|discriminate].
    destruct (Hbody _ _ _ E) as [s' ->]. eauto.
Qed.

Lemma for_in_raises {A S R : Type} (body : A -> S -> outcome (flow S R))
    (x : A) :
  (forall y s r, body y s = Return r -> exists s', r = Next s') ->
  (forall s, exists e, body x s = Raise e) ->
  forall xs s, In x xs -> exists e, for_in xs body s = Raise e.
Proof.
  intros Hbody Hx xs.
  induction xs as [|y xs IH]; intros s Hin; [destruct Hin|].
  simpl. destruct (body y s) as [r|e] eqn:E; simpl.
  - destruct (Hbody _ _ _ E) as [s' ->].
    destruct Hin as [-> | Hin].
    + destruct (Hx s) as [e He]. congruence.
    + apply IH. assumption.
  - eauto.
Qed.

Lemma consider_continues (game_state : GameState) (a b c : Z)
    (location : cell) (p : plan) (r : flow plan unit) :
  consider game_state a b c location p = Return r -> exists p', r = Next p'.
Proof.
  unfold consider.
  destruct (gain_of_attack game_state a SCOUT location) as [[g1|]|e1];
    simpl; try discriminate.
  all: destruct (gain_of_attack game_state b DEMOLISHER location)
         as [[g2|]|e2]; simpl; try discriminate.
  all: destruct (gain_of_attack game_state c INTERCEPTOR location)
         as [[g3|]|e3]; simpl; try discriminate.
  intro H. inversion H. eauto.
Qed.

Lemma ranking_continues (game_state : GameState) (locations : list cell)
    (p : plan) (r : flow plan unit) :
  ranking game_state locations p = Return r -> exists p', r = Next p'.
Proof.
  apply for_in_next. intros x s r'. apply consider_continues.
Qed.

Lemma attempt_to_attack_after_ranking (game_state : GameState) (p : plan) :
  ranking game_state (deploy_locations game_state) initial_plan
  = Return (Next p) ->
  attempt_to_attack game_state
  = bind (normalise game_state p) (decide game_state).
Proof.
  intro H. unfold attempt_to_attack. rewrite H. reflexivity.
Qed.

Lemma normalise_no_scouts (game_state : GameState) (p : plan) :
  max_scout_spawn game_state = 0%Z ->
  normalise game_state p = Raise ZeroDivisionError.
Proof.
  intro H. unfold normalise, truediv. rewrite H.
  assert (E : eqb (type_cost game_state SCOUT MP * inject_Z 0) 0 = true)
    by (apply eqb_eq; ring).
  rewrite E. reflexivity.
Qed.

(** C2. When nothing can be paid for (all three counts are zero),
    [attempt_to_attack] does not complete: whenever its loop over the deploy
    locations ends normally the division by
    [type_cost(SCOUT)[MP] * max_scout_spawn = 0] raises
    [ZeroDivisionError], and in every case the call ends in an exception. *)
Theorem attempt_to_attack_nothing_affordable (game_state : GameState) :
  max_scout_spawn game_state = 0%Z ->
  max_demolisher_spawn game_state = 0%Z ->
  max_interceptor_spawn game_state = 0%Z ->
  (exists e, attempt_to_attack game_state = Raise e)
  /\ (forall p : plan,
        ranking game_state (deploy_locations game_state) initial_plan
        = Return (Next p) ->
        attempt_to_attack game_state = Raise ZeroDivisionError).
Proof.
  intros Hs _ _.
  assert (Hp : forall p : plan,
            ranking game_state (deploy_locations game_state) initial_plan
            = Return (Next p) ->
            attempt_to_attack game_state = Raise ZeroDivisionError).
  { intros p Hr. rewrite (attempt_to_attack_after_ranking _ _ Hr).
    rewrite normalise_no_scouts by assumption. reflexivity. }
  split; [|exact Hp].
  destruct (ranking game_state (deploy_locations game_state) initial_plan)
    as [r|e] eqn:Er.
  - destruct (ranking_continues _ _ _ _ Er) as [p ->]. eauto.
  - unfold attempt_to_attack. rewrite Er. simpl. eauto.
Qed.

Lemma attempt_to_attack_nothing_affordable_witness :
  (exists e, attempt_to_attack Sample.penniless = Raise e)
  /\ (forall p : plan,
        ranking Sample.penniless (deploy_locations Sample.penniless)
          initial_plan
        = Return (Next p) ->
        attempt_to_attack Sample.penniless = Raise ZeroDivisionError).
Proof.
  apply (attempt_to_attack_nothing_affordable Sample.penniless);
    reflexivity.
Defined.

Example attempt_to_attack_penniless :
  attempt_to_attack Sample.penniless = Raise ZeroDivisionError.
Proof. vm_compute. reflexivity. Qed.

(** C3. With no free cell on the friendly edges the loop body never runs,
    [demolisher_deploy_location] is never assigned, and
    [attempt_to_attack] ends in an exception: [ZeroDivisionError] when the
    scout spend [type_cost(SCOUT)[MP] * max_scout_spawn] is zero,
    [UnboundLocalError] otherwise. *)
Theorem attempt_to_attack_no_candidates (game_state : GameState) :
  deploy_locations game_state = [] ->
  (type_cost game_state SCOUT MP * inject_Z (max_scout_spawn game_state) == 0 ->
   attempt_to_attack game_state = Raise ZeroDivisionError)
  /\ (~ type_cost game_state SCOUT MP
        * inject_Z (max_scout_spawn game_state) == 0 ->
      attempt_to_attack game_state = Raise UnboundLocalError).
Proof.
  intro H. unfold attempt_to_attack. rewrite H. simpl.
  unfold normalise, truediv. split; intro Hd.
  - apply eqb_eq in Hd. rewrite Hd. reflexivity.
  - apply eqb_neq in Hd. rewrite Hd. reflexivity.
Qed.

Lemma attempt_to_attack_no_candidates_witness :
  attempt_to_attack Sample.walled_in = Raise UnboundLocalError.
Proof.
  apply (attempt_to_attack_no_candidates Sample.walled_in).
  - reflexivity.
  - intro H. vm_compute in H. discriminate H.
Defined.

(** C4. For a deploy location with an empty path [gain_of_attack] runs no
    [return] statement and yields [None], whatever the squad; comparing
    that with the best gain so far raises [TypeError] in the loop body, and
    [attempt_to_attack] ends in an exception. *)
Theorem attempt_to_attack_no_path (game_state : GameState) (location : cell) :
  In location (deploy_locations game_state) ->
  find_path_to_edge game_state location = [] ->
  (forall (number_units : Z) (unit_type : unit_type),
     gain_of_attack game_state number_units unit_type location = Return None)
  /\ (forall (a b c : Z) (p : plan),
        consider game_state a b c location p = Raise TypeError)
  /\ (exists e, attempt_to_attack game_state = Raise e).
Proof.
  intros Hin Hp.
  assert (Hnone : forall n t,
            gain_of_attack game_state n t location = Return None)
    by (intros n t; apply gain_of_attack_no_path; assumption).
  assert (Hbody : forall a b c p,
            consider game_state a b c location p = Raise TypeError).
  { intros a b c p. unfold consider. rewrite !Hnone. reflexivity. }
  split; [exact Hnone|]. split; [exact Hbody|].
  destruct (for_in_raises
              (consider game_state (max_scout_spawn game_state)
                 (max_demolisher_spawn game_state)
                 (max_interceptor_spawn game_state))
              location
              (fun y s r => consider_continues _ _ _ _ y s r)
              (fun s => ex_intro _ TypeError (Hbody _ _ _ s))
              (deploy_locations game_state) initial_plan Hin) as [e He].
  exists e. unfold attempt_to_attack, ranking. rewrite He. reflexivity.
Qed.

Lemma attempt_to_attack_no_path_witness :
  (forall (number_units : Z) (unit_type : unit_type),
     gain_of_attack Sample.dead_end number_units unit_type (13, 0)%Z
     = Return None)
  /\ (forall (a b c : Z) (p : plan),
        consider Sample.dead_end a b c (13, 0)%Z p = Raise TypeError)
  /\ (exists e, attempt_to_attack Sample.dead_end = Raise e).
Proof.
  apply (attempt_to_attack_no_path Sample.dead_end (13, 0)%Z).
  - vm_compute. right. left. reflexivity.
  - reflexivity.
Defined.

Example attempt_to_attack_dead_end :
  attempt_to_attack Sample.dead_end = Raise TypeError.
Proof. vm_compute. reflexivity. Qed.

(** ** The loop over the deploy locations *)

Lemma for_in_preserves {A S R : Type} (body : A -> S -> outcome (flow S R))
    (P : S -> Prop) :
  (forall x s s', P s -> body x s = Return (Next s') -> P s') ->
  forall xs s s', P s -> for_in xs body s = Return (Next s') -> P s'.
Proof.
  intros Hbody xs.
  induction xs as [|x xs IH]; intros s s' Hs H; simpl in H.
  - inversion H. subst. assumption.
  - destruct (body x s) as [[s1|v]|e] eqn:E; simpl in H; try discriminate.
    eapply IH; [|eassumption]. eapply Hbody; eassumption.
Qed.

(** One round of the loop: three numeric gains, ranked in turn. *)
Lemma consider_ranks (game_state : GameState) (a b c : Z) (location : cell)
    (p p' : plan) :
  consider game_state a b c location p = Return (Next p') ->
  exists g1 g2 g3 : Q,
    gain_of_attack game_state a SCOUT location = Return (Some g1)
    /\ gain_of_attack game_state b DEMOLISHER location = Return (Some g2)
    /\ gain_of_attack game_state c INTERCEPTOR location = Return (Some g3)
    /\ p' = rank_interceptor location g3
              (rank_demolisher location g2 (rank_scout location g1 p)).
Proof.
  unfold consider.
  destruct (gain_of_attack game_state a SCOUT location) as [[g1|]|e1];
    simpl; try discriminate.
  all: destruct (gain_of_attack game_state b DEMOLISHER location)
         as [[g2|]|e2]; simpl; try discriminate.
  all: destruct (gain_of_attack game_state c INTERCEPTOR location)
         as [[g3|]|e3]; simpl; try discriminate.
  intro H. inversion H. exists g1, g2, g3. repeat split; reflexivity.
Qed.

Lemma ranking_scout_tracked (game_state : GameState) (locations : list cell)
    (p : plan) :
  ranking game_state locations initial_plan = Return (Next p) ->
  scout_tracked p.
Proof.
  apply (for_in_preserves _ scout_tracked).
  - intros location s s' Hs Hc.
    destruct (consider_ranks _ _ _ _ _ _ _ Hc) as (g1 & g2 & g3 & _ & _ & _ & ->).
    unfold scout_tracked, rank_interceptor, rank_demolisher, rank_scout in *.
    destruct (ltb (scout_gain s) g1); simpl.
    + destruct (ltb (demolisher_gain s) g2); simpl; discriminate.
    + destruct (ltb (demolisher_gain s) g2); simpl; assumption.
  - intros _. reflexivity.
Qed.

Lemma normalise_inv (game_state : GameState) (p : plan) (s : scores) :
  normalise game_state p = Return s ->
  exists dl : cell,
    demolisher_deploy_location p = Some dl
    /\ ranked s = p
    /\ location_index s
       = location_eqb (fst (interceptor_deploy_locations p)) dl
    /\ ~ type_cost game_state SCOUT MP
         * inject_Z (max_scout_spawn game_state) == 0
    /\ opt1_gain s
       = scout_gain p
         / (type_cost game_state SCOUT MP
            * inject_Z (max_scout_spawn game_state))
    /\ opt2_gain s
       = (demolisher_gain p + item (interceptor_gains p) (location_index s))
         / (type_cost game_state DEMOLISHER MP
              * inject_Z (max_demolisher_spawn game_state)
            + type_cost game_state INTERCEPTOR MP
              * inject_Z (max_interceptor_spawn game_state)).
Proof.
  unfold normalise, truediv.
  destruct (eqb (type_cost game_state SCOUT MP * _) 0) eqn:E1;
    simpl; [discriminate|].
  destruct (demolisher_deploy_location p) as [dl|]; simpl; [|discriminate].
  destruct (eqb (_ + _) 0) eqn:E2; simpl; [discriminate|].
  intro H. inversion H. simpl. exists dl.
  apply eqb_neq in E1. repeat split; try reflexivity. assumption.
Qed.

Lemma normalise_unaffordable (game_state : GameState) (p : plan) :
  scout_spend game_state == 0 \/ combo_spend game_state == 0 ->
  normalise game_state p
  = Raise (if eqb (scout_spend game_state) 0 then ZeroDivisionError
           else match demolisher_deploy_location p with
                | Some _ => ZeroDivisionError
                | None => UnboundLocalError
                end).
Proof.
  unfold normalise, truediv, scout_spend, combo_spend. intro H.
  destruct (eqb (type_cost game_state SCOUT MP * _) 0) eqn:E1;
    simpl; [reflexivity|].
  destruct H as [H | H]; [apply eqb_neq in E1; contradiction|].
  destruct (demolisher_deploy_location p) as [dl|]; simpl; [|reflexivity].
  apply eqb_eq in H. rewrite H. reflexivity.
Qed.

(** C7. The decision on the two scores is not reached when one of the two
    strategies cannot be paid for.  When the loop has ended and the scout
    spend [type_cost(SCOUT)[MP] * max_scout_spawn] or the combo spend
    [type_cost(DEMOLISHER)[MP] * max_demolisher_spawn
     + type_cost(INTERCEPTOR)[MP] * max_interceptor_spawn] is zero,
    [attempt_to_attack] commits nothing, whatever the score of the other
    strategy: the division by the zero spend raises [ZeroDivisionError]
    (line 149 for the scouts, line 151 for the combo), unless the scout
    spend is not zero and no demolisher location was assigned, where line
    150 raises [UnboundLocalError] first.  So with a scout score of at
    least [minGainPerSPSpent] and a combo that cannot be paid for, the
    scouts are not committed. *)
Theorem attack_decision_unaffordable (game_state : GameState) (p : plan) :
  ranking game_state (deploy_locations game_state) initial_plan
  = Return (Next p) ->
  scout_spend game_state == 0 \/ combo_spend game_state == 0 ->
  (forall spawns : list spawn, attempt_to_attack game_state <> Return spawns)
  /\ (scout_spend game_state == 0 \/ demolisher_deploy_location p <> None ->
      attempt_to_attack game_state = Raise ZeroDivisionError)
  /\ (~ scout_spend game_state == 0 ->
      demolisher_deploy_location p = None ->
      attempt_to_attack game_state = Raise UnboundLocalError).
Proof.
  intros Hr Hz.
  rewrite (attempt_to_attack_after_ranking _ _ Hr).
  rewrite (normalise_unaffordable _ _ Hz). simpl.
  split; [discriminate|]. split.
  - intros [H | H].
    + apply eqb_eq in H. rewrite H. reflexivity.
    + destruct (eqb (scout_spend game_state) 0); [reflexivity|].
      destruct (demolisher_deploy_location p); [reflexivity|].
      contradiction.
  - intros H1 H2. apply eqb_neq in H1. rewrite H1, H2. reflexivity.
Qed.

Lemma attack_decision_unaffordable_witness :
  minGainPerSPSpent
  <= scout_gain Sample.one_mp_plan / scout_spend Sample.one_mp
  /\ attempt_to_attack Sample.one_mp = Raise ZeroDivisionError.
Proof.
  split.
  - vm_compute. discriminate.
  - destruct (attack_decision_unaffordable Sample.one_mp Sample.one_mp_plan)
      as (_ & H & _).
    + vm_compute. reflexivity.
    + right. vm_compute. reflexivity.
    + apply H. right. discriminate.
Defined.

(** One movement point: the scouts score [24 / 1], the combo would spend
    [3 * 0 + 1 * 0]. *)
Example attempt_to_attack_one_mp :
  scout_gain Sample.one_mp_plan == 24
  /\ scout_spend Sample.one_mp == 1
  /\ combo_spend Sample.one_mp == 0
  /\ attempt_to_attack Sample.one_mp = Raise ZeroDivisionError.
Proof. repeat split. Qed.

(** On the quiet board the scouts score [72 / 5] and the combo [72 / 8]:
    one spawn of five scouts.  With a wall ahead and twenty scouts
    affordable the combo scores higher, and its interceptor goes to the
    second slot because the first is the demolisher's cell. *)
Example attempt_to_attack_quiet :
  attempt_to_attack Sample.quiet
  = Return [ {| spawn_unit := SCOUT; spawn_location := (13, 0)%Z;
                spawn_num := 5 |} ].
Proof. vm_compute. reflexivity. Qed.

Example attempt_to_attack_wall_ahead :
  attempt_to_attack Sample.wall_ahead
  = Return [ {| spawn_unit := DEMOLISHER; spawn_location := (13, 0)%Z;
                spawn_num := 1 |};
             {| spawn_unit := INTERCEPTOR; spawn_location := (12, 1)%Z;
                spawn_num := 1 |} ].
Proof. vm_compute. reflexivity. Qed.

(** ** The two interceptor slots *)

Lemma location_eqb_eq (a b : cell) : location_eqb a b = true <-> a = b.
Proof.
  destruct a as [ax ay], b as [bx b_y]. unfold location_eqb. simpl.
  rewrite andb_true_iff, !Z.eqb_eq.
  split; [intros [-> ->]; reflexivity | intro H; inversion H; auto].
Qed.

Lemma first_best_bound (es : list entry) (best : entry) (others : list entry) :
  first_best es best others ->
  Forall (fun e => fst e <= fst best) es
  /\ Forall (fun e => fst e <= fst best) others.
Proof.
  intros (before & after & -> & -> & Hb & Ha).
  assert (Hb' : Forall (fun e : entry => fst e <= fst best) before).
  { eapply Forall_impl; [|exact Hb]. intros e He. simpl in He. lra. }
  split.
  - apply Forall_app. split; [assumption|].
    constructor; [apply Qle_refl | assumption].
  - apply Forall_app. split; assumption.
Qed.

Lemma first_best_keep (es : list entry) (best : entry) (others : list entry)
    (x : entry) :
  first_best es best others -> fst x <= fst best ->
  first_best (es ++ [x]) best (others ++ [x]).
Proof.
  intros (before & after & -> & -> & Hb & Ha) Hx.
  exists before, (after ++ [x]). repeat split.
  - rewrite <- app_assoc. reflexivity.
  - rewrite <- app_assoc. reflexivity.
  - assumption.
  - apply Forall_app. split; [assumption|]. constructor; [assumption|constructor].
Qed.

Lemma first_best_new (es : list entry) (x : entry) :
  Forall (fun e => fst e < fst x) es -> first_best (es ++ [x]) x es.
Proof.
  intro H. exists es, []. repeat split.
  - now rewrite app_nil_r.
  - assumption.
  - constructor.
Qed.

Lemma Forall_below (es : list entry) (g g' : Q) :
  Forall (fun e => fst e <= g) es -> g < g' ->
  Forall (fun e => fst e < g') es.
Proof.
  intros H Hg. eapply Forall_impl; [|exact H].
  intros e He. simpl in He. lra.
Qed.

(** After any number of rounds the first slot holds the first of the best
    entries seen (the two placeholders included), and the second slot the
    first of the best among all the others. *)
Lemma top_two (cs : list entry) :
  exists others rest : list entry,
    first_best (placeholder :: placeholder :: cs)
      (fst (fst (fold_left rank_entry cs (slots_of initial_plan))),
       fst (snd (fold_left rank_entry cs (slots_of initial_plan))))
      others
    /\ first_best others
         (snd (fst (fold_left rank_entry cs (slots_of initial_plan))),
          snd (snd (fold_left rank_entry cs (slots_of initial_plan))))
         rest.
Proof.
  induction cs as [|[gx lx] cs (others & rest & H0 & H1)] using rev_ind.
  - exists [placeholder], []. split.
    + exists [], [placeholder]. repeat split; try constructor.
      * apply Qle_refl.
      * constructor.
    + exists [], []. repeat split; constructor.
  - rewrite fold_left_app. simpl fold_left.
    destruct (fold_left rank_entry cs (slots_of initial_plan))
      as [[g0 g1] [l0 l1]].
    simpl in H0, H1.
    destruct (first_best_bound _ _ _ H0) as [Hall0 _].
    destruct (first_best_bound _ _ _ H1) as [Hall1 _].
    simpl in Hall0, Hall1.
    unfold rank_entry, rank_slots. cbn [fst snd].
    destruct (ltb g0 gx) eqn:E0; [|destruct (ltb g1 gx) eqn:E1]; cbn [fst snd].
    + apply ltb_lt in E0.
      exists (placeholder :: placeholder :: cs), others. split.
      * apply (first_best_new (placeholder :: placeholder :: cs) (gx, lx)).
        eapply Forall_below; eassumption.
      * assumption.
    + apply ltb_ge in E0. apply ltb_lt in E1.
      exists (others ++ [(gx, lx)]), others. split.
      * apply (first_best_keep (placeholder :: placeholder :: cs));
          assumption.
      * apply first_best_new. eapply Forall_below; eassumption.
    + apply ltb_ge in E0. apply ltb_ge in E1.
      exists (others ++ [(gx, lx)]), (rest ++ [(gx, lx)]). split.
      * apply (first_best_keep (placeholder :: placeholder :: cs));
          assumption.
      * apply first_best_keep; assumption.
Qed.

(** Cells that are pairwise distinct and differ from the placeholder cell:
    the two slots hold the placeholders until a gain above [-999] is seen,
    and different cells from then on. *)
Lemma slots_distinct (cs : list entry) :
  NoDup (map snd cs) -> ~ In (0, 0)%Z (map snd cs) ->
  In (fst (snd (fold_left rank_entry cs (slots_of initial_plan))))
    ((0, 0)%Z :: map snd cs)
  /\ In (snd (snd (fold_left rank_entry cs (slots_of initial_plan))))
       ((0, 0)%Z :: map snd cs)
  /\ (((forall e, In e cs -> fst e <= - (999))
       /\ fold_left rank_entry cs (slots_of initial_plan)
          = slots_of initial_plan)
      \/ ((exists e, In e cs /\ - (999) < fst e)
          /\ fst (snd (fold_left rank_entry cs (slots_of initial_plan)))
             <> snd (snd (fold_left rank_entry cs (slots_of initial_plan))))).
Proof.
  induction cs as [|[gx lx] cs IH] using rev_ind; intros Hnd Hph.
  - simpl. repeat split; auto. left. split; [intros e []|reflexivity].
  - rewrite map_app in Hnd, Hph. simpl in Hnd, Hph.
    assert (Hnd' : NoDup (map snd cs)).
    { apply NoDup_remove_1 in Hnd. now rewrite app_nil_r in Hnd. }
    assert (Hlx : ~ In lx (map snd cs)).
    { apply NoDup_remove_2 in Hnd. now rewrite app_nil_r in Hnd. }
    assert (Hph' : ~ In (0, 0)%Z (map snd cs)).
    { intro H. apply Hph. apply in_or_app. now left. }
    assert (Hlx0 : lx <> (0, 0)%Z).
    { intro H. apply Hph. apply in_or_app. right. left. exact H. }
    destruct (IH Hnd' Hph') as (Hin0 & Hin1 & Hcase). clear IH.
    rewrite fold_left_app, map_app. simpl fold_left. simpl map.
    destruct (fold_left rank_entry cs (slots_of initial_plan))
      as [[g0 g1] [l0 l1]] eqn:Ef.
    cbn [fst snd] in *.
    assert (Hnew : forall l, In l ((0, 0)%Z :: map snd cs) -> lx <> l).
    { intros l [<- | Hl] Heq; [exact (Hlx0 Heq) | subst l; exact (Hlx Hl)]. }
    assert (Hgrow : forall l, In l ((0, 0)%Z :: map snd cs) ->
                      In l ((0, 0)%Z :: map snd cs ++ [lx])).
    { intros l [<- | Hl]; [now left | right; apply in_or_app; now left]. }
    assert (Hlast : In lx ((0, 0)%Z :: map snd cs ++ [lx])).
    { right. apply in_or_app. right. now left. }
    assert (Hsome : forall e, In e cs /\ - (999) < fst e ->
              exists e', In e' (cs ++ [(gx, lx)]) /\ - (999) < fst e').
    { intros e [He Hg]. exists e. split; [apply in_or_app; now left | exact Hg]. }
    unfold rank_entry, rank_slots. cbn [fst snd].
    destruct Hcase as [[Hlow Hinit] | [[e He] Hneq]].
    + inversion Hinit. subst g0 g1 l0 l1.
      destruct (ltb (- (999)) gx) eqn:E0; cbn [fst snd].
      * apply ltb_lt in E0. repeat split; auto. right. split.
        -- exists (gx, lx). split; [apply in_or_app; right; now left | exact E0].
        -- exact Hlx0.
      * repeat split; auto. left. split; [|reflexivity].
        intros e He. apply in_app_or in He. destruct He as [He | [<- | []]].
        -- auto.
        -- apply ltb_ge in E0. exact E0.
    + destruct (ltb g0 gx) eqn:E0; [|destruct (ltb g1 gx) eqn:E1];
        cbn [fst snd]; repeat split; auto; right; (split; [eauto|]).
      * apply Hnew. assumption.
      * intro H. symmetry in H. revert H. apply Hnew. assumption.
      * assumption.
Qed.

Lemma slots_of_rank_scout (location : cell) (g : Q) (p : plan) :
  slots_of (rank_scout location g p) = slots_of p.
Proof. unfold rank_scout. destruct (ltb (scout_gain p) g); reflexivity. Qed.

Lemma slots_of_rank_demolisher (location : cell) (g : Q) (p : plan) :
  slots_of (rank_demolisher location g p) = slots_of p.
Proof.
  unfold rank_demolisher. destruct (ltb (demolisher_gain p) g); reflexivity.
Qed.

Lemma slots_of_rank_interceptor (location : cell) (g : Q) (p : plan) :
  slots_of (rank_interceptor location g p)
  = rank_entry (slots_of p) (g, location).
Proof.
  unfold rank_interceptor, rank_entry, slots_of at 1. cbn [fst snd].
  fold (slots_of p).
  destruct (rank_slots location g (slots_of p)). reflexivity.
Qed.

Lemma slots_of_round (location : cell) (g1 g2 g3 : Q) (p : plan) :
  slots_of (rank_interceptor location g3
              (rank_demolisher location g2 (rank_scout location g1 p)))
  = rank_entry (slots_of p) (g3, location).
Proof.
  rewrite slots_of_rank_interceptor, slots_of_rank_demolisher,
    slots_of_rank_scout.
  reflexivity.
Qed.

(** The loop computes an interceptor gain for every candidate and folds
    them into the two slots. *)
Lemma ranking_slots (game_state : GameState) (locations : list cell) :
  forall p0 p : plan,
    ranking game_state locations p0 = Return (Next p) ->
    exists gains : list Q,
      Forall2
        (fun location g =>
           gain_of_attack game_state (max_interceptor_spawn game_state)
             INTERCEPTOR location = Return (Some g))
        locations gains
      /\ slots_of p
         = fold_left rank_entry (combine gains locations) (slots_of p0).
Proof.
  induction locations as [|l ls IH]; intros p0 p H.
  - inversion H. subst. exists []. split; [constructor | reflexivity].
  - unfold ranking in H. simpl in H.
    destruct (consider game_state _ _ _ l p0) as [[p1|u]|e] eqn:Ec;
      simpl in H; try discriminate.
    destruct (consider_ranks _ _ _ _ _ _ _ Ec) as (g1 & g2 & g3 & _ & _ & Hg & ->).
    destruct (IH _ _ H) as (gains & Hall & Hslots).
    exists (g3 :: gains). split; [constructor; assumption|].
    simpl. rewrite Hslots, slots_of_round. reflexivity.
Qed.

Lemma combine_gains (locations : list cell) (gains : list Q)
    (R : cell -> Q -> Prop) :
  Forall2 R locations gains ->
  map snd (combine gains locations) = locations
  /\ (forall g, In g gains -> exists l, In (g, l) (combine gains locations))
  /\ (forall e, In e (combine gains locations) -> In (fst e) gains).
Proof.
  induction 1 as [|l g ls gs Hlg Hall (IH1 & IH2 & IH3)]; simpl.
  - split; [reflexivity | split; [intros g' [] | intros e []]].
  - split; [|split].
    + now rewrite IH1.
    + intros g' [-> | Hg']; [eauto|].
      destruct (IH2 _ Hg') as [l' Hl']. eauto.
    + intros e [<- | He]; [now left | right; auto].
Qed.

(** C8. At any point of the loop over pairwise distinct deploy locations,
    none of them the placeholder cell [[0, 0]]: the first slot holds the
    first of the best-ranked entries seen so far and the second slot the
    first of the best-ranked among the others (a later candidate displaces
    an entry only by a strictly larger gain), the two placeholders of gain
    [-999] counting as the earliest entries.  The two slots hold different
    cells as soon as one candidate with a gain above [-999] has been seen;
    until then both hold the placeholder.  After the loop the combo takes
    its interceptor cell and gain from the first slot unless that cell is
    the demolisher's, and from the second slot if it is. *)
Theorem interceptor_slots (game_state : GameState) (seen rest : list cell)
    (p : plan) :
  deploy_locations game_state = seen ++ rest ->
  NoDup (deploy_locations game_state) ->
  ~ In (0, 0)%Z (deploy_locations game_state) ->
  ranking game_state seen initial_plan = Return (Next p) ->
  exists gains : list Q,
    Forall2
      (fun location g =>
         gain_of_attack game_state (max_interceptor_spawn game_state)
           INTERCEPTOR location = Return (Some g))
      seen gains
    /\ (exists others others' : list entry,
          first_best (placeholder :: placeholder :: combine gains seen)
            (slot p false) others
          /\ first_best others (slot p true) others')
    /\ ((exists g, In g gains /\ - (999) < g) ->
        fst (interceptor_deploy_locations p)
        <> snd (interceptor_deploy_locations p))
    /\ ((forall g, In g gains -> g <= - (999)) ->
        slots_of p = slots_of initial_plan)
    /\ (forall s : scores,
          normalise game_state p = Return s ->
          exists dl : cell,
            demolisher_deploy_location p = Some dl
            /\ (fst (interceptor_deploy_locations p) <> dl ->
                location_index s = false)
            /\ (fst (interceptor_deploy_locations p) = dl ->
                location_index s = true)
            /\ spawn_combo game_state p (location_index s)
               = Return
                   [ {| spawn_unit := DEMOLISHER; spawn_location := dl;
                        spawn_num := max_demolisher_spawn game_state |};
                     {| spawn_unit := INTERCEPTOR;
                        spawn_location := snd (slot p (location_index s));
                        spawn_num := max_interceptor_spawn game_state |} ]
            /\ opt2_gain s
               = (demolisher_gain p + fst (slot p (location_index s)))
                 / (type_cost game_state DEMOLISHER MP
                      * inject_Z (max_demolisher_spawn game_state)
                    + type_cost game_state INTERCEPTOR MP
                      * inject_Z (max_interceptor_spawn game_state))).
Proof.
  intros Hsplit Hnd Hph Hrun.
  destruct (ranking_slots _ _ _ _ Hrun) as (gains & Hall & Hslots).
  destruct (combine_gains _ _ _ Hall) as (Hcells & Hsome & Hfrom).
  assert (Hnd' : NoDup (map snd (combine gains seen))).
  { rewrite Hcells. rewrite Hsplit in Hnd.
    eapply NoDup_app_remove_r. exact Hnd. }
  assert (Hph' : ~ In (0, 0)%Z (map snd (combine gains seen))).
  { rewrite Hcells. intro H. apply Hph. rewrite Hsplit.
    apply in_or_app. now left. }
  destruct (slots_distinct _ Hnd' Hph') as (_ & _ & Hcase).
  rewrite <- Hslots in Hcase.
  exists gains. split; [exact Hall|]. split; [|split; [|split]].
  - destruct (top_two (combine gains seen)) as (others & others' & H0 & H1).
    rewrite <- Hslots in H0, H1. exists others, others'. split; assumption.
  - intros (g & Hg & Hlt).
    destruct Hcase as [[Hlow _] | [_ Hneq]]; [|exact Hneq].
    exfalso. destruct (Hsome _ Hg) as [l Hl].
    specialize (Hlow _ Hl). simpl in Hlow. lra.
  - intro Hlow.
    destruct Hcase as [[_ Hinit] | [(e & He & Hlt) _]]; [exact Hinit|].
    exfalso. specialize (Hlow _ (Hfrom _ He)). lra.
  - intros s Hn.
    destruct (normalise_inv _ _ _ Hn) as (dl & Hdl & _ & Hli & _ & _ & Ho2).
    exists dl. split; [exact Hdl|]. split; [|split; [|split]].
    + intro Hne. rewrite Hli.
      destruct (location_eqb _ dl) eqn:E; [|reflexivity].
      apply location_eqb_eq in E. contradiction.
    + intro He. rewrite Hli. apply location_eqb_eq. exact He.
    + unfold spawn_combo. rewrite Hdl. reflexivity.
    + exact Ho2.
Qed.

Lemma interceptor_slots_witness :
  exists gains : list Q,
    Forall2
      (fun location g =>
         gain_of_attack Sample.quiet (max_interceptor_spawn Sample.quiet)
           INTERCEPTOR location = Return (Some g))
      [(13, 0)%Z] gains
    /\ (exists others others' : list entry,
          first_best (placeholder :: placeholder :: combine gains [(13, 0)%Z])
            (slot Sample.quiet_first false) others
          /\ first_best others (slot Sample.quiet_first true) others')
    /\ ((exists g, In g gains /\ - (999) < g) ->
        fst (interceptor_deploy_locations Sample.quiet_first)
        <> snd (interceptor_deploy_locations Sample.quiet_first))
    /\ ((forall g, In g gains -> g <= - (999)) ->
        slots_of Sample.quiet_first = slots_of initial_plan)
    /\ (forall s : scores,
          normalise Sample.quiet Sample.quiet_first = Return s ->
          exists dl : cell,
            demolisher_deploy_location Sample.quiet_first = Some dl
            /\ (fst (interceptor_deploy_locations Sample.quiet_first) <> dl ->
                location_index s = false)
            /\ (fst (interceptor_deploy_locations Sample.quiet_first) = dl ->
                location_index s = true)
            /\ spawn_combo Sample.quiet Sample.quiet_first (location_index s)
               = Return
                   [ {| spawn_unit := DEMOLISHER; spawn_location := dl;
                        spawn_num := max_demolisher_spawn Sample.quiet |};
                     {| spawn_unit := INTERCEPTOR;
                        spawn_location :=
                          snd (slot Sample.quiet_first (location_index s));
                        spawn_num := max_interceptor_spawn Sample.quiet |} ]
            /\ opt2_gain s
               = (demolisher_gain Sample.quiet_first
                  + fst (slot Sample.quiet_first (location_index s)))
                 / (type_cost Sample.quiet DEMOLISHER MP
                      * inject_Z (max_demolisher_spawn Sample.quiet)
                    + type_cost Sample.quiet INTERCEPTOR MP
                      * inject_Z (max_interceptor_spawn Sample.quiet))).
Proof.
  apply (interceptor_slots Sample.quiet [(13, 0)%Z] [(12, 1)%Z]
           Sample.quiet_first).
  - reflexivity.
  - change (deploy_locations Sample.quiet) with [(13, 0)%Z; (12, 1)%Z].
    repeat constructor; simpl; intuition congruence.
  - change (deploy_locations Sample.quiet) with [(13, 0)%Z; (12, 1)%Z].
    simpl. intuition congruence.
  - vm_compute. reflexivity.
Defined.

(** With every cell of the friendly edges taken the loop ends at once and
    both slots still hold the placeholder cell; so do they when the loop
    is entered on the quiet board. *)
Lemma interceptor_slots_coincide :
  ranking Sample.walled_in (deploy_locations Sample.walled_in) initial_plan
  = Return (Next initial_plan)
  /\ ranking Sample.quiet [] initial_plan = Return (Next initial_plan)
  /\ fst (interceptor_deploy_locations initial_plan)
     = snd (interceptor_deploy_locations initial_plan).
Proof.
  repeat split.
Qed.

(** ** The safest spawn location *)

Lemma damages_map (game_state : GameState) (location_options : list cell)
    (damages : list Q) :
  fold_left (fun damages location =>
    damages ++ [path_damage game_state location]) location_options damages
  = damages ++ map (path_damage game_state) location_options.
Proof.
  revert damages.
  induction location_options as [|l ls IH]; intro damages; simpl.
  - now rewrite app_nil_r.
  - rewrite IH, <- app_assoc. reflexivity.
Qed.

Lemma path_damage_total (game_state : GameState) (location : cell) :
  path_damage game_state location
  == total (map (cell_damage game_state)
              (find_path_to_edge game_state location)).
Proof.
  unfold path_damage.
  assert (H : forall path acc,
            fold_left (fun damage path_location =>
              damage + len (get_attackers game_state path_location 0)
                       * damage_i (new_GameUnit game_state TURRET))
              path acc
            == acc + total (map (cell_damage game_state) path)).
  { induction path as [|c path IH]; intro acc; simpl.
    - ring.
    - rewrite IH. unfold cell_damage, num_turrets, turret_damage. ring. }
  rewrite H. ring.
Qed.

Lemma min_fold (ys : list Q) (m0 : Q) :
  In (fold_left (fun m y => if ltb y m then y else m) ys m0) (m0 :: ys)
  /\ fold_left (fun m y => if ltb y m then y else m) ys m0 <= m0
  /\ Forall (fun y => fold_left (fun m y => if ltb y m then y else m) ys m0 <= y)
       ys.
Proof.
  revert m0. induction ys as [|y ys IH]; intro m0; simpl.
  - repeat split; [now left | apply Qle_refl | constructor].
  - destruct (IH (if ltb y m0 then y else m0)) as (Hin & Hle & Hall).
    set (m := fold_left _ ys _) in *.
    destruct (ltb y m0) eqn:E.
    + apply ltb_lt in E. repeat split.
      * right. exact Hin.
      * lra.
      * constructor; assumption.
    + apply ltb_ge in E. repeat split.
      * destruct Hin as [<- | Hin]; [now left | right; now right].
      * exact Hle.
      * constructor; [lra | assumption].
Qed.

Lemma min_list_least (xs : list Q) :
  xs <> [] ->
  exists m : Q,
    min_list xs = Return m /\ In m xs /\ Forall (fun y => m <= y) xs.
Proof.
  destruct xs as [|x xs]; [congruence|]. intros _.
  destruct (min_fold xs x) as (Hin & Hle & Hall).
  eexists. split; [reflexivity|]. split; [exact Hin|].
  constructor; assumption.
Qed.

Lemma index_first (xs : list Q) (v : Q) :
  In v xs ->
  exists (i : nat) (y : Q),
    index xs v = Return i
    /\ nth_error xs i = Some y
    /\ y == v
    /\ (forall (j : nat) (z : Q),
          (j < i)%nat -> nth_error xs j = Some z -> ~ z == v).
Proof.
  induction xs as [|x xs IH]; intro Hin; [destruct Hin|].
  simpl. destruct (eqb x v) eqn:E.
  - exists O, x. apply eqb_eq in E. repeat split; try assumption.
    intros j z Hj. lia.
  - apply eqb_neq in E.
    destruct Hin as [-> | Hin]; [exfalso; apply E; reflexivity|].
    destruct (IH Hin) as (i & y & Hi & Hy & Hyv & Hbefore).
    exists (S i), y. rewrite Hi. simpl. repeat split; try assumption.
    intros [|j] z Hj Hz; simpl in Hz.
    + inversion Hz. subst. exact E.
    + apply (Hbefore j z); [lia | exact Hz].
Qed.

(** C9. On a non-empty list of candidates [least_damage_spawn_location]
    returns the first candidate whose path damage is the least: no candidate
    has a smaller damage and every earlier one has a strictly larger one.
    The path damage is the sum over the cells of the candidate's path of
    the number of attackers of the cell times the turret damage, 0 for an
    empty path. *)
Theorem least_damage_spawn_location_first_least (game_state : GameState)
    (location_options : list cell) :
  location_options <> [] ->
  exists (i : nat) (location : cell),
    least_damage_spawn_location game_state location_options = Return location
    /\ nth_error location_options i = Some location
    /\ (forall l : cell,
          In l location_options ->
          path_damage game_state location <= path_damage game_state l)
    /\ (forall (j : nat) (l : cell),
          (j < i)%nat -> nth_error location_options j = Some l ->
          path_damage game_state location < path_damage game_state l)
    /\ (forall l : cell,
          path_damage game_state l
          == total (map (fun path_location =>
                           len (get_attackers game_state path_location 0)
                           * damage_i (new_GameUnit game_state TURRET))
                      (find_path_to_edge game_state l)))
    /\ (forall l : cell,
          find_path_to_edge game_state l = [] -> path_damage game_state l = 0).
Proof.
  intro Hne. unfold least_damage_spawn_location.
  rewrite damages_map. simpl app.
  set (damages := map (path_damage game_state) location_options).
  assert (Hd : damages <> []).
  { unfold damages. destruct location_options; [congruence | discriminate]. }
  destruct (min_list_least damages Hd) as (m & Hmin & Hin & Hall).
  destruct (index_first damages m Hin) as (i & y & Hi & Hy & Hym & Hbefore).
  unfold damages in Hy. rewrite nth_error_map in Hy.
  destruct (nth_error location_options i) as [location|] eqn:El;
    [|discriminate].
  simpl in Hy. inversion Hy as [Hy']. clear Hy.
  exists i, location. rewrite Hmin. cbn [bind]. rewrite Hi. cbn [bind].
  unfold getitem. rewrite El.
  assert (Hloc : path_damage game_state location == m)
    by (rewrite Hy'; exact Hym).
  split; [reflexivity|]. split; [reflexivity|].
  assert (Hleast : forall l, In l location_options ->
                     m <= path_damage game_state l).
  { intros l Hl. rewrite Forall_forall in Hall. apply Hall.
    unfold damages. apply in_map. exact Hl. }
  split; [|split; [|split]].
  - intros l Hl. rewrite Hloc. apply Hleast. exact Hl.
  - intros j l Hj Hl. rewrite Hloc.
    assert (Hz : nth_error damages j = Some (path_damage game_state l)).
    { unfold damages. rewrite nth_error_map, Hl. reflexivity. }
    assert (Hneq := Hbefore _ _ Hj Hz).
    assert (Hle := Hleast l (nth_error_In _ _ Hl)).
    destruct (Qlt_le_dec m (path_damage game_state l)) as [Hlt | Hge];
      [exact Hlt|].
    exfalso. apply Hneq. apply Qle_antisym; assumption.
  - intro l. apply path_damage_total.
  - intros l Hl. unfold path_damage. rewrite Hl. reflexivity.
Qed.

Lemma least_damage_spawn_location_first_least_witness :
  exists (i : nat) (location : cell),
    least_damage_spawn_location Sample.left_guarded
      [(10, 3)%Z; (12, 1)%Z; (11, 2)%Z; (13, 0)%Z]
    = Return location
    /\ nth_error [(10, 3)%Z; (12, 1)%Z; (11, 2)%Z; (13, 0)%Z] i = Some location
    /\ (forall l : cell,
          In l [(10, 3)%Z; (12, 1)%Z; (11, 2)%Z; (13, 0)%Z] ->
          path_damage Sample.left_guarded location
          <= path_damage Sample.left_guarded l)
    /\ (forall (j : nat) (l : cell),
          (j < i)%nat ->
          nth_error [(10, 3)%Z; (12, 1)%Z; (11, 2)%Z; (13, 0)%Z] j = Some l ->
          path_damage Sample.left_guarded location
          < path_damage Sample.left_guarded l)
    /\ (forall l : cell,
          path_damage Sample.left_guarded l
          == total (map (fun path_location =>
                           len (get_attackers Sample.left_guarded
                                  path_location 0)
                           * damage_i (new_GameUnit Sample.left_guarded TURRET))
                      (find_path_to_edge Sample.left_guarded l)))
    /\ (forall l : cell,
          find_path_to_edge Sample.left_guarded l = [] ->
          path_damage Sample.left_guarded l = 0).
Proof.
  apply (least_damage_spawn_location_first_least Sample.left_guarded
           [(10, 3)%Z; (12, 1)%Z; (11, 2)%Z; (13, 0)%Z]).
  discriminate.
Defined.

(** Cells left of column 12 are under two turrets: of the four candidates
    the second and the fourth take no damage, and the second is returned.
    On no candidate at all [min] raises. *)
Example least_damage_left_guarded :
  least_damage_spawn_location Sample.left_guarded
    [(10, 3)%Z; (12, 1)%Z; (11, 2)%Z; (13, 0)%Z]
  = Return (12, 1)%Z.
Proof. vm_compute. reflexivity. Qed.

Example least_damage_no_candidate :
  least_damage_spawn_location Sample.left_guarded [] = Raise ValueError.
Proof. reflexivity. Qed.

(** * Properties of the rest of the strategy *)

(** ** The free cells of the friendly edges *)

Lemma filter_blocked_locations_acc (game_state : GameState)
    (locations filtered : list cell) :
  fold_left (fun filtered location =>
    if negb (contains_stationary_unit game_state location)
    then filtered ++ [location] else filtered)
    locations filtered
  = filtered
    ++ filter (fun l => negb (contains_stationary_unit game_state l)) locations.
Proof.
  revert filtered.
  induction locations as [|l ls IH]; intro filtered; simpl.
  - now rewrite app_nil_r.
  - rewrite IH.
    destruct (negb (contains_stationary_unit game_state l)); simpl.
    + now rewrite <- app_assoc.
    + reflexivity.
Qed.

Lemma filter_blocked_locations_filter (game_state : GameState)
    (locations : list cell) :
  filter_blocked_locations locations game_state
  = filter (fun l => negb (contains_stationary_unit game_state l)) locations.
Proof.
  unfold filter_blocked_locations.
  now rewrite filter_blocked_locations_acc.
Qed.

(** X1. [filter_blocked_locations] keeps exactly the locations without a
    stationary unit, in their order and with their repetitions: a cell is
    in the result if and only if it is in the input and not blocked, a
    list without repetition stays so, the result of a concatenation is the
    concatenation of the results, and filtering twice changes nothing. *)
Theorem filter_blocked_locations_unblocked (game_state : GameState)
    (locations more : list cell) :
  (forall l : cell,
     In l (filter_blocked_locations locations game_state)
     <-> In l locations /\ contains_stationary_unit game_state l = false)
  /\ (NoDup locations ->
      NoDup (filter_blocked_locations locations game_state))
  /\ (length (filter_blocked_locations locations game_state)
      <= length locations)%nat
  /\ filter_blocked_locations (locations ++ more) game_state
     = filter_blocked_locations locations game_state
       ++ filter_blocked_locations more game_state
  /\ filter_blocked_locations
       (filter_blocked_locations locations game_state) game_state
     = filter_blocked_locations locations game_state.
Proof.
  rewrite !filter_blocked_locations_filter.
  split; [|split; [|split; [|split]]].
  - intro l. rewrite filter_In, negb_true_iff. reflexivity.
  - apply NoDup_filter.
  - apply filter_length_le.
  - apply filter_app.
  - induction locations as [|l ls IH]; simpl; [reflexivity|].
    destruct (negb (contains_stationary_unit game_state l)) eqn:E; simpl.
    + rewrite E, IH. reflexivity.
    + exact IH.
Qed.

Lemma filter_blocked_locations_unblocked_witness :
  NoDup (filter_blocked_locations [(13, 0)%Z; (12, 1)%Z] Sample.quiet).
Proof.
  apply (filter_blocked_locations_unblocked Sample.quiet
           [(13, 0)%Z; (12, 1)%Z] []).
  repeat constructor; simpl; intuition congruence.
Defined.

(** X2. The candidates of [attempt_to_attack] are the cells of the
    bottom-left and bottom-right edges that hold no stationary unit, the
    bottom-left ones first; when the two edges list each cell once and
    share none, no candidate is repeated. *)
Theorem deploy_locations_free_edge_cells (game_state : GameState) :
  deploy_locations game_state
  = filter (fun l => negb (contains_stationary_unit game_state l))
      (get_edge_locations game_state BOTTOM_LEFT)
    ++ filter (fun l => negb (contains_stationary_unit game_state l))
         (get_edge_locations game_state BOTTOM_RIGHT)
  /\ (forall l : cell,
        In l (deploy_locations game_state)
        <-> (In l (get_edge_locations game_state BOTTOM_LEFT)
             \/ In l (get_edge_locations game_state BOTTOM_RIGHT))
            /\ contains_stationary_unit game_state l = false)
  /\ (NoDup (get_edge_locations game_state BOTTOM_LEFT) ->
      NoDup (get_edge_locations game_state BOTTOM_RIGHT) ->
      (forall l : cell,
         In l (get_edge_locations game_state BOTTOM_LEFT) ->
         ~ In l (get_edge_locations game_state BOTTOM_RIGHT)) ->
      NoDup (deploy_locations game_state)).
Proof.
  unfold deploy_locations. rewrite filter_blocked_locations_filter.
  split; [apply filter_app|]. split.
  - intro l. rewrite filter_In, in_app_iff, negb_true_iff. reflexivity.
  - intros Hl Hr Hdis. apply NoDup_filter.
    induction (get_edge_locations game_state BOTTOM_LEFT) as [|l ls IH];
      simpl; [assumption|].
    inversion Hl as [|l' ls' Hnotin Hnd]. subst.
    constructor.
    + rewrite in_app_iff. intros [H | H]; [contradiction|].
      apply (Hdis l); [now left | assumption].
    + apply IH; [assumption|]. intros l' Hl'. apply Hdis. now right.
Qed.

Lemma deploy_locations_free_edge_cells_witness :
  NoDup (deploy_locations Sample.quiet).
Proof.
  apply (deploy_locations_free_edge_cells Sample.quiet).
  - simpl. repeat constructor; simpl; intuition congruence.
  - simpl. constructor.
  - simpl. intros l _ [].
Defined.

(** ** The opposing health in range *)

Lemma total_app (xs ys : list Q) : total (xs ++ ys) == total xs + total ys.
Proof.
  induction xs as [|x xs IH]; simpl.
  - ring.
  - rewrite IH. ring.
Qed.

Lemma target_health_cell (units : list GameUnit) (acc : Q) :
  fold_left (fun total_health enemy_unit =>
    if (player_index enemy_unit =? 0)%Z then total_health
    else total_health + health enemy_unit) units acc
  == acc + total (map health (filter opposing units)).
Proof.
  revert acc. induction units as [|u us IH]; intro acc; simpl.
  - ring.
  - rewrite IH. unfold opposing at 2.
    destruct (player_index u =? 0)%Z; simpl; ring.
Qed.

Lemma target_health_cells (game_state : GameState) (cells : list cell)
    (acc : Q) :
  fold_left (fun total_health location =>
    fold_left (fun total_health enemy_unit =>
      if (player_index enemy_unit =? 0)%Z then total_health
      else total_health + health enemy_unit)
      (game_map game_state location) total_health)
    cells acc
  == acc
     + total (map health
                (filter opposing (flat_map (game_map game_state) cells))).
Proof.
  revert acc. induction cells as [|c cs IH]; intro acc; simpl.
  - ring.
  - rewrite IH, target_health_cell, filter_app, map_app, total_app. ring.
Qed.

Lemma total_nonneg (xs : list Q) :
  Forall (fun x => 0 <= x) xs -> 0 <= total xs.
Proof.
  induction 1 as [|x xs Hx Hxs IH]; simpl; lra.
Qed.

(** X3. [total_target_health] is the sum of the health of the units whose
    player index is not 0, over the cells that [get_locations_in_range]
    returns, a cell counting once for every time it is returned; units of
    player 0 add nothing.  When no such unit has a negative health the sum
    is not negative, and it is at least the health of any one of them. *)
Theorem total_target_health_sum (game_state : GameState) (location : cell)
    (unit_range : Q) :
  total_target_health game_state location unit_range
  == total (map health
              (filter opposing
                 (flat_map (game_map game_state)
                    (get_locations_in_range game_state location unit_range))))
  /\ ((forall (l : cell) (u : GameUnit),
         In l (get_locations_in_range game_state location unit_range) ->
         In u (game_map game_state l) -> player_index u <> 0%Z ->
         0 <= health u) ->
      0 <= total_target_health game_state location unit_range
      /\ (forall (l : cell) (u : GameUnit),
            In l (get_locations_in_range game_state location unit_range) ->
            In u (game_map game_state l) -> player_index u <> 0%Z ->
            health u <= total_target_health game_state location unit_range)).
Proof.
  assert (Hsum : total_target_health game_state location unit_range
                 == total (map health
                             (filter opposing
                                (flat_map (game_map game_state)
                                   (get_locations_in_range game_state
                                      location unit_range))))).
  { unfold total_target_health. rewrite target_health_cells. ring. }
  split; [exact Hsum|].
  intro Hpos.
  set (us := filter opposing
               (flat_map (game_map game_state)
                  (get_locations_in_range game_state location unit_range)))
    in Hsum.
  assert (Hall : Forall (fun x => 0 <= x) (map health us)).
  { apply Forall_forall. intros x Hx.
    apply in_map_iff in Hx. destruct Hx as (u & <- & Hu).
    unfold us in Hu. apply filter_In in Hu. destruct Hu as [Hu Hopp].
    apply in_flat_map in Hu. destruct Hu as (l & Hl & Hu).
    apply (Hpos l u Hl Hu).
    unfold opposing in Hopp. rewrite negb_true_iff, Z.eqb_neq in Hopp.
    exact Hopp. }
  split; [rewrite Hsum; apply total_nonneg; exact Hall|].
  intros l u Hl Hu Hne. rewrite Hsum.
  assert (Hin : In u us).
  { unfold us. apply filter_In. split.
    - apply in_flat_map. exists l. split; assumption.
    - unfold opposing. rewrite negb_true_iff, Z.eqb_neq. exact Hne. }
  clear - Hin Hall.
  induction us as [|v vs IH]; [destruct Hin|].
  simpl in Hall. inversion Hall as [|x xs Hv Hvs]. subst.
  assert (Hrest := total_nonneg _ Hvs).
  change (total (map health (v :: vs)))
    with (health v + total (map health vs)).
  destruct Hin as [-> | Hin].
  - lra.
  - specialize (IH Hvs Hin). lra.
Qed.

Lemma total_target_health_sum_witness :
  0 <= total_target_health Sample.one_wall (13, 0)%Z (9 # 2)
  /\ (forall (l : cell) (u : GameUnit),
        In l (get_locations_in_range Sample.one_wall (13, 0)%Z (9 # 2)) ->
        In u (game_map Sample.one_wall l) -> player_index u <> 0%Z ->
        health u <= total_target_health Sample.one_wall (13, 0)%Z (9 # 2)).
Proof.
  apply (total_target_health_sum Sample.one_wall (13, 0)%Z (9 # 2)).
  intros l u _ Hu _. simpl in Hu. destruct Hu as [<- | []]. simpl. lra.
Defined.

(** ** Outcomes of [gain_of_attack] *)

Lemma frames_zero_health (game_state : GameState) (unit_class : GameUnit)
    (shot : Q) (path_location : cell) (defenders : Q) (i : Z)
    (indices : list Z) (s : squad) :
  health unit_class == 0 ->
  for_in (i :: indices)
    (frame game_state unit_class shot path_location defenders) s
  = Raise ZeroDivisionError.
Proof.
  intro Hh. simpl. unfold frame, floordiv.
  apply eqb_eq in Hh. rewrite Hh. reflexivity.
Qed.

Lemma path_step_outcome (game_state : GameState) (unit_class : GameUnit)
    (shot : Q) (path_location : cell) (s : squad) :
  (speed unit_class == 0
   \/ (health unit_class == 0
       /\ (0 < sub_frames_per_cell (speed unit_class))%nat) ->
   path_step game_state unit_class shot path_location s
   = Raise ZeroDivisionError)
  /\ (~ speed unit_class == 0 ->
      ~ health unit_class == 0
      \/ sub_frames_per_cell (speed unit_class) = O ->
      exists g : Q,
        path_step game_state unit_class shot path_location s
        = Return (Returned (Some g))).
Proof.
  split.
  - intros [Hs | [Hh Hk]]; unfold path_step, truediv.
    + apply eqb_eq in Hs. rewrite Hs. reflexivity.
    + destruct (eqb (speed unit_class) 0); [reflexivity|]. simpl.
      unfold sub_frames_per_cell in Hk. rewrite <- to_nat_int in Hk.
      rewrite <- length_range in Hk.
      destruct (range (int (1 / speed unit_class))) as [|i indices];
        [simpl in Hk; lia|].
      rewrite frames_zero_health by assumption. reflexivity.
  - intros Hs [Hh | Hk].
    + rewrite path_step_gain by assumption. eauto.
    + unfold path_step, truediv. apply eqb_neq in Hs. rewrite Hs. simpl.
      unfold sub_frames_per_cell in Hk. rewrite <- to_nat_int in Hk.
      rewrite <- length_range in Hk.
      destruct (range (int (1 / speed unit_class))) as [|i indices];
        [|discriminate].
      simpl. eauto.
Qed.

(** X4. [gain_of_attack] returns [None] exactly when the path is empty.
    On a non-empty path it raises exactly when the speed of the unit is
    zero, or its health is zero and at least one sub-frame is run; the
    exception is always [ZeroDivisionError].  In every other case it
    returns a number. *)
Theorem gain_of_attack_outcome (game_state : GameState) (number_units : Z)
    (unit_type : unit_type) (location : cell) :
  (gain_of_attack game_state number_units unit_type location = Return None
   <-> find_path_to_edge game_state location = [])
  /\ ((exists e,
         gain_of_attack game_state number_units unit_type location = Raise e)
      <-> find_path_to_edge game_state location <> []
          /\ (speed (new_GameUnit game_state unit_type) == 0
              \/ (health (new_GameUnit game_state unit_type) == 0
                  /\ (0 < sub_frames_per_cell
                            (speed (new_GameUnit game_state unit_type)))%nat)))
  /\ (forall e,
        gain_of_attack game_state number_units unit_type location = Raise e ->
        e = ZeroDivisionError).
Proof.
  set (uc := new_GameUnit game_state unit_type).
  destruct (find_path_to_edge game_state location) as [|c rest] eqn:Ep.
  - rewrite (gain_of_attack_no_path _ _ _ _ Ep).
    split; [tauto|]. split.
    + split; [intros [e He]; discriminate | intros [H _]; congruence].
    + intros e He. discriminate.
  - rewrite (gain_of_attack_head _ _ _ _ _ _ Ep). fold uc.
    destruct (path_step_outcome game_state uc
                (damage_i (new_GameUnit game_state TURRET)) c
                (fresh_squad (health uc) number_units)) as [Hbad Hgood].
    destruct (Qeq_dec (speed uc) 0) as [Hs | Hs].
    { rewrite Hbad by (now left). simpl.
      split; [split; [discriminate | discriminate]|].
      split; [split; [intros _; split; [discriminate | now left] | eauto]|].
      intros e He. congruence. }
    destruct (Qeq_dec (health uc) 0) as [Hh | Hh].
    + destruct (Nat.eq_dec (sub_frames_per_cell (speed uc)) 0) as [Hk | Hk].
      * destruct (Hgood Hs (or_intror Hk)) as [g Hg]. rewrite Hg. simpl.
        split; [split; discriminate|].
        split; [|intros e He; discriminate].
        split; [intros [e He]; discriminate|].
        intros [_ [Hs' | [_ Hk']]]; [contradiction | lia].
      * rewrite Hbad by (right; split; [assumption | lia]). simpl.
        split; [split; discriminate|].
        split; [|intros e He; congruence].
        split; [|eauto].
        intros _. split; [discriminate|]. right. split; [assumption | lia].
    + destruct (Hgood Hs (or_introl Hh)) as [g Hg]. rewrite Hg. simpl.
      split; [split; discriminate|].
      split; [|intros e He; discriminate].
      split; [intros [e He]; discriminate|].
      intros [_ [Hs' | [Hh' _]]]; contradiction.
Qed.

Example gain_of_attack_turret_speed :
  gain_of_attack Sample.quiet 1 TURRET (13, 0)%Z = Raise ZeroDivisionError.
Proof. reflexivity. Qed.

(** ** Defenders lower the gain *)

Lemma survivors_monotone (t t' h : Q) :
  0 < h -> t' <= t ->
  inject_Z (Qfloor (t' / h)) + 1 <= inject_Z (Qfloor (t / h)) + 1.
Proof.
  intros Hh Ht.
  assert (Hq : t' / h <= t / h).
  { unfold Qdiv. apply Qmult_le_compat_r; [assumption|].
    apply Qinv_le_0_compat. lra. }
  apply Qfloor_resp_le in Hq. rewrite Zle_Qle in Hq. lra.
Qed.

Lemma sub_frames_monotone (attack target defenders defenders' shot h : Q)
    (k : nat) :
  0 <= attack -> 0 <= shot -> 0 < h -> defenders <= defenders' ->
  forall s s' : squad,
    damage_dealt s' <= damage_dealt s ->
    remaining_units s' <= remaining_units s ->
    total_heath s' <= total_heath s ->
    damage_dealt (times k (sub_frame attack target defenders' shot h) s')
    <= damage_dealt (times k (sub_frame attack target defenders shot h) s)
    /\ remaining_units (times k (sub_frame attack target defenders' shot h) s')
       <= remaining_units (times k (sub_frame attack target defenders shot h) s)
    /\ total_heath (times k (sub_frame attack target defenders' shot h) s')
       <= total_heath (times k (sub_frame attack target defenders shot h) s).
Proof.
  intros Ha Hs Hh Hd.
  induction k as [|k IH]; intros s s' Hdd Hr Ht.
  - simpl. auto.
  - simpl. apply IH; unfold sub_frame;
      cbn [damage_dealt remaining_units total_heath].
    + assert (Hm : attack * remaining_units s' <= attack * remaining_units s).
      { rewrite !(Qmult_comm attack).
        apply Qmult_le_compat_r; assumption. }
      assert (Hmin := Q.min_le_compat_r _ _ target Hm). lra.
    + apply survivors_monotone; [assumption|].
      assert (defenders * shot <= defenders' * shot)
        by (apply Qmult_le_compat_r; assumption).
      lra.
    + assert (defenders * shot <= defenders' * shot)
        by (apply Qmult_le_compat_r; assumption).
      lra.
Qed.

(** X5. Other things equal, more defenders on the first path cell never
    raise the gain: for a unit of positive health, non-zero speed and
    non-negative damage, and a non-negative turret damage, the gain with
    at least as many attackers of the first cell is at most the gain on
    the given game state. *)
Theorem gain_of_attack_more_defenders (game_state : GameState)
    (attackers : cell -> Z -> list GameUnit) (number_units : Z)
    (unit_type : unit_type) (location first_cell : cell) (rest : list cell) :
  find_path_to_edge game_state location = first_cell :: rest ->
  (length (get_attackers game_state first_cell 0%Z)
   <= length (attackers first_cell 0%Z))%nat ->
  0 < health (new_GameUnit game_state unit_type) ->
  ~ speed (new_GameUnit game_state unit_type) == 0 ->
  0 <= damage_f (new_GameUnit game_state unit_type) ->
  0 <= damage_i (new_GameUnit game_state TURRET) ->
  exists g g' : Q,
    gain_of_attack game_state number_units unit_type location
    = Return (Some g)
    /\ gain_of_attack (with_attackers game_state attackers) number_units
         unit_type location
       = Return (Some g')
    /\ g' <= g.
Proof.
  intros Ep Hlen Hh Hs Hf Hi.
  exists (first_cell_gain game_state number_units unit_type first_cell),
    (first_cell_gain (with_attackers game_state attackers) number_units
       unit_type first_cell).
  split; [|split].
  - apply (gain_of_attack_first_cell _ _ _ _ first_cell rest Ep);
      [assumption | lra].
  - apply (gain_of_attack_first_cell (with_attackers game_state attackers)
             _ _ _ first_cell rest Ep); simpl; [assumption | lra].
  - unfold first_cell_gain, squad_after. simpl new_GameUnit.
    change (total_target_health (with_attackers game_state attackers))
      with (total_target_health game_state).
    simpl get_attackers.
    set (uc := new_GameUnit game_state unit_type) in *.
    assert (Hd : len (get_attackers game_state first_cell 0)
                 <= len (attackers first_cell 0%Z)).
    { unfold len. rewrite <- Zle_Qle. lia. }
    destruct (sub_frames_monotone (damage_f uc)
                (total_target_health game_state first_cell (attackRange uc))
                _ _ (damage_i (new_GameUnit game_state TURRET)) (health uc)
                (sub_frames_per_cell (speed uc)) Hf Hi Hh Hd
                (fresh_squad (health uc) number_units)
                (fresh_squad (health uc) number_units)
                (Qle_refl _) (Qle_refl _) (Qle_refl _)) as (H1 & H2 & _).
    unfold weight_damage_enemy, weight_score. lra.
Qed.

Lemma gain_of_attack_more_defenders_witness :
  exists g g' : Q,
    gain_of_attack Sample.quiet 5 SCOUT (13, 0)%Z = Return (Some g)
    /\ gain_of_attack
         (with_attackers Sample.quiet (get_attackers Sample.gauntlet)) 5
         SCOUT (13, 0)%Z
       = Return (Some g')
    /\ g' <= g.
Proof.
  apply (gain_of_attack_more_defenders Sample.quiet
           (get_attackers Sample.gauntlet) 5 SCOUT (13, 0)%Z (13, 0)%Z
           [(13, 1)%Z; (13, 2)%Z]).
  - reflexivity.
  - simpl. lia.
  - simpl. lra.
  - simpl. lra.
  - simpl. lra.
  - simpl. lra.
Defined.

(** ** A bound on the gain *)




(** ** The best scout and demolisher locations *)

Lemma scout_of_round (location : cell) (g1 g2 g3 : Q) (p : plan) :
  scout_of (rank_interceptor location g3
              (rank_demolisher location g2 (rank_scout location g1 p)))
  = rank_best (scout_of p) (g1, location).
Proof.
  unfold scout_of, rank_interceptor, rank_best. cbn [fst snd scout_gain
    scout_deploy_location].
  unfold rank_demolisher, rank_scout.
  destruct (ltb (scout_gain p) g1); cbn [demolisher_gain];
    destruct (ltb (demolisher_gain p) g2); reflexivity.
Qed.

Lemma demolisher_of_round (location : cell) (g1 g2 g3 : Q) (p : plan) :
  demolisher_of (rank_interceptor location g3
                   (rank_demolisher location g2 (rank_scout location g1 p)))
  = rank_best (demolisher_of p) (g2, location).
Proof.
  unfold demolisher_of, rank_interceptor, rank_best. cbn [fst snd
    demolisher_gain demolisher_deploy_location].
  unfold rank_demolisher, rank_scout.
  destruct (ltb (scout_gain p) g1); cbn [demolisher_gain];
    destruct (ltb (demolisher_gain p) g2); reflexivity.
Qed.

Lemma ranking_bests (game_state : GameState) (locations : list cell) :
  forall p0 p : plan,
    ranking game_state locations p0 = Return (Next p) ->
    exists scout_gains demolisher_gains : list Q,
      Forall2
        (fun location g =>
           gain_of_attack game_state (max_scout_spawn game_state) SCOUT
             location = Return (Some g))
        locations scout_gains
      /\ Forall2
           (fun location g =>
              gain_of_attack game_state (max_demolisher_spawn game_state)
                DEMOLISHER location = Return (Some g))
           locations demolisher_gains
      /\ scout_of p
         = fold_left rank_best (combine scout_gains locations) (scout_of p0)
      /\ demolisher_of p
         = fold_left rank_best (combine demolisher_gains locations)
             (demolisher_of p0).
Proof.
  induction locations as [|l ls IH]; intros p0 p H.
  - inversion H. subst. exists [], [].
    repeat split; constructor.
  - unfold ranking in H. simpl in H.
    destruct (consider game_state _ _ _ l p0) as [[p1|u]|e] eqn:Ec;
      simpl in H; try discriminate.
    destruct (consider_ranks _ _ _ _ _ _ _ Ec)
      as (g1 & g2 & g3 & Hg1 & Hg2 & _ & ->).
    destruct (IH _ _ H) as (gs1 & gs2 & Hall1 & Hall2 & Hs & Hd).
    exists (g1 :: gs1), (g2 :: gs2).
    split; [constructor; assumption|].
    split; [constructor; assumption|].
    simpl. rewrite Hs, Hd, scout_of_round, demolisher_of_round.
    split; reflexivity.
Qed.

(** A running strict maximum: the first of the best entries, or nothing
    when no gain exceeds the initial [-999]. *)
Lemma best_first (cs : list entry) :
  (exists others : list entry,
     first_best (placeholder :: cs)
       (best_entry (fold_left rank_best cs (- (999), None))) others)
  /\ (forall l : cell,
        snd (fold_left rank_best cs (- (999), None)) = Some l ->
        In (fst (fold_left rank_best cs (- (999), None)), l) cs
        /\ - (999) < fst (fold_left rank_best cs (- (999), None)))
  /\ (snd (fold_left rank_best cs (- (999), None)) = None ->
      fst (fold_left rank_best cs (- (999), None)) = - (999)
      /\ forall e : entry, In e cs -> fst e <= - (999)).
Proof.
  induction cs as [|[gx lx] cs ((others & Hfb) & Hsome & Hnone)] using rev_ind.
  - simpl. split; [|split].
    + exists []. exists [], []. repeat split; constructor.
    + intros l H. discriminate.
    + intros _. split; [reflexivity | intros e []].
  - rewrite fold_left_app. simpl fold_left.
    destruct (fold_left rank_best cs (- (999), None)) as [g loc] eqn:Ef.
    cbn [fst snd] in *.
    destruct (first_best_bound _ _ _ Hfb) as [Hall _].
    cbn [best_entry fst snd] in Hall.
    assert (Hlow : - (999) <= g).
    { inversion Hall as [|x xs Hx _]. subst. exact Hx. }
    unfold rank_best. cbn [fst snd].
    destruct (ltb g gx) eqn:E; cbn [fst snd].
    + apply ltb_lt in E. split; [|split].
      * exists (placeholder :: cs).
        apply (first_best_new (placeholder :: cs) (gx, lx)).
        eapply Forall_below; eassumption.
      * intros l H. inversion H. subst. split; [|lra].
        apply in_or_app. right. now left.
      * discriminate.
    + apply ltb_ge in E. split; [|split].
      * exists (others ++ [(gx, lx)]).
        apply (first_best_keep (placeholder :: cs)); assumption.
      * intros l H. destruct (Hsome l H) as [Hin Hgt].
        split; [apply in_or_app; now left | exact Hgt].
      * intro H. destruct (Hnone H) as [Hg Hle].
        split; [exact Hg|].
        intros e He. apply in_app_or in He. destruct He as [He | [<- | []]].
        -- auto.
        -- simpl. rewrite <- Hg. exact E.
Qed.

(** X7. After the loop over any list of candidates the scout gain and
    location are the first of the best-ranked entries, the initial
    [-999] counting as the earliest: a later candidate replaces the kept
    one only by a strictly larger gain.  The scout location is unassigned
    exactly when no candidate's scout gain exceeds [-999].  The same holds
    for the demolisher gain and location. *)
Theorem best_scout_and_demolisher (game_state : GameState)
    (locations : list cell) (p : plan) :
  ranking game_state locations initial_plan = Return (Next p) ->
  exists scout_gains demolisher_gains : list Q,
    Forall2
      (fun location g =>
         gain_of_attack game_state (max_scout_spawn game_state) SCOUT
           location = Return (Some g))
      locations scout_gains
    /\ Forall2
         (fun location g =>
            gain_of_attack game_state (max_demolisher_spawn game_state)
              DEMOLISHER location = Return (Some g))
         locations demolisher_gains
    /\ (exists others : list entry,
          first_best (placeholder :: combine scout_gains locations)
            (best_entry (scout_of p)) others)
    /\ (scout_deploy_location p = None
        <-> forall g, In g scout_gains -> g <= - (999))
    /\ (exists others : list entry,
          first_best (placeholder :: combine demolisher_gains locations)
            (best_entry (demolisher_of p)) others)
    /\ (demolisher_deploy_location p = None
        <-> forall g, In g demolisher_gains -> g <= - (999)).
Proof.
  intro Hrun.
  destruct (ranking_bests _ _ _ _ Hrun)
    as (gs1 & gs2 & Hall1 & Hall2 & Hs & Hd).
  exists gs1, gs2. split; [exact Hall1|]. split; [exact Hall2|].
  change (scout_of initial_plan) with (- (999), @None cell) in Hs.
  change (demolisher_of initial_plan) with (- (999), @None cell) in Hd.
  assert (Hchar : forall (gains : list Q) (t : Q * option cell),
            Forall2 (fun _ _ => True) locations gains ->
            t = fold_left rank_best (combine gains locations) (- (999), None) ->
            (exists others,
               first_best (placeholder :: combine gains locations)
                 (best_entry t) others)
            /\ (snd t = None <-> forall g, In g gains -> g <= - (999))).
  { intros gains t Hlen ->.
    destruct (best_first (combine gains locations)) as (Hfb & Hsome & Hnone).
    destruct (combine_gains _ _ _ Hlen) as (_ & Hto & Hfrom).
    split; [exact Hfb|]. split.
    - intros H g Hg. destruct (Hnone H) as [_ Hle].
      destruct (Hto _ Hg) as [l Hl]. exact (Hle _ Hl).
    - intro Hle.
      destruct (snd (fold_left rank_best (combine gains locations)
                       (- (999), None))) as [l|] eqn:El; [|reflexivity].
      exfalso. destruct (Hsome l eq_refl) as [Hin Hgt].
      specialize (Hle _ (Hfrom _ Hin)). simpl in Hle. lra. }
  assert (Hweak : forall (R : cell -> Q -> Prop) gains,
            Forall2 R locations gains ->
            Forall2 (fun _ _ => True) locations gains).
  { intros R gains H. eapply Forall2_impl; [|exact H]. auto. }
  destruct (Hchar gs1 (scout_of p) (Hweak _ _ Hall1) Hs) as [H1 H2].
  destruct (Hchar gs2 (demolisher_of p) (Hweak _ _ Hall2) Hd) as [H3 H4].
  repeat split; try assumption; try (apply H2); try (apply H4).
Qed.

Lemma best_scout_and_demolisher_witness :
  exists scout_gains demolisher_gains : list Q,
    Forall2
      (fun location g =>
         gain_of_attack Sample.quiet (max_scout_spawn Sample.quiet) SCOUT
           location = Return (Some g))
      [(13, 0)%Z; (12, 1)%Z] scout_gains
    /\ Forall2
         (fun location g =>
            gain_of_attack Sample.quiet (max_demolisher_spawn Sample.quiet)
              DEMOLISHER location = Return (Some g))
         [(13, 0)%Z; (12, 1)%Z] demolisher_gains
    /\ (exists others : list entry,
          first_best
            (placeholder :: combine scout_gains [(13, 0)%Z; (12, 1)%Z])
            (best_entry (scout_of Sample.quiet_plan)) others)
    /\ (scout_deploy_location Sample.quiet_plan = None
        <-> forall g, In g scout_gains -> g <= - (999))
    /\ (exists others : list entry,
          first_best
            (placeholder :: combine demolisher_gains [(13, 0)%Z; (12, 1)%Z])
            (best_entry (demolisher_of Sample.quiet_plan)) others)
    /\ (demolisher_deploy_location Sample.quiet_plan = None
        <-> forall g, In g demolisher_gains -> g <= - (999)).
Proof.
  apply (best_scout_and_demolisher Sample.quiet [(13, 0)%Z; (12, 1)%Z]
           Sample.quiet_plan).
  vm_compute. reflexivity.
Defined.

(** ** What [attempt_to_attack] spawns *)

Lemma slots_members (cs : list entry) :
  In (fst (snd (fold_left rank_entry cs (slots_of initial_plan))))
    ((0, 0)%Z :: map snd cs)
  /\ In (snd (snd (fold_left rank_entry cs (slots_of initial_plan))))
       ((0, 0)%Z :: map snd cs).
Proof.
  induction cs as [|[gx lx] cs [H0 H1]] using rev_ind.
  - simpl. auto.
  - rewrite fold_left_app, map_app. simpl fold_left. simpl map.
    destruct (fold_left rank_entry cs (slots_of initial_plan))
      as [[g0 g1] [l0 l1]].
    cbn [fst snd] in *.
    assert (Hgrow : forall l, In l ((0, 0)%Z :: map snd cs) ->
                      In l ((0, 0)%Z :: map snd cs ++ [lx])).
    { intros l [<- | Hl]; [now left | right; apply in_or_app; now left]. }
    assert (Hlast : In lx ((0, 0)%Z :: map snd cs ++ [lx])).
    { right. apply in_or_app. right. now left. }
    unfold rank_entry, rank_slots. cbn [fst snd].
    destruct (ltb g0 gx); [|destruct (ltb g1 gx)]; cbn [fst snd]; auto.
Qed.

(** The cells a finished loop has picked come from its candidates. *)
Lemma ranking_picks (game_state : GameState) (locations : list cell)
    (p : plan) :
  ranking game_state locations initial_plan = Return (Next p) ->
  (forall l, scout_deploy_location p = Some l -> In l locations)
  /\ (forall l, demolisher_deploy_location p = Some l -> In l locations)
  /\ (forall i : bool,
        In (item (interceptor_deploy_locations p) i) locations
        \/ item (interceptor_deploy_locations p) i = (0, 0)%Z).
Proof.
  intro Hrun.
  destruct (ranking_bests _ _ _ _ Hrun)
    as (gs1 & gs2 & Hall1 & Hall2 & Hs & Hd).
  destruct (ranking_slots _ _ _ _ Hrun) as (gs3 & Hall3 & Hslots).
  change (scout_of initial_plan) with (- (999), @None cell) in Hs.
  change (demolisher_of initial_plan) with (- (999), @None cell) in Hd.
  split; [|split].
  - intros l Hl.
    destruct (best_first (combine gs1 locations)) as (_ & Hsome & _).
    rewrite <- Hs in Hsome. destruct (Hsome l Hl) as [Hin _].
    eapply in_combine_r. exact Hin.
  - intros l Hl.
    destruct (best_first (combine gs2 locations)) as (_ & Hsome & _).
    rewrite <- Hd in Hsome. destruct (Hsome l Hl) as [Hin _].
    eapply in_combine_r. exact Hin.
  - intro i.
    destruct (slots_members (combine gs3 locations)) as [H0 H1].
    rewrite <- Hslots in H0, H1.
    destruct (combine_gains _ _ _ Hall3) as (Hcells & _ & _).
    rewrite Hcells in H0, H1. cbn [slots_of fst snd] in H0, H1.
    destruct i; cbn [item].
    + destruct H1 as [H1 | H1]; [right; symmetry; exact H1 | now left].
    + destruct H0 as [H0 | H0]; [right; symmetry; exact H0 | now left].
Qed.

Lemma attempt_to_attack_inv (game_state : GameState) (cmds : list spawn) :
  attempt_to_attack game_state = Return cmds ->
  exists (p : plan) (s : scores),
    ranking game_state (deploy_locations game_state) initial_plan
    = Return (Next p)
    /\ normalise game_state p = Return s
    /\ decide game_state s = Return cmds.
Proof.
  intro H. unfold attempt_to_attack in H.
  destruct (ranking game_state (deploy_locations game_state) initial_plan)
    as [r|e] eqn:Er; simpl in H; [|discriminate].
  destruct (ranking_continues _ _ _ _ Er) as [p ->].
  destruct (normalise game_state p) as [s|e] eqn:En; simpl in H;
    [|discriminate].
  exists p, s. repeat split; assumption.
Qed.

Lemma decide_inv (game_state : GameState) (s : scores) (cmds : list spawn) :
  decide game_state s = Return cmds ->
  cmds = []
  \/ (exists sl : cell,
        scout_deploy_location (ranked s) = Some sl
        /\ cmds = [ {| spawn_unit := SCOUT; spawn_location := sl;
                       spawn_num := max_scout_spawn game_state |} ])
  \/ (exists dl : cell,
        demolisher_deploy_location (ranked s) = Some dl
        /\ cmds
           = [ {| spawn_unit := DEMOLISHER; spawn_location := dl;
                  spawn_num := max_demolisher_spawn game_state |};
               {| spawn_unit := INTERCEPTOR;
                  spawn_location :=
                    item (interceptor_deploy_locations (ranked s))
                      (location_index s);
                  spawn_num := max_interceptor_spawn game_state |} ]).
Proof.
  unfold decide, spawn_scouts, spawn_combo.
  destruct (leb minGainPerSPSpent (opt1_gain s));
    destruct (leb minGainPerSPSpent (opt2_gain s)); simpl;
    try destruct (leb (opt2_gain s) (opt1_gain s));
    try (destruct (scout_deploy_location (ranked s)) as [sl|]; simpl;
         [|discriminate]);
    try (destruct (demolisher_deploy_location (ranked s)) as [dl|]; simpl;
         [|discriminate]);
    intro H; inversion H; eauto.
Qed.

(** X8. Whenever [attempt_to_attack] returns, it has made no spawn, or one
    spawn of [max_scout_spawn] scouts on a deploy location, or a spawn of
    [max_demolisher_spawn] demolishers on a deploy location followed by a
    spawn of [max_interceptor_spawn] interceptors on a deploy location or
    on the placeholder cell [[0, 0]]: never more than two spawns, never a
    stationary unit, never a cell outside the free friendly edge cells and
    the placeholder. *)
Theorem attempt_to_attack_spawns (game_state : GameState)
    (cmds : list spawn) :
  attempt_to_attack game_state = Return cmds ->
  cmds = []
  \/ (exists sl : cell,
        In sl (deploy_locations game_state)
        /\ cmds = [ {| spawn_unit := SCOUT; spawn_location := sl;
                       spawn_num := max_scout_spawn game_state |} ])
  \/ (exists dl il : cell,
        In dl (deploy_locations game_state)
        /\ (In il (deploy_locations game_state) \/ il = (0, 0)%Z)
        /\ cmds
           = [ {| spawn_unit := DEMOLISHER; spawn_location := dl;
                  spawn_num := max_demolisher_spawn game_state |};
               {| spawn_unit := INTERCEPTOR; spawn_location := il;
                  spawn_num := max_interceptor_spawn game_state |} ]).
Proof.
  intro H.
  destruct (attempt_to_attack_inv _ _ H) as (p & s & Hr & Hn & Hd).
  destruct (normalise_inv _ _ _ Hn) as (dl' & _ & Hp & _).
  destruct (ranking_picks _ _ _ Hr) as (Hs & Hdem & Hint).
  assert (Hcmds := decide_inv _ _ _ Hd). rewrite Hp in Hcmds.
  destruct Hcmds as [-> | [(sl & Hsl & ->) | (dl & Hdl & ->)]].
  - now left.
  - right. left. exists sl. split; [apply Hs; assumption | reflexivity].
  - right. right.
    exists dl, (item (interceptor_deploy_locations p) (location_index s)).
    split; [apply Hdem; assumption|]. split; [apply Hint | reflexivity].
Qed.

Lemma attempt_to_attack_spawns_witness :
  [ {| spawn_unit := DEMOLISHER; spawn_location := (13, 0)%Z; spawn_num := 1 |};
    {| spawn_unit := INTERCEPTOR; spawn_location := (12, 1)%Z;
       spawn_num := 1 |} ] = []
  \/ (exists sl : cell,
        In sl (deploy_locations Sample.wall_ahead)
        /\ [ {| spawn_unit := DEMOLISHER; spawn_location := (13, 0)%Z;
                spawn_num := 1 |};
             {| spawn_unit := INTERCEPTOR; spawn_location := (12, 1)%Z;
                spawn_num := 1 |} ]
           = [ {| spawn_unit := SCOUT; spawn_location := sl;
                  spawn_num := max_scout_spawn Sample.wall_ahead |} ])
  \/ (exists dl il : cell,
        In dl (deploy_locations Sample.wall_ahead)
        /\ (In il (deploy_locations Sample.wall_ahead) \/ il = (0, 0)%Z)
        /\ [ {| spawn_unit := DEMOLISHER; spawn_location := (13, 0)%Z;
                spawn_num := 1 |};
             {| spawn_unit := INTERCEPTOR; spawn_location := (12, 1)%Z;
                spawn_num := 1 |} ]
           = [ {| spawn_unit := DEMOLISHER; spawn_location := dl;
                  spawn_num := max_demolisher_spawn Sample.wall_ahead |};
               {| spawn_unit := INTERCEPTOR; spawn_location := il;
                  spawn_num := max_interceptor_spawn Sample.wall_ahead |} ]).
Proof.
  apply (attempt_to_attack_spawns Sample.wall_ahead).
  vm_compute. reflexivity.
Defined.

(** X9. When the deploy locations are pairwise distinct and none is the
    placeholder cell [[0, 0]], the two spawns of a committed combo are
    never on the same cell: the interceptors do not land on the
    demolishers' location. *)
Theorem combo_cells_differ (game_state : GameState) (d i : spawn) :
  NoDup (deploy_locations game_state) ->
  ~ In (0, 0)%Z (deploy_locations game_state) ->
  attempt_to_attack game_state = Return [d; i] ->
  spawn_unit d = DEMOLISHER
  /\ spawn_unit i = INTERCEPTOR
  /\ spawn_location d <> spawn_location i.
Proof.
  intros Hnd Hph H.
  destruct (attempt_to_attack_inv _ _ H) as (p & s & Hr & Hn & Hd).
  destruct (normalise_inv _ _ _ Hn) as (dl' & Hdl' & Hp & Hli & _).
  assert (Hcmds := decide_inv _ _ _ Hd). rewrite Hp in Hcmds.
  destruct Hcmds as [E | [(sl & _ & E) | (dl & Hdl & E)]];
    try discriminate.
  inversion E. subst d i. clear E. cbn [spawn_unit spawn_location].
  split; [reflexivity|]. split; [reflexivity|].
  rewrite Hdl' in Hdl. inversion Hdl. subst dl'. clear Hdl.
  destruct (ranking_picks _ _ _ Hr) as (_ & Hdem & _).
  assert (Hin : In dl (deploy_locations game_state)) by (apply Hdem; assumption).
  destruct (ranking_slots _ _ _ _ Hr) as (gains & Hall & Hslots).
  destruct (combine_gains _ _ _ Hall) as (Hcells & _ & _).
  assert (Hnd' : NoDup (map snd (combine gains (deploy_locations game_state))))
    by (rewrite Hcells; exact Hnd).
  assert (Hph' : ~ In (0, 0)%Z
                   (map snd (combine gains (deploy_locations game_state))))
    by (rewrite Hcells; exact Hph).
  destruct (slots_distinct _ Hnd' Hph') as (_ & _ & Hcase).
  rewrite <- Hslots in Hcase. cbn [slots_of fst snd] in Hcase.
  rewrite Hli.
  destruct (location_eqb (fst (interceptor_deploy_locations p)) dl) eqn:El;
    cbn [item].
  - apply location_eqb_eq in El.
    destruct Hcase as [[_ Hinit] | [_ Hneq]].
    + exfalso. apply Hph. inversion Hinit as [[Hg Hl]].
      rewrite Hl in El. cbn [fst] in El. rewrite El. exact Hin.
    + rewrite <- El. exact Hneq.
  - intro Heq. symmetry in Heq. apply location_eqb_eq in Heq. congruence.
Qed.

Lemma combo_cells_differ_witness :
  spawn_unit {| spawn_unit := DEMOLISHER; spawn_location := (13, 0)%Z;
                spawn_num := 1 |} = DEMOLISHER
  /\ spawn_unit {| spawn_unit := INTERCEPTOR; spawn_location := (12, 1)%Z;
                   spawn_num := 1 |} = INTERCEPTOR
  /\ spawn_location {| spawn_unit := DEMOLISHER; spawn_location := (13, 0)%Z;
                       spawn_num := 1 |}
     <> spawn_location {| spawn_unit := INTERCEPTOR;
                          spawn_location := (12, 1)%Z; spawn_num := 1 |}.
Proof.
  apply (combo_cells_differ Sample.wall_ahead).
  - change (deploy_locations Sample.wall_ahead) with [(13, 0)%Z; (12, 1)%Z].
    repeat constructor; simpl; intuition congruence.
  - change (deploy_locations Sample.wall_ahead) with [(13, 0)%Z; (12, 1)%Z].
    simpl. intuition congruence.
  - vm_compute. reflexivity.
Defined.

(** ** Outcomes of [least_damage_spawn_location] *)

(** X10. [least_damage_spawn_location] returns one of the given locations
    whenever there is one; on the empty list [min] raises [ValueError].
    It raises in no other case and nothing else. *)
Theorem least_damage_spawn_location_outcome (game_state : GameState)
    (location_options : list cell) :
  (location_options = [] ->
   least_damage_spawn_location game_state location_options
   = Raise ValueError)
  /\ (location_options <> [] ->
      exists location : cell,
        least_damage_spawn_location game_state location_options
        = Return location
        /\ In location location_options)
  /\ (forall e,
        least_damage_spawn_location game_state location_options = Raise e ->
        e = ValueError /\ location_options = []).
Proof.
  assert (Hsome : location_options <> [] ->
            exists location : cell,
              least_damage_spawn_location game_state location_options
              = Return location
              /\ In location location_options).
  { intro Hne. unfold least_damage_spawn_location.
    rewrite damages_map. simpl app.
    set (damages := map (path_damage game_state) location_options).
    assert (Hd : damages <> []).
    { unfold damages. destruct location_options; [congruence | discriminate]. }
    destruct (min_list_least damages Hd) as (m & Hmin & Hin & _).
    destruct (index_first damages m Hin) as (i & y & Hi & Hy & _).
    unfold damages in Hy. rewrite nth_error_map in Hy.
    destruct (nth_error location_options i) as [location|] eqn:El;
      [|discriminate].
    exists location. rewrite Hmin. cbn [bind]. rewrite Hi. cbn [bind].
    unfold getitem. rewrite El. split; [reflexivity|].
    eapply nth_error_In. exact El. }
  split; [|split].
  - intros ->. reflexivity.
  - exact Hsome.
  - intros e He. destruct location_options as [|l ls].
    + inversion He. split; reflexivity.
    + destruct Hsome as (location & Hl & _); [discriminate|]. congruence.
Qed.

Lemma least_damage_spawn_location_outcome_witness :
  exists location : cell,
    least_damage_spawn_location Sample.left_guarded [(10, 3)%Z; (12, 1)%Z]
    = Return location
    /\ In location [(10, 3)%Z; (12, 1)%Z].
Proof.
  apply (least_damage_spawn_location_outcome Sample.left_guarded
           [(10, 3)%Z; (12, 1)%Z]).
  discriminate.
Defined.

(** ** Counting enemy units *)

Lemma count_cons {A : Type} (f : A -> bool) (x : A) (xs : list A) :
  count f (x :: xs) = ((if f x then 1 else 0) + count f xs)%Z.
Proof.
  unfold count. simpl. destruct (f x); simpl length; lia.
Qed.

Lemma count_app {A : Type} (f : A -> bool) (xs ys : list A) :
  count f (xs ++ ys) = (count f xs + count f ys)%Z.
Proof.
  unfold count. rewrite filter_app, length_app. lia.
Qed.

Lemma count_le {A : Type} (f g : A -> bool) (xs : list A) :
  (forall x, f x = true -> g x = true) -> (count f xs <= count g xs)%Z.
Proof.
  intro H. induction xs as [|x xs IH]; [reflexivity|].
  rewrite !count_cons. specialize (H x).
  destruct (f x) eqn:Ef, (g x) eqn:Eg; try lia.
Qed.

Lemma filter_none {A : Type} (f : A -> bool) (xs : list A) :
  (forall x, In x xs -> f x = false) -> filter f xs = [].
Proof.
  induction xs as [|x xs IH]; intro H; simpl; [reflexivity|].
  rewrite (H x (or_introl eq_refl)). apply IH.
  intros y Hy. apply H. now right.
Qed.

Lemma detect_cell (E : Engine) (unit_type : option unit_type)
    (valid_x valid_y : option (list Z)) (location : cell)
    (units : list GameUnit) (acc : Z) :
  fold_left (fun total_units unit =>
    if (player_index unit =? 1)%Z
       && match unit_type with
          | None => true
          | Some t => unit_type_eqb (unit_type_of E unit) t
          end
       && match valid_x with
          | None => true
          | Some xs => contains (fst location) xs
          end
       && match valid_y with
          | None => true
          | Some ys => contains (snd location) ys
          end
    then (total_units + 1)%Z else total_units) units acc
  = (acc + count (accepted E unit_type valid_x valid_y)
             (map (pair location) units))%Z.
Proof.
  revert acc. induction units as [|u us IH]; intro acc.
  - unfold count. simpl. lia.
  - simpl map. rewrite count_cons. simpl fold_left. rewrite IH.
    unfold accepted at 2. cbn [fst snd].
    destruct (_ && _ && _ && _); lia.
Qed.

Lemma detect_enemy_unit_count (E : Engine) (game_state : GameState)
    (unit_type : option unit_type) (valid_x valid_y : option (list Z)) :
  detect_enemy_unit E game_state unit_type valid_x valid_y
  = count (accepted E unit_type valid_x valid_y)
      (units_on_structures E game_state).
Proof.
  unfold detect_enemy_unit, units_on_structures.
  assert (H : forall cells acc,
            fold_left (fun total_units location =>
              if contains_stationary_unit game_state location then
                fold_left (fun total_units unit =>
                  if (player_index unit =? 1)%Z
                     && match unit_type with
                        | None => true
                        | Some t => unit_type_eqb (unit_type_of E unit) t
                        end
                     && match valid_x with
                        | None => true
                        | Some xs => contains (fst location) xs
                        end
                     && match valid_y with
                        | None => true
                        | Some ys => contains (snd location) ys
                        end
                  then (total_units + 1)%Z else total_units)
                  (game_map game_state location) total_units
              else total_units) cells acc
            = (acc + count (accepted E unit_type valid_x valid_y)
                       (flat_map (fun location =>
                          if contains_stationary_unit game_state location
                          then map (pair location)
                                 (game_map game_state location)
                          else []) cells))%Z).
  { induction cells as [|c cs IH]; intro acc.
    - unfold count. simpl. lia.
    - simpl fold_left. simpl flat_map. rewrite count_app, IH.
      destruct (contains_stationary_unit game_state c).
      + rewrite detect_cell. lia.
      + unfold count at 2. simpl. lia. }
  rewrite H. lia.
Qed.

(** X11. [detect_enemy_unit] is the number of units of player 1, on the
    cells of the map that hold a stationary unit, that pass the filters
    given.  It is never negative and never exceeds the number of units on
    those cells; units of another player index are never counted, so the
    count is 0 when there is no unit of player 1. *)
Theorem detect_enemy_unit_counts (E : Engine) (game_state : GameState)
    (unit_type : option unit_type) (valid_x valid_y : option (list Z)) :
  detect_enemy_unit E game_state unit_type valid_x valid_y
  = count (accepted E unit_type valid_x valid_y)
      (units_on_structures E game_state)
  /\ (0 <= detect_enemy_unit E game_state unit_type valid_x valid_y
      <= Z.of_nat (length (units_on_structures E game_state)))%Z
  /\ ((forall (l : cell) (u : GameUnit),
         In l (map_cells E game_state) -> In u (game_map game_state l) ->
         player_index u <> 1%Z) ->
      detect_enemy_unit E game_state unit_type valid_x valid_y = 0%Z).
Proof.
  rewrite detect_enemy_unit_count.
  split; [reflexivity|]. split.
  - unfold count.
    assert (H := filter_length_le (accepted E unit_type valid_x valid_y)
                   (units_on_structures E game_state)).
    lia.
  - intro Hown. unfold count.
    rewrite filter_none; [reflexivity|].
    intros [l u] Hin.
    unfold units_on_structures in Hin. apply in_flat_map in Hin.
    destruct Hin as (c & Hc & Hin).
    destruct (contains_stationary_unit game_state c); [|destruct Hin].
    apply in_map_iff in Hin. destruct Hin as (u' & Heq & Hu').
    inversion Heq. subst.
    unfold accepted. cbn [fst snd].
    specialize (Hown l u Hc Hu').
    apply Z.eqb_neq in Hown. rewrite Hown. reflexivity.
Qed.

Lemma detect_enemy_unit_counts_witness :
  detect_enemy_unit (Scenario.engine 0 Scenario.front_cells) Sample.quiet
    None None (Some [14; 15]%Z) = 0%Z.
Proof.
  apply (detect_enemy_unit_counts (Scenario.engine 0 Scenario.front_cells)
           Sample.quiet None None (Some [14; 15]%Z)).
  intros l u _ Hu. destruct Hu.
Defined.

Example detect_front_line :
  detect_enemy_unit (Scenario.engine 3 Scenario.front_cells)
    Scenario.front_line None None (Some [14; 15]%Z) = 12%Z
  /\ detect_enemy_unit (Scenario.engine 3 Scenario.front_cells)
       Scenario.front_line (Some TURRET) None None = 1%Z.
Proof. split; reflexivity. Qed.

Lemma contains_app (x : Z) (xs ys : list Z) :
  contains x (xs ++ ys) = contains x xs || contains x ys.
Proof. apply existsb_app. Qed.

Lemma accepted_one_type (E : Engine) (valid_x valid_y : option (list Z))
    (lu : cell * GameUnit) :
  (if accepted E None valid_x valid_y lu then 1 else 0)%Z
  = sum_Z (map (fun t =>
                  if accepted E (Some t) valid_x valid_y lu then 1%Z else 0%Z)
             unit_types).
Proof.
  unfold unit_types, sum_Z, accepted. cbn [map fold_right].
  destruct (player_index (snd lu) =? 1)%Z;
    destruct (unit_type_of E (snd lu));
    destruct (match valid_x with
              | Some xs => contains (fst (fst lu)) xs
              | None => true
              end);
    destruct (match valid_y with
              | Some ys => contains (snd (fst lu)) ys
              | None => true
              end);
    reflexivity.
Qed.

Lemma count_by_type (E : Engine) (valid_x valid_y : option (list Z))
    (us : list (cell * GameUnit)) :
  count (accepted E None valid_x valid_y) us
  = sum_Z (map (fun t => count (accepted E (Some t) valid_x valid_y) us)
             unit_types).
Proof.
  induction us as [|lu us IH].
  - reflexivity.
  - rewrite count_cons, IH, accepted_one_type.
    unfold unit_types, sum_Z. cbn [map fold_right].
    rewrite !count_cons. lia.
Qed.

Lemma accepted_rows (E : Engine) (unit_type : option unit_type)
    (valid_x : option (list Z)) (ys1 ys2 : list Z) (lu : cell * GameUnit) :
  (forall y, contains y ys1 = true -> contains y ys2 = false) ->
  (if accepted E unit_type valid_x (Some (ys1 ++ ys2)) lu then 1 else 0)%Z
  = ((if accepted E unit_type valid_x (Some ys1) lu then 1 else 0)
     + (if accepted E unit_type valid_x (Some ys2) lu then 1 else 0))%Z.
Proof.
  intro Hdis. unfold accepted. rewrite contains_app.
  specialize (Hdis (snd (fst lu))).
  match goal with
  | |- context [?a && contains (snd (fst lu)) ys1] => destruct a
  end; cbn [andb]; [|reflexivity].
  destruct (contains (snd (fst lu)) ys1);
    [rewrite (Hdis eq_refl); reflexivity|].
  destruct (contains (snd (fst lu)) ys2); reflexivity.
Qed.

Lemma count_rows (E : Engine) (unit_type : option unit_type)
    (valid_x : option (list Z)) (ys1 ys2 : list Z)
    (us : list (cell * GameUnit)) :
  (forall y, contains y ys1 = true -> contains y ys2 = false) ->
  count (accepted E unit_type valid_x (Some (ys1 ++ ys2))) us
  = (count (accepted E unit_type valid_x (Some ys1)) us
     + count (accepted E unit_type valid_x (Some ys2)) us)%Z.
Proof.
  intro Hdis. induction us as [|lu us IH].
  - reflexivity.
  - rewrite !count_cons, IH, (accepted_rows _ _ _ _ _ _ Hdis). lia.
Qed.

(** X12. Dropping a filter of [detect_enemy_unit] never lowers the count;
    the count without a unit-type filter is the sum of the counts for the
    six unit types; and the count for two lists of rows that share no row
    is the sum of the counts for each, so that the test of [my_strategy]
    on rows 14 and 15 adds up the two rows. *)
Theorem detect_enemy_unit_filters (E : Engine) (game_state : GameState)
    (unit_type : option unit_type) (valid_x valid_y : option (list Z)) :
  (detect_enemy_unit E game_state unit_type valid_x valid_y
   <= detect_enemy_unit E game_state None valid_x valid_y)%Z
  /\ (detect_enemy_unit E game_state unit_type valid_x valid_y
      <= detect_enemy_unit E game_state unit_type None valid_y)%Z
  /\ (detect_enemy_unit E game_state unit_type valid_x valid_y
      <= detect_enemy_unit E game_state unit_type valid_x None)%Z
  /\ detect_enemy_unit E game_state None valid_x valid_y
     = sum_Z (map (fun t =>
                     detect_enemy_unit E game_state (Some t) valid_x valid_y)
                unit_types)
  /\ (forall ys1 ys2 : list Z,
        (forall y, contains y ys1 = true -> contains y ys2 = false) ->
        detect_enemy_unit E game_state unit_type valid_x (Some (ys1 ++ ys2))
        = (detect_enemy_unit E game_state unit_type valid_x (Some ys1)
           + detect_enemy_unit E game_state unit_type valid_x (Some ys2))%Z)
  /\ detect_enemy_unit E game_state None None (Some [14; 15]%Z)
     = (detect_enemy_unit E game_state None None (Some [14]%Z)
        + detect_enemy_unit E game_state None None (Some [15]%Z))%Z.
Proof.
  rewrite !detect_enemy_unit_count.
  split; [|split; [|split; [|split; [|split]]]].
  - apply count_le. intros lu. unfold accepted.
    rewrite !andb_true_iff. tauto.
  - apply count_le. intros lu. unfold accepted.
    rewrite !andb_true_iff. tauto.
  - apply count_le. intros lu. unfold accepted.
    rewrite !andb_true_iff. tauto.
  - rewrite count_by_type. unfold unit_types. cbn [map].
    rewrite !detect_enemy_unit_count. reflexivity.
  - intros ys1 ys2 Hdis. rewrite !detect_enemy_unit_count.
    apply count_rows. exact Hdis.
  - apply (count_rows E None None [14%Z] [15%Z]).
    intros y Hy. unfold contains in *. simpl in *.
    rewrite orb_false_r in *. apply Z.eqb_eq in Hy. subst y. reflexivity.
Qed.

Lemma detect_enemy_unit_filters_witness :
  detect_enemy_unit (Scenario.engine 3 Scenario.front_cells)
    Scenario.front_line None None (Some ([14] ++ [15; 16])%Z)
  = (detect_enemy_unit (Scenario.engine 3 Scenario.front_cells)
       Scenario.front_line None None (Some [14]%Z)
     + detect_enemy_unit (Scenario.engine 3 Scenario.front_cells)
         Scenario.front_line None None (Some [15; 16]%Z))%Z.
Proof.
  apply (detect_enemy_unit_filters (Scenario.engine 3 Scenario.front_cells)
           Scenario.front_line None None None).
  intros y Hy. unfold contains in *. simpl in *.
  rewrite orb_false_r in Hy. apply Z.eqb_eq in Hy. subst y. reflexivity.
Defined.

(** ** Recorded breaches and the reactive defence *)

Lemma on_action_frame_acc (self : AlgoStrategy) (breaches : list breach) :
  scored_on_locations (on_action_frame self breaches)
  = scored_on_locations self
    ++ map breach_location (filter scored_on_us breaches).
Proof.
  unfold on_action_frame. revert self.
  induction breaches as [|b bs IH]; intro self; simpl.
  - now rewrite app_nil_r.
  - rewrite IH. unfold scored_on_us at 2.
    destruct (negb (breach_owner b =? 1)%Z); simpl.
    + now rewrite <- app_assoc.
    + reflexivity.
Qed.

Lemma on_action_frame_own (self : AlgoStrategy) (breaches : list breach) :
  (forall b, In b breaches -> breach_owner b = 1%Z) ->
  on_action_frame self breaches = self.
Proof.
  intro Hown. unfold on_action_frame.
  induction breaches as [|b bs IH]; simpl; [reflexivity|].
  rewrite (Hown b (or_introl eq_refl)). simpl.
  apply IH. intros b' Hb'. apply Hown. now right.
Qed.

(** X13. [on_action_frame] only appends to [scored_on_locations]: the
    locations recorded before stay, in front and in order, followed by
    the location of every breach of the frame whose owner is not 1, in
    the order of the frame and once per breach.  A breach of owner 1 is
    never recorded, and handling two frames in turn records what handling
    their concatenation records. *)
Theorem on_action_frame_records (self : AlgoStrategy)
    (breaches more : list breach) :
  scored_on_locations (on_action_frame self breaches)
  = scored_on_locations self
    ++ map breach_location (filter scored_on_us breaches)
  /\ (forall l : cell,
        In l (scored_on_locations (on_action_frame self breaches))
        <-> In l (scored_on_locations self)
            \/ exists b, In b breaches /\ breach_owner b <> 1%Z
                         /\ breach_location b = l)
  /\ ((forall b, In b breaches -> breach_owner b = 1%Z) ->
      on_action_frame self breaches = self)
  /\ on_action_frame (on_action_frame self breaches) more
     = on_action_frame self (breaches ++ more).
Proof.
  split; [apply on_action_frame_acc|]. split; [|split].
  - intro l. rewrite on_action_frame_acc, in_app_iff, in_map_iff.
    split; (intros [H | H]; [now left | right]).
    + destruct H as (b & Hl & Hb). apply filter_In in Hb.
      destruct Hb as [Hb Ho]. exists b. repeat split; try assumption.
      unfold scored_on_us in Ho. rewrite negb_true_iff, Z.eqb_neq in Ho.
      exact Ho.
    + destruct H as (b & Hb & Ho & Hl). exists b. split; [exact Hl|].
      apply filter_In. split; [exact Hb|].
      unfold scored_on_us. rewrite negb_true_iff, Z.eqb_neq. exact Ho.
  - apply on_action_frame_own.
  - unfold on_action_frame. now rewrite fold_left_app.
Qed.

Lemma on_action_frame_records_witness :
  on_action_frame {| scored_on_locations := [(3, 10)%Z] |}
    [ {| breach_location := (20, 6)%Z; breach_owner := 1 |} ]
  = {| scored_on_locations := [(3, 10)%Z] |}.
Proof.
  destruct (on_action_frame_records {| scored_on_locations := [(3, 10)%Z] |}
              [ {| breach_location := (20, 6)%Z; breach_owner := 1 |} ] [])
    as (_ & _ & Hown & _).
  apply Hown. intros b [<- | []]. reflexivity.
Defined.

Lemma build_reactive_defense_calls (E : Engine) (self : AlgoStrategy)
    (t : turn) :
  calls (build_reactive_defense E self t)
  = calls t ++ map turret_above (scored_on_locations self).
Proof.
  unfold build_reactive_defense.
  generalize (scored_on_locations self) as ls. intro ls. revert t.
  induction ls as [|l ls IH]; intro t; simpl.
  - now rewrite app_nil_r.
  - rewrite IH. unfold spawn_call. cbn [calls].
    rewrite <- app_assoc. reflexivity.
Qed.

(** X14. [build_reactive_defense] makes one call for every recorded
    location, in the order recorded and after the calls made before: a
    spawn of one turret on the single cell one row above it.  So after
    [on_action_frame] every breach of the frame whose owner is not 1 leads
    to a turret spawn one row above its location, as often as it was
    recorded, and a frame with breaches of owner 1 only adds no call. *)
Theorem reactive_defense_after_breaches (E : Engine) (self : AlgoStrategy)
    (breaches : list breach) (t : turn) :
  calls (build_reactive_defense E (on_action_frame self breaches) t)
  = calls (build_reactive_defense E self t)
    ++ map turret_above
         (map breach_location (filter scored_on_us breaches))
  /\ calls (build_reactive_defense E self t)
     = calls t ++ map turret_above (scored_on_locations self)
  /\ (forall b : breach,
        In b breaches -> breach_owner b <> 1%Z ->
        In (Spawn TURRET
              [(fst (breach_location b), (snd (breach_location b) + 1)%Z)] 1)
          (calls (build_reactive_defense E (on_action_frame self breaches) t)))
  /\ ((forall b, In b breaches -> breach_owner b = 1%Z) ->
      build_reactive_defense E (on_action_frame self breaches) t
      = build_reactive_defense E self t).
Proof.
  assert (Hcalls : calls (build_reactive_defense E
                            (on_action_frame self breaches) t)
                   = calls (build_reactive_defense E self t)
                     ++ map turret_above
                          (map breach_location
                             (filter scored_on_us breaches))).
  { rewrite !build_reactive_defense_calls, on_action_frame_acc, map_app.
    now rewrite app_assoc. }
  split; [exact Hcalls|].
  split; [apply build_reactive_defense_calls|]. split.
  - intros b Hb Ho. rewrite Hcalls. apply in_or_app. right.
    change (Spawn TURRET
              [(fst (breach_location b), (snd (breach_location b) + 1)%Z)] 1)
      with (turret_above (breach_location b)).
    apply in_map, in_map. apply filter_In. split; [exact Hb|].
    unfold scored_on_us. rewrite negb_true_iff, Z.eqb_neq. exact Ho.
  - intro Hown. rewrite (on_action_frame_own _ _ Hown). reflexivity.
Qed.

Lemma reactive_defense_after_breaches_witness :
  In (Spawn TURRET [(20, 7)%Z] 1)
    (calls
       (build_reactive_defense (Scenario.engine 4 [])
          (on_action_frame {| scored_on_locations := [(3, 10)%Z] |}
             [ {| breach_location := (20, 6)%Z; breach_owner := 2 |} ])
          (Scenario.start Sample.quiet))).
Proof.
  destruct (reactive_defense_after_breaches (Scenario.engine 4 [])
              {| scored_on_locations := [(3, 10)%Z] |}
              [ {| breach_location := (20, 6)%Z; breach_owner := 2 |} ]
              (Scenario.start Sample.quiet))
    as (_ & _ & Hin & _).
  apply (Hin {| breach_location := (20, 6)%Z; breach_owner := 2 |}).
  - now left.
  - discriminate.
Defined.

(** ** The demolisher line *)

Lemma cheapest_unit_returns (E : Engine) (game_state : GameState) :
  exists u : unit_type, cheapest_unit E game_state = Return u.
Proof.
  unfold cheapest_unit.
  set (costs := map (fun unit => unit_cost E game_state unit MP)
                  stationary_units).
  assert (Hne : costs <> []) by discriminate.
  destruct (min_list_least costs Hne) as (m & Hmin & Hin & _).
  destruct (index_first costs m Hin) as (i & y & Hi & Hy & _).
  rewrite Hmin. cbn [bind]. rewrite Hi. cbn [bind].
  unfold costs in Hy. rewrite nth_error_map in Hy.
  destruct (nth_error stationary_units i) as [u|] eqn:Eu; [|discriminate].
  exists u. unfold getitem. rewrite Eu. reflexivity.
Qed.

(** X15. [demolisher_line_strategy] always finds its cheapest unit: one
    of the wall, the turret and the factory whose cost in movement points
    (the entry [MP] of [cost], which is the one the code reads) is the
    least of the three, the wall before the turret before the factory
    when costs are equal. *)
Theorem cheapest_unit_least (E : Engine) (game_state : GameState) :
  exists u : unit_type,
    cheapest_unit E game_state = Return u
    /\ In u stationary_units
    /\ (forall v : unit_type,
          In v stationary_units ->
          unit_cost E game_state u MP <= unit_cost E game_state v MP)
    /\ (u = TURRET ->
        unit_cost E game_state TURRET MP < unit_cost E game_state WALL MP)
    /\ (u = FACTORY ->
        unit_cost E game_state FACTORY MP < unit_cost E game_state WALL MP
        /\ unit_cost E game_state FACTORY MP
           < unit_cost E game_state TURRET MP).
Proof.
  unfold cheapest_unit.
  set (costs := map (fun unit => unit_cost E game_state unit MP)
                  stationary_units).
  assert (Hne : costs <> []) by discriminate.
  destruct (min_list_least costs Hne) as (m & Hmin & Hin & Hall).
  destruct (index_first costs m Hin) as (i & y & Hi & Hy & Hym & Hbefore).
  rewrite Hmin. cbn [bind]. rewrite Hi. cbn [bind].
  unfold costs in Hy. rewrite nth_error_map in Hy.
  destruct (nth_error stationary_units i) as [u|] eqn:Eu; [|discriminate].
  simpl in Hy. inversion Hy as [Hy']. clear Hy.
  assert (Hu : unit_cost E game_state u MP == m) by (rewrite Hy'; exact Hym).
  exists u. unfold getitem. rewrite Eu.
  split; [reflexivity|].
  split; [eapply nth_error_In; exact Eu|].
  assert (Hleast : forall v, In v stationary_units ->
                     m <= unit_cost E game_state v MP).
  { intros v Hv. rewrite Forall_forall in Hall. apply Hall.
    unfold costs. apply in_map_iff. exists v. split; [reflexivity | exact Hv]. }
  assert (Hstrict : forall j v, (j < i)%nat ->
                      nth_error stationary_units j = Some v ->
                      m < unit_cost E game_state v MP).
  { intros j v Hj Hv.
    assert (Hz : nth_error costs j = Some (unit_cost E game_state v MP)).
    { unfold costs. rewrite nth_error_map, Hv. reflexivity. }
    assert (Hneq := Hbefore _ _ Hj Hz).
    assert (Hle := Hleast v (nth_error_In _ _ Hv)).
    destruct (Qlt_le_dec m (unit_cost E game_state v MP)) as [Hlt | Hge];
      [exact Hlt|].
    exfalso. apply Hneq. apply Qle_antisym; assumption. }
  split; [|split].
  - intros v Hv. rewrite Hu. apply Hleast. exact Hv.
  - intros ->. rewrite Hu.
    destruct i as [|[|[|i]]]; simpl in Eu; try discriminate;
      try (destruct i; discriminate).
    apply (Hstrict O WALL); [lia | reflexivity].
  - intros ->. rewrite Hu.
    destruct i as [|[|[|i]]]; simpl in Eu; try discriminate;
      try (destruct i; discriminate).
    split; [apply (Hstrict O WALL) | apply (Hstrict 1%nat TURRET)];
      (lia || reflexivity).
Qed.

Lemma line_calls (E : Engine) (u : unit_type) (xs : list Z) (t : turn) :
  calls (fold_left (fun t x => spawn_call E t u [(x, 11%Z)] 1) xs t)
  = calls t ++ map (fun x => Spawn u [(x, 11%Z)] 1) xs.
Proof.
  revert t. induction xs as [|x xs IH]; intro t; simpl.
  - now rewrite app_nil_r.
  - rewrite IH. unfold spawn_call. cbn [calls].
    rewrite <- app_assoc. reflexivity.
Qed.

(** X16. [demolisher_line_strategy] never raises.  After the calls made
    before, it makes 23 calls: a spawn of one cheapest unit on each of the
    cells [(x, 11)] for [x] from 27 down to 6, every column from 6 to 27
    once and no other, then one spawn of 1000 demolishers on
    [(24, 10)]. *)
Theorem demolisher_line_calls (E : Engine) (t : turn) :
  exists (u : unit_type) (t' : turn),
    cheapest_unit E (board t) = Return u
    /\ demolisher_line_strategy E t = Return t'
    /\ calls t'
       = calls t
         ++ map (fun x => Spawn u [(x, 11%Z)] 1)
              [27; 26; 25; 24; 23; 22; 21; 20; 19; 18; 17; 16; 15; 14; 13;
               12; 11; 10; 9; 8; 7; 6]%Z
         ++ [Spawn DEMOLISHER [(24, 10)%Z] 1000]
    /\ length (calls t') = (length (calls t) + 23)%nat
    /\ (forall x : Z,
          In x [27; 26; 25; 24; 23; 22; 21; 20; 19; 18; 17; 16; 15; 14; 13;
                12; 11; 10; 9; 8; 7; 6]%Z
          <-> (6 <= x <= 27)%Z).
Proof.
  destruct (cheapest_unit_returns E (board t)) as [u Hu].
  assert (Hrun : demolisher_line_strategy E t
                 = Return
                     (spawn_call E
                        (fold_left
                           (fun t x => spawn_call E t u [(x, 11%Z)] 1)
                           [27; 26; 25; 24; 23; 22; 21; 20; 19; 18; 17; 16;
                            15; 14; 13; 12; 11; 10; 9; 8; 7; 6]%Z t)
                        DEMOLISHER [(24, 10)%Z] 1000)).
  { unfold demolisher_line_strategy. rewrite Hu. reflexivity. }
  eexists u, _. split; [exact Hu|]. split; [exact Hrun|].
  assert (Hcalls :
    calls
      (spawn_call E
         (fold_left (fun t x => spawn_call E t u [(x, 11%Z)] 1)
            [27; 26; 25; 24; 23; 22; 21; 20; 19; 18; 17; 16; 15; 14; 13;
             12; 11; 10; 9; 8; 7; 6]%Z t)
         DEMOLISHER [(24, 10)%Z] 1000)
    = calls t
      ++ map (fun x => Spawn u [(x, 11%Z)] 1)
           [27; 26; 25; 24; 23; 22; 21; 20; 19; 18; 17; 16; 15; 14; 13;
            12; 11; 10; 9; 8; 7; 6]%Z
      ++ [Spawn DEMOLISHER [(24, 10)%Z] 1000]).
  { unfold spawn_call at 1. cbn [calls]. rewrite line_calls.
    now rewrite <- app_assoc. }
  split; [exact Hcalls|]. split.
  - rewrite Hcalls, !length_app, length_map. simpl. lia.
  - intro x. simpl. lia.
Qed.

Example demolisher_line_front :
  exists t' : turn,
    demolisher_line_strategy (Scenario.engine 3 Scenario.front_cells)
      (Scenario.start Scenario.front_line) = Return t'
    /\ nth_error (calls t') 0 = Some (Spawn WALL [(27, 11)%Z] 1)
    /\ nth_error (calls t') 22 = Some (Spawn DEMOLISHER [(24, 10)%Z] 1000)
    /\ number_affordable (board t') DEMOLISHER = (-2995)%Z.
Proof. eexists. repeat split. Qed.

(** ** Stalling with interceptors *)

Lemma pick_location (deploy_locations : list cell) (draw : nat) :
  deploy_locations <> [] ->
  exists (i : Z) (l : cell),
    randint draw 0 (Z.of_nat (length deploy_locations) - 1) = Return i
    /\ getitem_int deploy_locations i = Return l
    /\ In l deploy_locations.
Proof.
  intro Hne.
  assert (Hlen : (0 < Z.of_nat (length deploy_locations))%Z).
  { destruct deploy_locations; [congruence | simpl; lia]. }
  set (n := Z.of_nat (length deploy_locations)) in *.
  exists (0 + Z.of_nat draw mod (n - 0 - 1 + 1))%Z.
  assert (Hi : (0 <= 0 + Z.of_nat draw mod (n - 0 - 1 + 1) < n)%Z).
  { replace (n - 0 - 1 + 1)%Z with n by lia.
    assert (H := Z.mod_pos_bound (Z.of_nat draw) n Hlen). lia. }
  set (i := (0 + Z.of_nat draw mod (n - 0 - 1 + 1))%Z) in *.
  destruct (nth_error deploy_locations (Z.to_nat i)) as [l|] eqn:El.
  - exists l. split; [|split].
    + unfold randint.
      destruct (n - 1 <? 0)%Z eqn:E; [apply Z.ltb_lt in E; lia|].
      unfold i. replace (n - 0 - 1 + 1)%Z with (n - 1 - 0 + 1)%Z by lia.
      reflexivity.
    + unfold getitem_int.
      destruct (i <? 0)%Z eqn:E; [apply Z.ltb_lt in E; lia|].
      unfold getitem. rewrite El. reflexivity.
    + eapply nth_error_In. exact El.
  - exfalso. apply nth_error_None in El. unfold n in Hi. lia.
Qed.

Lemma stall_loop_step (E : Engine) (deploy_locations : list cell)
    (draws : nat -> nat) (fuel k : nat) (t : turn) :
  deploy_locations <> [] ->
  type_cost (board t) INTERCEPTOR MP <= get_resource E (board t) MP ->
  exists l : cell,
    In l deploy_locations
    /\ stall_loop E deploy_locations draws (S fuel) k t
       = stall_loop E deploy_locations draws fuel (S k)
           (spawn_call E t INTERCEPTOR [l] 1).
Proof.
  intros Hne Hpay.
  destruct (pick_location deploy_locations (draws k) Hne)
    as (i & l & Hi & Hl & Hin).
  exists l. split; [exact Hin|].
  cbn [stall_loop]. apply leb_le in Hpay. rewrite Hpay.
  assert (Hlen : (0 <? Z.of_nat (length deploy_locations))%Z = true).
  { apply Z.ltb_lt. destruct deploy_locations; [congruence | simpl; lia]. }
  rewrite Hlen. cbn [andb]. rewrite Hi, Hl. reflexivity.
Qed.

Lemma stall_loop_stop (E : Engine) (deploy_locations : list cell)
    (draws : nat -> nat) (fuel k : nat) (t : turn) :
  deploy_locations = []
  \/ get_resource E (board t) MP < type_cost (board t) INTERCEPTOR MP ->
  stall_loop E deploy_locations draws (S fuel) k t = Finished t.
Proof.
  intro H. cbn [stall_loop]. destruct H as [-> | H].
  - cbn [length]. rewrite andb_false_r. reflexivity.
  - apply leb_gt in H. rewrite H. reflexivity.
Qed.

Lemma stall_loop_calls (E : Engine) (deploy_locations : list cell)
    (draws : nat -> nat) (fuel : nat) :
  forall (k : nat) (t : turn),
    (forall e,
       stall_loop E deploy_locations draws fuel k t <> Raised e)
    /\ (forall t' : turn,
          stall_loop E deploy_locations draws fuel k t = Finished t' ->
          exists picks : list cell,
            calls t' = calls t ++ map interceptor_on picks
            /\ (forall l, In l picks -> In l deploy_locations)
            /\ (deploy_locations = []
                \/ get_resource E (board t') MP
                   < type_cost (board t') INTERCEPTOR MP)).
Proof.
  induction fuel as [|fuel IH]; intros k t.
  - split; [intros e; discriminate | intros t' H; discriminate].
  - destruct deploy_locations as [|l0 ls] eqn:Edl.
    { rewrite stall_loop_stop by (now left). split; [discriminate|].
      intros t' H. inversion H. subst. exists [].
      split; [now rewrite app_nil_r|]. split; [intros l []|now left]. }
    rewrite <- Edl in *.
    assert (Hne : deploy_locations <> []) by (rewrite Edl; discriminate).
    destruct (Qlt_le_dec (get_resource E (board t) MP)
                (type_cost (board t) INTERCEPTOR MP)) as [Hlow | Hpay].
    + rewrite stall_loop_stop by (now right). split; [discriminate|].
      intros t' H. inversion H. subst. exists [].
      split; [now rewrite app_nil_r|]. split; [intros l []|now right].
    + destruct (stall_loop_step E deploy_locations draws fuel k t Hne Hpay)
        as (l & Hl & ->).
      destruct (IH (S k) (spawn_call E t INTERCEPTOR [l] 1)) as [Hno Hfin].
      split; [exact Hno|].
      intros t' H. destruct (Hfin t' H) as (picks & Hc & Hp & Hg).
      exists (l :: picks). split; [|split].
      * rewrite Hc. unfold spawn_call. cbn [calls map].
        rewrite <- app_assoc. reflexivity.
      * intros l' [<- | Hl']; auto.
      * exact Hg.
Qed.

(** X17. [stall_with_interceptors] never raises, and does nothing at all
    when no friendly edge cell is free or the movement points are below
    the cost of an interceptor.  When it ends, every call it has made is
    a spawn of one interceptor on a single cell among the free friendly
    edge cells found at its start, and either there was no such cell or
    the movement points left are below the cost of an interceptor. *)
Theorem stall_with_interceptors_calls (E : Engine) (draws : nat -> nat)
    (fuel : nat) (t : turn) :
  (forall e, stall_with_interceptors E draws fuel t <> Raised e)
  /\ (deploy_locations (board t) = []
      \/ get_resource E (board t) MP < type_cost (board t) INTERCEPTOR MP ->
      stall_with_interceptors E draws (S fuel) t = Finished t)
  /\ (forall t' : turn,
        stall_with_interceptors E draws fuel t = Finished t' ->
        exists picks : list cell,
          calls t' = calls t ++ map interceptor_on picks
          /\ (forall l, In l picks -> In l (deploy_locations (board t)))
          /\ (deploy_locations (board t) = []
              \/ get_resource E (board t') MP
                 < type_cost (board t') INTERCEPTOR MP)).
Proof.
  unfold stall_with_interceptors.
  fold (deploy_locations (board t)).
  destruct (stall_loop_calls E (deploy_locations (board t)) draws fuel 0 t)
    as [Hno Hfin].
  split; [exact Hno|]. split; [|exact Hfin].
  apply stall_loop_stop.
Qed.

Lemma stall_with_interceptors_calls_witness :
  stall_with_interceptors (Scenario.engine 0 []) (fun k => k) 1
    (Scenario.start Sample.walled_in)
  = Finished (Scenario.start Sample.walled_in).
Proof.
  destruct (stall_with_interceptors_calls (Scenario.engine 0 [])
              (fun k => k) 0 (Scenario.start Sample.walled_in))
    as (_ & Hstop & _).
  apply Hstop. left. reflexivity.
Defined.

Lemma Qfloor_unique (x : Q) (z : Z) :
  inject_Z z <= x -> x < inject_Z (z + 1) -> Qfloor x = z.
Proof.
  intros Hlo Hhi.
  assert (H1 : (z <= Qfloor x)%Z).
  { apply Qfloor_resp_le in Hlo. now rewrite Qfloor_Z in Hlo. }
  assert (H2 : (Qfloor x < z + 1)%Z).
  { rewrite Zlt_Qlt. eapply Qle_lt_trans; [apply Qfloor_le | exact Hhi]. }
  lia.
Qed.

(** The number of interceptors that [m] movement points pay for, at the
    price [c]. *)
Lemma affordable_step (m c : Q) :
  0 < c -> c <= m ->
  Z.to_nat (Qfloor (m / c)) = S (Z.to_nat (Qfloor ((m - c) / c))).
Proof.
  intros Hc Hm.
  assert (Hone : (1 <= Qfloor (m / c))%Z).
  { assert (Hq : inject_Z 1 <= m / c).
    { apply Qle_shift_div_l; [assumption|]. change (inject_Z 1) with 1. lra. }
    apply Qfloor_resp_le in Hq. now rewrite Qfloor_Z in Hq. }
  assert (Hq : (m - c) / c == m / c - 1) by (field; lra).
  assert (Hf : Qfloor ((m - c) / c) = (Qfloor (m / c) - 1)%Z).
  { apply Qfloor_unique; rewrite Hq.
    - assert (H := Qfloor_le (m / c)).
      assert (Hz : inject_Z (Qfloor (m / c) - 1)
                   == inject_Z (Qfloor (m / c)) - 1).
      { unfold Z.sub. rewrite inject_Z_plus, inject_Z_opp. reflexivity. }
      lra.
    - assert (H := Qlt_floor (m / c)).
      replace (Qfloor (m / c) - 1 + 1)%Z with (Qfloor (m / c)) by lia.
      rewrite inject_Z_plus in H. change (inject_Z 1) with 1 in H. lra. }
  rewrite Hf. lia.
Qed.

Lemma affordable_none (m c : Q) :
  0 < c -> m < c -> Z.to_nat (Qfloor (m / c)) = O.
Proof.
  intros Hc Hm.
  assert (Hq : m / c < inject_Z 1).
  { apply Qlt_shift_div_r; [assumption|]. change (inject_Z 1) with 1. lra. }
  assert (Hf := Qfloor_le (m / c)).
  assert (Hz : (Qfloor (m / c) < 1)%Z).
  { rewrite Zlt_Qlt. eapply Qle_lt_trans; eassumption. }
  lia.
Qed.

Lemma after_interceptors_snoc (E : Engine) (game_state : GameState)
    (picks : list cell) (l : cell) :
  after_interceptors E game_state (picks ++ [l])
  = attempt_spawn E (after_interceptors E game_state picks) INTERCEPTOR [l] 1.
Proof. unfold after_interceptors. rewrite fold_left_app. reflexivity. Qed.

Section Paying.

Variable E : Engine.
Variable c : Q.
Variable locations : list cell.
Variable start : GameState.

(** On the game states the loop goes through from [start], a spawn of one
    interceptor that the movement points pay for takes [c] of them and
    leaves the price of an interceptor at [c]. *)
Hypothesis price_positive : 0 < c.
Hypothesis spawn_charges :
  forall (picks : list cell) (l : cell),
    (forall l', In l' picks -> In l' locations) ->
    In l locations ->
    let game_state := after_interceptors E start picks in
    type_cost game_state INTERCEPTOR MP == c ->
    c <= get_resource E game_state MP ->
    get_resource E (attempt_spawn E game_state INTERCEPTOR [l] 1) MP
    == get_resource E game_state MP - c
    /\ type_cost (attempt_spawn E game_state INTERCEPTOR [l] 1) INTERCEPTOR MP
       == c.

Lemma stall_loop_paying (draws : nat -> nat) (fuel : nat) :
  locations <> [] ->
  forall (k : nat) (t : turn) (picks : list cell),
    (forall l', In l' picks -> In l' locations) ->
    board t = after_interceptors E start picks ->
    type_cost (board t) INTERCEPTOR MP == c ->
    (Z.to_nat (Qfloor (get_resource E (board t) MP / c)) < fuel)%nat ->
    exists t' : turn,
      stall_loop E locations draws fuel k t = Finished t'
      /\ length (calls t')
         = (length (calls t)
            + Z.to_nat (Qfloor (get_resource E (board t) MP / c)))%nat
      /\ get_resource E (board t') MP
         == get_resource E (board t) MP
            - inject_Z
                (Z.of_nat
                   (Z.to_nat (Qfloor (get_resource E (board t) MP / c))))
              * c
      /\ get_resource E (board t') MP < c.
Proof.
  intro Hne.
  induction fuel as [|fuel IH]; intros k t picks Hpicks Hboard Hcost Hfuel;
    [lia|].
  set (m := get_resource E (board t) MP) in *.
  destruct (Qlt_le_dec m c) as [Hlow | Hpay].
  - rewrite stall_loop_stop by (right; fold m; rewrite Hcost; exact Hlow).
    exists t. rewrite (affordable_none m c price_positive Hlow).
    split; [reflexivity|]. split; [lia|]. split; [|exact Hlow].
    fold m. change (inject_Z (Z.of_nat 0)) with 0. ring.
  - assert (Hpay' : type_cost (board t) INTERCEPTOR MP
                    <= get_resource E (board t) MP)
      by (fold m; rewrite Hcost; exact Hpay).
    destruct (stall_loop_step E locations draws fuel k t Hne Hpay')
      as (l & Hl & ->).
    set (t1 := spawn_call E t INTERCEPTOR [l] 1).
    assert (Hspawn := spawn_charges picks l Hpicks Hl).
    cbv zeta in Hspawn. rewrite <- Hboard in Hspawn.
    destruct (Hspawn Hcost Hpay) as [Hm1 Hc1].
    change (get_resource E (board t1) MP == m - c) in Hm1.
    change (type_cost (board t1) INTERCEPTOR MP == c) in Hc1.
    assert (Hpicks1 : forall l', In l' (picks ++ [l]) -> In l' locations).
    { intros l' Hin. apply in_app_or in Hin. destruct Hin as [Hin | [<- | []]].
      - apply Hpicks. exact Hin.
      - exact Hl. }
    assert (Hboard1 : board t1 = after_interceptors E start (picks ++ [l])).
    { rewrite after_interceptors_snoc, <- Hboard. reflexivity. }
    assert (Hn := affordable_step m c price_positive Hpay).
    assert (Hq : Qfloor (get_resource E (board t1) MP / c)
                 = Qfloor ((m - c) / c)) by (now rewrite Hm1).
    destruct (IH (S k) t1 (picks ++ [l]) Hpicks1 Hboard1 Hc1)
      as (t' & Hrun & Hlen & Hres & Hend).
    { rewrite Hq. lia. }
    exists t'. split; [exact Hrun|]. rewrite Hq in Hlen, Hres.
    split; [|split; [|exact Hend]].
    + rewrite Hlen, Hn. unfold t1, spawn_call. cbn [calls].
      rewrite length_app. simpl. lia.
    + rewrite Hres, Hm1, Hn, inject_Z_succ. ring.
Qed.

End Paying.

(** X18. Take an engine on which, on the game states the loop goes
    through, every spawn of one interceptor on a free friendly edge cell
    that the movement points pay for takes the price [c > 0] of an
    interceptor from them and leaves that price unchanged; a spawn that
    is not paid for, or any spawn on another game state, may do anything.
    With a free friendly edge cell, the loop of [stall_with_interceptors]
    then ends after exactly [floor (m / c)] spawns, where [m] is the
    number of movement points at its start; fewer than [c] points are
    left. *)
Theorem stall_with_interceptors_ends (E : Engine) (c : Q)
    (draws : nat -> nat) (fuel : nat) (t : turn) :
  0 < c ->
  (forall (picks : list cell) (l : cell),
     (forall l', In l' picks -> In l' (deploy_locations (board t))) ->
     In l (deploy_locations (board t)) ->
     let game_state := after_interceptors E (board t) picks in
     type_cost game_state INTERCEPTOR MP == c ->
     c <= get_resource E game_state MP ->
     get_resource E (attempt_spawn E game_state INTERCEPTOR [l] 1) MP
     == get_resource E game_state MP - c
     /\ type_cost (attempt_spawn E game_state INTERCEPTOR [l] 1)
          INTERCEPTOR MP
        == c) ->
  type_cost (board t) INTERCEPTOR MP == c ->
  deploy_locations (board t) <> [] ->
  (Z.to_nat (Qfloor (get_resource E (board t) MP / c)) < fuel)%nat ->
  exists t' : turn,
    stall_with_interceptors E draws fuel t = Finished t'
    /\ length (calls t')
       = (length (calls t)
          + Z.to_nat (Qfloor (get_resource E (board t) MP / c)))%nat
    /\ get_resource E (board t') MP
       == get_resource E (board t) MP
          - inject_Z
              (Z.of_nat (Z.to_nat (Qfloor (get_resource E (board t) MP / c))))
            * c
    /\ get_resource E (board t') MP < c.
Proof.
  intros Hc Hcharge Hcost Hne Hfuel.
  unfold stall_with_interceptors. fold (deploy_locations (board t)).
  apply (stall_loop_paying E c (deploy_locations (board t)) (board t) Hc
           Hcharge draws fuel Hne 0%nat t []).
  - intros l' [].
  - reflexivity.
  - exact Hcost.
  - exact Hfuel.
Qed.

Lemma stall_with_interceptors_ends_witness :
  exists t' : turn,
    stall_with_interceptors (Scenario.strict_engine 0 []) (fun k => k) 6
      (Scenario.start Sample.quiet) = Finished t'
    /\ length (calls t')
       = (length (calls (Scenario.start Sample.quiet))
          + Z.to_nat
              (Qfloor
                 (get_resource (Scenario.strict_engine 0 [])
                    (board (Scenario.start Sample.quiet)) MP / 1)))%nat
    /\ get_resource (Scenario.strict_engine 0 []) (board t') MP
       == get_resource (Scenario.strict_engine 0 [])
            (board (Scenario.start Sample.quiet)) MP
          - inject_Z
              (Z.of_nat
                 (Z.to_nat
                    (Qfloor
                       (get_resource (Scenario.strict_engine 0 [])
                          (board (Scenario.start Sample.quiet)) MP / 1))))
            * 1
    /\ get_resource (Scenario.strict_engine 0 []) (board t') MP < 1.
Proof.
  apply (stall_with_interceptors_ends (Scenario.strict_engine 0 []) 1
           (fun k => k) 6 (Scenario.start Sample.quiet)).
  - lra.
  - intros picks l _ _ game_state. clearbody game_state. intros Hprice Hpay.
    cbn [get_resource attempt_spawn Scenario.strict_engine Scenario.engine]
      in *.
    change (1 * Z.of_nat (length [l]))%Z with 1%Z.
    change (inject_Z 1) with 1 in *.
    assert (Hz : (1 <= number_affordable game_state SCOUT)%Z).
    { rewrite Zle_Qle. exact Hpay. }
    cbn [number_affordable Scenario.spend].
    assert (Hpaid : (0 <=? number_affordable game_state SCOUT - 1)%Z = true)
      by (apply Z.leb_le; lia).
    rewrite Hpaid. cbn [number_affordable type_cost Scenario.spend].
    split.
    + unfold Z.sub. rewrite inject_Z_plus, inject_Z_opp. reflexivity.
    + exact Hprice.
  - reflexivity.
  - discriminate.
  - vm_compute. lia.
Defined.

Example stall_quiet :
  exists t' : turn,
    stall_with_interceptors (Scenario.engine 0 []) (fun k => k) 6
      (Scenario.start Sample.quiet) = Finished t'
    /\ calls t'
       = [Spawn INTERCEPTOR [(13, 0)%Z] 1; Spawn INTERCEPTOR [(12, 1)%Z] 1;
          Spawn INTERCEPTOR [(13, 0)%Z] 1; Spawn INTERCEPTOR [(12, 1)%Z] 1;
          Spawn INTERCEPTOR [(13, 0)%Z] 1].
Proof. eexists. split; reflexivity. Qed.

(** X19. On an engine whose spawns leave the movement points and the
    price of an interceptor as they are, a loop of
    [stall_with_interceptors] that starts with a free friendly edge cell
    and enough points for one interceptor never ends: no amount of fuel
    lets it finish. *)
Theorem stall_with_interceptors_runs_on (E : Engine) (draws : nat -> nat)
    (fuel : nat) (t : turn) :
  (forall (game_state : GameState) (l : cell),
     get_resource E (attempt_spawn E game_state INTERCEPTOR [l] 1) MP
     == get_resource E game_state MP) ->
  (forall (game_state : GameState) (l : cell),
     type_cost (attempt_spawn E game_state INTERCEPTOR [l] 1) INTERCEPTOR MP
     == type_cost game_state INTERCEPTOR MP) ->
  deploy_locations (board t) <> [] ->
  type_cost (board t) INTERCEPTOR MP <= get_resource E (board t) MP ->
  stall_with_interceptors E draws fuel t = Unfinished.
Proof.
  intros Hres Hprice Hne Hpay.
  unfold stall_with_interceptors. fold (deploy_locations (board t)).
  generalize 0%nat as k.
  generalize dependent (deploy_locations (board t)). intros dl Hne.
  revert t Hpay.
  induction fuel as [|fuel IH]; intros t Hpay k; [reflexivity|].
  destruct (stall_loop_step E dl draws fuel k t Hne Hpay) as (l & _ & ->).
  apply IH. unfold spawn_call. cbn [board].
  rewrite Hres, Hprice. exact Hpay.
Qed.

Lemma stall_with_interceptors_runs_on_witness :
  stall_with_interceptors (Scenario.free_engine 0 []) (fun k => k) 50
    (Scenario.start Sample.quiet) = Unfinished.
Proof.
  apply (stall_with_interceptors_runs_on (Scenario.free_engine 0 [])).
  - intros game_state l. reflexivity.
  - intros game_state l. reflexivity.
  - discriminate.
  - apply leb_le. reflexivity.
Defined.

(** ** The turn as a whole *)

Lemma make_spawns_calls (E : Engine) (spawns : list spawn) (t : turn) :
  calls (make_spawns E t spawns) = calls t ++ map call_of spawns.
Proof.
  unfold make_spawns. revert t.
  induction spawns as [|s ss IH]; intro t; simpl.
  - now rewrite app_nil_r.
  - rewrite IH. unfold spawn_call. cbn [calls].
    rewrite <- app_assoc. reflexivity.
Qed.

Lemma demolisher_line_returns (E : Engine) (t : turn) :
  exists (t' : turn) (more : list call),
    demolisher_line_strategy E t = Return t'
    /\ calls t' = calls t ++ more.
Proof.
  destruct (cheapest_unit_returns E (board t)) as [u Hu].
  unfold demolisher_line_strategy. rewrite Hu. cbn [bind].
  change (range3 27 5 (-1))
    with (Return [27; 26; 25; 24; 23; 22; 21; 20; 19; 18; 17; 16; 15; 14;
                  13; 12; 11; 10; 9; 8; 7; 6]%Z).
  cbn [bind]. eexists. eexists. split; [reflexivity|].
  unfold spawn_call at 1. cbn [calls]. rewrite line_calls.
  rewrite <- app_assoc. reflexivity.
Qed.

Lemma prepared_calls (E : Engine) (self : AlgoStrategy) (t : turn) :
  calls (prepared E self t)
  = calls t
    ++ [Spawn TURRET
          [(0, 13); (27, 13); (8, 11); (19, 11); (13, 11); (14, 11)]%Z 1;
        Spawn WALL [(8, 12); (19, 12)]%Z 1;
        Upgrade [(8, 12); (19, 12)]%Z]
    ++ map turret_above (scored_on_locations self)
    ++ [Spawn FACTORY [(13, 2); (14, 2); (13, 3); (14, 3)]%Z 1].
Proof.
  unfold prepared. unfold spawn_call at 1. cbn [calls].
  rewrite build_reactive_defense_calls.
  unfold build_defences, upgrade_call, spawn_call. cbn [calls].
  rewrite <- !app_assoc. reflexivity.
Qed.

(** X20. Every call of [my_strategy] first makes the same calls: the
    turrets, the walls and their upgrade, one turret above each recorded
    breach, and the four factories.  Then, on the game state these calls
    leave: before turn 3 it stalls with interceptors, and cannot raise;
    from turn 3 on with more than 10 units of player 1 on structure cells
    of rows 14 and 15 it builds the demolisher line, and finishes; from
    turn 3 on otherwise it plans an attack, raises exactly what
    [attempt_to_attack] raises and else makes the spawns that planning
    returns.  It can fail to end only before turn 3, and whenever it
    finishes the calls made extend the first ones. *)
Theorem my_strategy_dispatch (E : Engine) (self : AlgoStrategy)
    (draws : nat -> nat) (fuel : nat) (t : turn) :
  calls (prepared E self t)
  = calls t
    ++ [Spawn TURRET
          [(0, 13); (27, 13); (8, 11); (19, 11); (13, 11); (14, 11)]%Z 1;
        Spawn WALL [(8, 12); (19, 12)]%Z 1;
        Upgrade [(8, 12); (19, 12)]%Z]
    ++ map turret_above (scored_on_locations self)
    ++ [Spawn FACTORY [(13, 2); (14, 2); (13, 3); (14, 3)]%Z 1]
  /\ ((turn_number E (board (prepared E self t)) < 3)%Z ->
      my_strategy E self draws fuel t
      = stall_with_interceptors E draws fuel (prepared E self t)
      /\ forall e, my_strategy E self draws fuel t <> Raised e)
  /\ ((3 <= turn_number E (board (prepared E self t)))%Z ->
      (10 < detect_enemy_unit E (board (prepared E self t)) None None
              (Some [14; 15]%Z))%Z ->
      exists t' : turn,
        demolisher_line_strategy E (prepared E self t) = Return t'
        /\ my_strategy E self draws fuel t = Finished t')
  /\ ((3 <= turn_number E (board (prepared E self t)))%Z ->
      (detect_enemy_unit E (board (prepared E self t)) None None
         (Some [14; 15]%Z) <= 10)%Z ->
      (forall e,
         my_strategy E self draws fuel t = Raised e
         <-> attempt_to_attack (board (prepared E self t)) = Raise e)
      /\ (forall spawns : list spawn,
            attempt_to_attack (board (prepared E self t)) = Return spawns ->
            my_strategy E self draws fuel t
            = Finished (make_spawns E (prepared E self t) spawns)))
  /\ (my_strategy E self draws fuel t = Unfinished ->
      (turn_number E (board (prepared E self t)) < 3)%Z)
  /\ (forall t' : turn,
        my_strategy E self draws fuel t = Finished t' ->
        exists more : list call,
          calls t' = calls (prepared E self t) ++ more).
Proof.
  split; [apply prepared_calls|].
  unfold my_strategy. fold (prepared E self t).
  set (t1 := prepared E self t).
  destruct (stall_loop_calls E (deploy_locations (board t1)) draws fuel 0 t1)
    as [Hno Hfin].
  destruct (demolisher_line_returns E t1) as (tl & morel & Hline & Hlc).
  destruct (turn_number E (board t1) <? 3)%Z eqn:Eturn.
  - apply Z.ltb_lt in Eturn.
    split; [intros _; split; [reflexivity | exact Hno]|].
    split; [intros H; lia|]. split; [intros H; lia|].
    split; [intros _; exact Eturn|].
    intros t' H. destruct (Hfin t' H) as (picks & Hc & _).
    eauto.
  - apply Z.ltb_ge in Eturn.
    split; [intros H; lia|].
    destruct (10 <? detect_enemy_unit E (board t1) None None
                      (Some [14; 15]%Z))%Z eqn:Edet.
    + apply Z.ltb_lt in Edet. rewrite Hline. cbn [lift].
      split; [intros _ _; eauto|].
      split; [intros _ H; lia|].
      split; [discriminate|].
      intros t' H. inversion H. subst. eauto.
    + apply Z.ltb_ge in Edet.
      split; [intros _ H; lia|].
      destruct (attempt_to_attack (board t1)) as [spawns|e] eqn:Ea.
      * split.
        { intros _ _. split.
          - intro e. split; discriminate.
          - intros spawns' H. inversion H. reflexivity. }
        split; [discriminate|].
        intros t' H. inversion H. subst.
        exists (map call_of spawns). apply make_spawns_calls.
      * split.
        { intros _ _. split.
          - intro e'. split; intro H; inversion H; reflexivity.
          - intros spawns' H. discriminate. }
        split; discriminate.
Qed.

Lemma my_strategy_dispatch_witness :
  exists t' : turn,
    demolisher_line_strategy (Scenario.engine 3 Scenario.front_cells)
      (prepared (Scenario.engine 3 Scenario.front_cells)
         {| scored_on_locations := [(3, 10)%Z] |}
         (Scenario.start Scenario.front_line))
    = Return t'
    /\ my_strategy (Scenario.engine 3 Scenario.front_cells)
         {| scored_on_locations := [(3, 10)%Z] |} (fun k => k) 10
         (Scenario.start Scenario.front_line)
       = Finished t'.
Proof.
  destruct (my_strategy_dispatch (Scenario.engine 3 Scenario.front_cells)
              {| scored_on_locations := [(3, 10)%Z] |} (fun k => k) 10
              (Scenario.start Scenario.front_line))
    as (_ & _ & Hline & _).
  apply Hline.
  - simpl. lia.
  - vm_compute. reflexivity.
Defined.

(** A turn 4 on the quiet board: the defences, then five scouts.  With
    nothing affordable the same turn raises. *)
Example my_strategy_quiet :
  exists t' : turn,
    my_strategy (Scenario.engine 4 []) {| scored_on_locations := [] |}
      (fun k => k) 10 (Scenario.start Sample.quiet) = Finished t'
    /\ calls t'
       = [Spawn TURRET
            [(0, 13); (27, 13); (8, 11); (19, 11); (13, 11); (14, 11)]%Z 1;
          Spawn WALL [(8, 12); (19, 12)]%Z 1;
          Upgrade [(8, 12); (19, 12)]%Z;
          Spawn FACTORY [(13, 2); (14, 2); (13, 3); (14, 3)]%Z 1;
          Spawn SCOUT [(13, 0)%Z] 5].
Proof. eexists. split; vm_compute; reflexivity. Qed.

Example my_strategy_penniless :
  my_strategy (Scenario.engine 4 []) {| scored_on_locations := [] |}
    (fun k => k) 10 (Scenario.start Sample.penniless)
  = Raised ZeroDivisionError.
Proof. vm_compute. reflexivity. Qed.

Lemma normalise_affordable (game_state : GameState) (p : plan) (dl : cell) :
  demolisher_deploy_location p = Some dl ->
  ~ scout_spend game_state == 0 ->
  ~ combo_spend game_state == 0 ->
  normalise game_state p
  = Return
      {| ranked := p;
         opt1_gain := scout_gain p / scout_spend game_state;
         location_index :=
           location_eqb (fst (interceptor_deploy_locations p)) dl;
         opt2_gain :=
           (demolisher_gain p
            + item (interceptor_gains p)
                (location_eqb (fst (interceptor_deploy_locations p)) dl))
           / combo_spend game_state |}.
Proof.
  unfold normalise, truediv, scout_spend, combo_spend. intros Hdl H1 H2.
  apply eqb_neq in H1, H2. rewrite H1, Hdl. simpl. rewrite H2. reflexivity.
Qed.

(** X21. When both strategies can be paid for (a positive scout spend, a
    combo spend other than zero) and the loop has assigned a demolisher
    location, both scores are computed,
    [opt1_gain = scout_gain / scout spend] and
    [opt2_gain = (demolisher_gain + interceptor_gains[location_index])
                 / combo spend],
    and the final choice is made on the threshold
    [minGainPerSPSpent = 10]: both scores at least 10, the scouts when
    their score is at least the combo's (a tie included) and the combo
    otherwise; one score at least 10, that strategy; none, no spawn.  The
    scouts are one spawn of [max_scout_spawn] units on the scout location,
    which is assigned whenever the scout score reaches the threshold; the
    combo is the demolisher spawn of [max_demolisher_spawn] units followed
    by the interceptor spawn of [max_interceptor_spawn] units, always
    both. *)
Theorem attack_decision_affordable (game_state : GameState) (p : plan)
    (dl : cell) :
  ranking game_state (deploy_locations game_state) initial_plan
  = Return (Next p) ->
  demolisher_deploy_location p = Some dl ->
  0 < scout_spend game_state ->
  ~ combo_spend game_state == 0 ->
  let location_index :=
    location_eqb (fst (interceptor_deploy_locations p)) dl in
  let opt1_gain := scout_gain p / scout_spend game_state in
  let opt2_gain :=
    (demolisher_gain p + item (interceptor_gains p) location_index)
    / combo_spend game_state in
  let combo :=
    [ {| spawn_unit := DEMOLISHER; spawn_location := dl;
         spawn_num := max_demolisher_spawn game_state |};
      {| spawn_unit := INTERCEPTOR;
         spawn_location :=
           item (interceptor_deploy_locations p) location_index;
         spawn_num := max_interceptor_spawn game_state |} ] in
  exists scouts : list spawn,
    (minGainPerSPSpent <= opt1_gain ->
     exists sl : cell,
       scout_deploy_location p = Some sl
       /\ scouts = [ {| spawn_unit := SCOUT; spawn_location := sl;
                        spawn_num := max_scout_spawn game_state |} ])
    /\ (minGainPerSPSpent <= opt1_gain ->
        minGainPerSPSpent <= opt2_gain ->
        opt2_gain <= opt1_gain ->
        attempt_to_attack game_state = Return scouts)
    /\ (minGainPerSPSpent <= opt1_gain ->
        minGainPerSPSpent <= opt2_gain ->
        opt1_gain < opt2_gain ->
        attempt_to_attack game_state = Return combo)
    /\ (minGainPerSPSpent <= opt1_gain ->
        opt2_gain < minGainPerSPSpent ->
        attempt_to_attack game_state = Return scouts)
    /\ (opt1_gain < minGainPerSPSpent ->
        minGainPerSPSpent <= opt2_gain ->
        attempt_to_attack game_state = Return combo)
    /\ (opt1_gain < minGainPerSPSpent ->
        opt2_gain < minGainPerSPSpent ->
        attempt_to_attack game_state = Return []).
Proof.
  intros Hr Hdl Hs Hc idx o1 o2 combo.
  assert (Hs0 : ~ scout_spend game_state == 0) by lra.
  assert (Hscout : minGainPerSPSpent <= o1 ->
            exists sl, scout_deploy_location p = Some sl).
  { intro H1.
    destruct (scout_deploy_location p) as [sl|] eqn:Es; [eauto|exfalso].
    assert (Hg := ranking_scout_tracked _ _ _ Hr Es).
    assert (Hneg : o1 < 0).
    { unfold o1. rewrite Hg.
      apply Qlt_shift_div_r; [assumption|]. lra. }
    unfold minGainPerSPSpent in H1. lra. }
  exists (match scout_deploy_location p with
          | Some sl => [ {| spawn_unit := SCOUT; spawn_location := sl;
                            spawn_num := max_scout_spawn game_state |} ]
          | None => []
          end).
  split.
  { intro H1. destruct (Hscout H1) as [sl Hsl]. exists sl.
    rewrite Hsl. split; reflexivity. }
  rewrite (attempt_to_attack_after_ranking _ _ Hr).
  rewrite (normalise_affordable _ _ dl Hdl Hs0 Hc). simpl.
  unfold decide, spawn_scouts, spawn_combo.
  cbn [ranked opt1_gain opt2_gain location_index].
  fold idx. fold o1. fold o2. rewrite Hdl. simpl. fold combo.
  repeat split.
  - intros H1 H2 H3. destruct (Hscout H1) as [sl Hsl]. rewrite Hsl.
    apply leb_le in H1, H2, H3. rewrite H1, H2, H3. reflexivity.
  - intros H1 H2 H3.
    apply leb_le in H1, H2. apply leb_gt in H3. rewrite H1, H2, H3.
    reflexivity.
  - intros H1 H2. destruct (Hscout H1) as [sl Hsl]. rewrite Hsl.
    apply leb_le in H1. apply leb_gt in H2. rewrite H1, H2. reflexivity.
  - intros H1 H2.
    apply leb_gt in H1. apply leb_le in H2. rewrite H1, H2. reflexivity.
  - intros H1 H2. apply leb_gt in H1, H2. rewrite H1, H2. reflexivity.
Qed.

Lemma attack_decision_affordable_witness :
  attempt_to_attack Sample.quiet
  = Return [ {| spawn_unit := SCOUT; spawn_location := (13, 0)%Z;
                spawn_num := 5 |} ].
Proof.
  destruct (attack_decision_affordable Sample.quiet Sample.quiet_plan
              (13, 0)%Z)
    as (scouts & Hsl & _ & _ & Hone & _).
  - vm_compute. reflexivity.
  - reflexivity.
  - vm_compute. reflexivity.
  - intro H. vm_compute in H. discriminate H.
  - destruct Hsl as (sl & Hsl & ->).
    + vm_compute. discriminate.
    + vm_compute in Hsl. injection Hsl as <-.
      apply Hone; vm_compute; [discriminate | reflexivity].
Defined.
